(** * newforms, forms.js: the validation pipeline, the change detector and
      the schema composer, embedded in Rocq.

    The embedding follows [src/src/forms.js].  A JavaScript object used as a
    map is an association list in insertion order ([Obj.t]): assigning to an
    existing key keeps its position, assigning to a new key appends, [delete]
    removes.  Only own properties are modelled.  This is what an engine does
    for keys that are ordinary names; it is not for an array-index key such
    as ["1"], which engines enumerate first, nor for ["__proto__"], nor for a
    key that hides the [hasOwnProperty] the code calls on the object.  The
    statements about the order in which a composed schema lists its fields
    therefore assume [ordinary_name] of the names involved.

    An instance ([FormInstance]) carries the properties the constructor
    [BaseForm] installs, the properties the pipeline creates later
    ([cleanedData]), and one ghost component, [trace], which records every
    call made into code that lives outside forms.js (a field's [clean], a
    field's [_hasChanged], an overridable method of the form).  Methods of
    forms.js are computations in a state-and-exception monad [M] over the
    instance.

    User-supplied methods (the per-field hooks [clean_<name>] /
    [clean<Name>], the form-wide [clean] and [_postClean]) are code of the
    form's author, not of forms.js: they are parameters ([Proto]) that read
    the instance and either return a value or throw.  A method that writes
    to the instance itself (one that calls [this._errors.set], say) is not
    described by [Proto]; the statements about what ends up in the report
    that would not survive such a method are made for forms whose author
    added no cleaning method ([unhooked]), where forms.js calls its own
    [clean] and [_postClean] and nothing else.

    The camel-cased hook name is built with [toUpperCase], described here
    for ASCII characters only; statements that depend on that name assume
    that the field's name starts with one ([ascii_initial]). *)

From Stdlib Require Import String Ascii List ZArith Bool Lia.
From Stdlib Require Import Sorting.Sorted Sorting.Permutation.
Import ListNotations.
Local Open Scope string_scope.
Local Open Scope list_scope.
Local Set Warnings "-register-all".

(* ================================================================= *)
(** ** Values and objects *)

(** JavaScript values, as far as the pipeline distinguishes them. *)
Inductive Value : Type :=
| VUndefined
| VNull
| VBool (b : bool)
| VNum (n : Z)
| VStr (s : string)
| VObj (props : list (string * Value)).

(** [typeof v != 'undefined'] *)
Definition isDefined (v : Value) : bool :=
  match v with
  | VUndefined => false
  | _ => true
  end.

Module Obj.
Section OrderedObject.
Context {V : Type}.

Definition t : Type := list (string * V).

Definition empty : t := [].

(** [o[k]], own properties only; [None] is JavaScript's [undefined] for a
    missing property. *)
Fixpoint get (o : t) (k : string) : option V :=
  match o with
  | [] => None
  | (k', v) :: rest => if String.eqb k' k then Some v else get rest k
  end.

(** [o[k] = v], for a key that is an ordinary name: an existing key keeps
    its place in the enumeration, a new one comes last.  (An engine puts a
    new array-index key before the names, in numeric order; statements about
    the order of keys exclude such keys by [ordinary_name].) *)
Fixpoint set (o : t) (k : string) (v : V) : t :=
  match o with
  | [] => [(k, v)]
  | (k', v') :: rest =>
      if String.eqb k' k then (k', v) :: rest else (k', v') :: set rest k v
  end.

(** [delete o[k]] *)
Fixpoint delete (o : t) (k : string) : t :=
  match o with
  | [] => []
  | (k', v') :: rest =>
      if String.eqb k' k then delete rest k else (k', v') :: delete rest k
  end.

(** [o.hasOwnProperty(k)] *)
Definition hasOwnProperty (o : t) (k : string) : bool :=
  match get o k with
  | Some _ => true
  | None => false
  end.

(** The names a [for (var k in o)] loop visits. *)
Definition keys (o : t) : list string := map fst o.

(** An association list is an object when no key occurs twice. *)
Definition wf (o : t) : Prop := NoDup (keys o).
End OrderedObject.
Arguments t : clear implicits.
End Obj.

(** Modelled from the spec: [objectItems] (util.js) is missing; the own
    [name, value] pairs of an object in enumeration order. *)
Definition objectItems {V : Type} (o : Obj.t V) : list (string * V) := o.

(** Modelled from the spec: [itemsToObject] (util.js) is missing; it assigns
    each pair in turn to a fresh object, so a name seen again is overwritten
    in place. *)
Definition itemsToObject {V : Type} (items : list (string * V)) : Obj.t V :=
  fold_left (fun o kv => Obj.set o (fst kv) (snd kv)) items Obj.empty.

(** Modelled from the spec: [getDefault] (util.js) is missing; the value of
    the property when the object has it, the default otherwise. *)
Definition getDefault {V : Type} (o : Obj.t V) (prop : string) (defaultValue : V) : V :=
  match Obj.get o prop with
  | Some v => v
  | None => defaultValue
  end.

(* ================================================================= *)
(** ** String helpers *)

Definition placeholder (key : string) : string :=
  String.append "%(" (String.append key ")s").

Fixpoint find_placeholder (args : list (string * string)) (s : string)
  : option (nat * string) :=
  match args with
  | [] => None
  | (k, v) :: rest =>
      if String.prefix (placeholder k) s
      then Some (String.length (placeholder k), v)
      else find_placeholder rest s
  end.

Fixpoint format_from (skip : nat) (args : list (string * string)) (s : string)
  : string :=
  match s with
  | EmptyString => EmptyString
  | String c rest =>
      match skip with
      | S n => format_from n args rest
      | O =>
          match find_placeholder args (String c rest) with
          | Some (len, v) => String.append v (format_from (pred len) args rest)
          | None => String c (format_from 0 args rest)
          end
      end
  end.

(** Modelled from the spec: [format] (util.js) is missing; every
    [%(key)s] of the template whose key is given is replaced by its value. *)
Definition format (template : string) (args : list (string * string)) : string :=
  format_from 0 args template.

(** [c.toUpperCase()] for an ASCII character [c]: a letter [a]..[z] becomes
    [A]..[Z], every other ASCII character is unchanged.  JavaScript also
    changes letters outside ASCII (and may give more than one character for
    them); the statements that use [capitalize] therefore assume
    [ascii_initial] of the name. *)
Definition toUpperCase (c : ascii) : ascii :=
  let n := nat_of_ascii c in
  if (97 <=? n)%nat && (n <=? 122)%nat then ascii_of_nat (n - 32) else c.

(** [name.charAt(0).toUpperCase() + name.substr(1)], for a name that is empty
    or starts with an ASCII character. *)
Definition capitalize (name : string) : string :=
  match name with
  | EmptyString => EmptyString
  | String c rest => String (toUpperCase c) rest
  end.

(* ================================================================= *)
(** ** Errors *)

(** Property under which non-field-specific errors are stored. *)
Definition NON_FIELD_ERRORS : string := "__all__".

(** What a [throw] carries.  Modelled from the spec: [ValidationError]
    (util.js) is missing; it carries a list of messages.  Everything else
    that can be thrown is a [Defect]. *)
Inductive Exn : Type :=
| ValidationError (messages : list string)
| Defect (what : string).

(** [e instanceof ValidationError] *)
Definition isValidationError (e : Exn) : bool :=
  match e with
  | ValidationError _ => true
  | Defect _ => false
  end.

Definition TypeError : Exn := Defect "TypeError".

(** Modelled from the spec: [ErrorList] (util.js) is missing; the default
    [errorConstructor], a list of messages. *)
Definition ErrorList : Type := list string.

(** Modelled from the spec: [ErrorObject] (util.js) is missing; an ordered
    mapping from a field name, or [NON_FIELD_ERRORS], to the errors recorded
    for it. *)
Module ErrorObject.
Definition t : Type := Obj.t ErrorList.
Definition new : t := Obj.empty.
Definition set (eo : t) (name : string) (error : ErrorList) : t := Obj.set eo name error.
Definition get (eo : t) (name : string) : option ErrorList := Obj.get eo name.
Definition isPopulated (eo : t) : bool :=
  match eo with
  | [] => false
  | _ :: _ => true
  end.
End ErrorObject.

(** The outcome of a call into code outside forms.js. *)
Inductive Completion (A : Type) : Type :=
| Return (a : A)
| Raise (e : Exn).
Arguments Return {A} a.
Arguments Raise {A} e.

(* ================================================================= *)
(** ** Fields (the external capability) *)

Module Widget.
Record t : Type := {
  valueFromData : Obj.t Value -> Obj.t Value -> string -> Value;
  isHidden : bool;
  needsMultipartForm : bool
}.
End Widget.

Module Field.
Record t : Type := {
  widget : Widget.t;
  (* the widget [new field.hiddenWidget()] builds *)
  hiddenWidget : Widget.t;
  initial : Value;
  showHiddenInitial : bool;
  (* [field instanceof FileField] *)
  isFileField : bool;
  (* [field.clean(value)], or [field.clean(value, initial)] for a
      [FileField] *)
  clean : Value -> option Value -> Completion Value;
  _hasChanged : Value -> Value -> bool;
  creationCounter : Z;
  label : option string;
  helpText : string
}.
End Field.

(* ================================================================= *)
(** ** Instances *)

(** Calls that leave forms.js, in the order they were made. *)
Inductive Event : Type :=
| CalledFieldClean (name : string)
| CalledHasChanged (name : string)
| CalledMethod (method : string).

Record FormInstance : Type := {
  isBound : bool;
  data : Obj.t Value;
  files : Obj.t Value;
  autoId : option string;
  prefix : option string;
  initial : Obj.t Value;
  labelSuffix : string;
  emptyPermitted : bool;
  _errors : option ErrorObject.t;
  _changedData : option (list string);
  fields : Obj.t Field.t;
  (* [None]: the instance has no [cleanedData] property *)
  cleanedData : option Value;
  trace : list Event
}.

Definition set_errors (e : option ErrorObject.t) (f : FormInstance) : FormInstance :=
  {| isBound := isBound f; data := data f; files := files f; autoId := autoId f;
     prefix := prefix f; initial := initial f; labelSuffix := labelSuffix f;
     emptyPermitted := emptyPermitted f; _errors := e;
     _changedData := _changedData f; fields := fields f;
     cleanedData := cleanedData f; trace := trace f |}.

Definition set_changedData (c : option (list string)) (f : FormInstance) : FormInstance :=
  {| isBound := isBound f; data := data f; files := files f; autoId := autoId f;
     prefix := prefix f; initial := initial f; labelSuffix := labelSuffix f;
     emptyPermitted := emptyPermitted f; _errors := _errors f;
     _changedData := c; fields := fields f;
     cleanedData := cleanedData f; trace := trace f |}.

Definition set_cleanedData (c : option Value) (f : FormInstance) : FormInstance :=
  {| isBound := isBound f; data := data f; files := files f; autoId := autoId f;
     prefix := prefix f; initial := initial f; labelSuffix := labelSuffix f;
     emptyPermitted := emptyPermitted f; _errors := _errors f;
     _changedData := _changedData f; fields := fields f;
     cleanedData := c; trace := trace f |}.

Definition record (ev : Event) (f : FormInstance) : FormInstance :=
  {| isBound := isBound f; data := data f; files := files f; autoId := autoId f;
     prefix := prefix f; initial := initial f; labelSuffix := labelSuffix f;
     emptyPermitted := emptyPermitted f; _errors := _errors f;
     _changedData := _changedData f; fields := fields f;
     cleanedData := cleanedData f; trace := trace f ++ [ev] |}.

(** The keyword arguments of [BaseForm]; [None] is [null]. *)
Record Kwargs : Type := {
  kw_data : option (Obj.t Value);
  kw_files : option (Obj.t Value);
  kw_autoId : option string;
  kw_prefix : option string;
  kw_initial : option (Obj.t Value);
  kw_labelSuffix : string;
  kw_emptyPermitted : bool
}.

(** The defaults [BaseForm] extends. *)
Definition default_kwargs : Kwargs :=
  {| kw_data := None; kw_files := None; kw_autoId := Some "id_%(name)s";
     kw_prefix := None; kw_initial := None; kw_labelSuffix := ":";
     kw_emptyPermitted := false |}.

Definition orEmpty {V : Type} (o : option (Obj.t V)) : Obj.t V :=
  match o with
  | Some x => x
  | None => Obj.empty
  end.

Definition isSome {A : Type} (o : option A) : bool :=
  match o with
  | Some _ => true
  | None => false
  end.

(** [function BaseForm(kwargs)]; [baseFields] is the prototype-wide
    definition of fields, copied into the instance. *)
Definition BaseForm (baseFields : Obj.t Field.t) (kwargs : Kwargs) : FormInstance :=
  {| isBound := isSome (kw_data kwargs) || isSome (kw_files kwargs);
     data := orEmpty (kw_data kwargs);
     files := orEmpty (kw_files kwargs);
     autoId := kw_autoId kwargs;
     prefix := kw_prefix kwargs;
     initial := orEmpty (kw_initial kwargs);
     labelSuffix := kw_labelSuffix kwargs;
     emptyPermitted := kw_emptyPermitted kwargs;
     _errors := None;
     _changedData := None;
     fields := baseFields;
     cleanedData := None;
     trace := [] |}.

(** [BaseForm.prototype.addPrefix] *)
Definition addPrefix (this : FormInstance) (fieldName : string) : string :=
  match prefix this with
  | Some p => format "%(prefix)s-%(fieldName)s" [("prefix", p); ("fieldName", fieldName)]
  | None => fieldName
  end.

(** [BaseForm.prototype.addInitialPrefix] *)
Definition addInitialPrefix (this : FormInstance) (fieldName : string) : string :=
  format "initial-%(fieldName)s" [("fieldName", addPrefix this fieldName)].

(** [BaseForm.prototype._rawValue]; reading [widget] of a field the form
    does not have is a [TypeError]. *)
Definition _rawValue (this : FormInstance) (fieldname : string) : Completion Value :=
  match Obj.get (fields this) fieldname with
  | Some field =>
      Return (Widget.valueFromData (Field.widget field) (data this) (files this)
                                   (addPrefix this fieldname))
  | None => Raise TypeError
  end.

(* ================================================================= *)
(** ** The monad of methods *)

(** How a method call ends: normally, with a result, or by a [throw]; in
    both cases the instance is left in some state. *)
Inductive Res (A : Type) : Type :=
| Normal (a : A) (this : FormInstance)
| Thrown (e : Exn) (this : FormInstance).
Arguments Normal {A} a this.
Arguments Thrown {A} e this.

Definition M (A : Type) : Type := FormInstance -> Res A.

Definition ret {A : Type} (a : A) : M A := fun this => Normal a this.

Definition bind {A B : Type} (m : M A) (k : A -> M B) : M B :=
  fun this =>
    match m this with
    | Normal a this' => k a this'
    | Thrown e this' => Thrown e this'
    end.

Definition throw {A : Type} (e : Exn) : M A := fun this => Thrown e this.

(** [try { body } catch (e) { handler e }] *)
Definition try_catch {A : Type} (body : M A) (handler : Exn -> M A) : M A :=
  fun this =>
    match body this with
    | Normal a this' => Normal a this'
    | Thrown e this' => handler e this'
    end.

Definition get_this : M FormInstance := fun this => Normal this this.

Definition modify (f : FormInstance -> FormInstance) : M unit :=
  fun this => Normal tt (f this).

(** The result of a call into outside code becomes the result of the
    calling statement. *)
Definition lift {A : Type} (c : Completion A) : M A :=
  match c with
  | Return a => ret a
  | Raise e => throw e
  end.

Declare Scope method_scope.
Delimit Scope method_scope with method.
Notation "x <- m ;; k" := (bind m (fun x => k))
  (at level 100, m at next level, right associativity) : method_scope.
Notation "m ;; k" := (bind m (fun _ => k))
  (at level 100, right associativity) : method_scope.
Local Open Scope method_scope.

(** [for (var x in ...) body], over the visited elements in order. *)
Fixpoint for_each {A : Type} (body : A -> M unit) (l : list A) : M unit :=
  match l with
  | [] => ret tt
  | x :: rest => body x ;; for_each body rest
  end.

(** The state a result leaves the instance in. *)
Definition state_of {A : Type} (r : Res A) : FormInstance :=
  match r with
  | Normal _ this => this
  | Thrown _ this => this
  end.

(* ================================================================= *)
(** ** Overridable methods *)

(** A method of the form's author, as far as it is described here: it reads
    the instance and returns or throws.  A method that assigns to the
    instance's properties is not a [Hook]. *)
Definition Hook : Type := FormInstance -> Completion Value.

(** What the prototype chain of an instance offers besides forms.js's own
    methods. *)
Record Proto : Type := {
  (* [clean], the form-wide hook *)
  clean : Hook;
  (* [_postClean]; its return value is not used *)
  _postClean : Hook;
  (* any other function-valued property, by name *)
  extra : string -> option Hook
}.

(** [BaseForm.prototype.clean] *)
Definition BaseForm_clean : Hook :=
  fun this =>
    match cleanedData this with
    | Some v => Return v
    | None => Return VUndefined
    end.

(** [BaseForm.prototype._postClean] *)
Definition BaseForm_postClean : Hook := fun _ => Return VUndefined.

(** [BaseForm.prototype], with nothing added. *)
Definition BaseForm_prototype : Proto :=
  {| clean := BaseForm_clean; _postClean := BaseForm_postClean;
     extra := fun _ => None |}.

(** [typeof this[name] != 'undefined' && isFunction(this[name])], for the
    names [_cleanFields] builds: of forms.js's own members only [clean] can
    be reached by them (by the camel-cased name of a field called [""]). *)
Definition method (P : Proto) (name : string) : option Hook :=
  if String.eqb name "clean" then Some (clean P) else extra P name.

(** [this[name]()], for a method that is a [Hook]: the call is recorded and
    the instance is otherwise as it was. *)
Definition invoke (name : string) (h : Hook) : M Value :=
  modify (record (CalledMethod name)) ;;
  this <- get_this ;;
  lift (h this).

(* ================================================================= *)
(** ** The validation pipeline *)

(** [this._errors.set(name, new this.errorConstructor(messages))] *)
Definition record_error (name : string) (messages : list string) : M unit :=
  fun this =>
    match _errors this with
    | Some eo => Normal tt (set_errors (Some (ErrorObject.set eo name messages)) this)
    | None => Thrown TypeError this
    end.

(** [this.cleanedData[name] = value]: a [TypeError] when [cleanedData] is
    missing, [undefined] or [null]; dropped when it is a primitive. *)
Definition assign_cleaned (name : string) (value : Value) : M unit :=
  fun this =>
    match cleanedData this with
    | Some (VObj o) =>
        Normal tt (set_cleanedData (Some (VObj (Obj.set o name value))) this)
    | None | Some VUndefined | Some VNull => Thrown TypeError this
    | Some _ => Normal tt this
    end.

(** [if (typeof this.cleanedData[name] != 'undefined')
       delete this.cleanedData[name];] *)
Definition discard_cleaned (name : string) : M unit :=
  fun this =>
    match cleanedData this with
    | Some (VObj o) =>
        match Obj.get o name with
        | Some v =>
            if isDefined v
            then Normal tt (set_cleanedData (Some (VObj (Obj.delete o name))) this)
            else Normal tt this
        | None => Normal tt this
        end
    | None | Some VUndefined | Some VNull => Thrown TypeError this
    | Some _ => Normal tt this
    end.

(** What the field's own [clean] answers for the data of the instance: the
    call [_cleanFields] makes, without its bookkeeping. *)
Definition field_clean (this : FormInstance) (name : string) (field : Field.t)
  : Completion Value :=
  let value := Widget.valueFromData (Field.widget field) (data this) (files this)
                                    (addPrefix this name) in
  if Field.isFileField field
  then Field.clean field value
         (Some (getDefault (initial this) name (Field.initial field)))
  else Field.clean field value None.

(** The two names [_cleanFields] probes for a field. *)
Definition clean_underscore (name : string) : string := String.append "clean_" name.
Definition clean_camel (name : string) : string := String.append "clean" (capitalize name).

(** The [catch] clause of [_cleanFields]. *)
Definition _cleanFields_catch (name : string) (e : Exn) : M unit :=
  match e with
  | ValidationError messages =>
      record_error name messages ;;
      discard_cleaned name
  | Defect _ => throw e
  end.

(** One turn of the loop of [_cleanFields]. *)
Definition _cleanFields_body (P : Proto) (entry : string * Field.t) : M unit :=
  let (name, field) := entry in
  try_catch
    (modify (record (CalledFieldClean name)) ;;
     this <- get_this ;;
     value <- lift (field_clean this name field) ;;
     assign_cleaned name value ;;
     match method P (clean_underscore name) with
     | Some hook =>
         v <- invoke (clean_underscore name) hook ;;
         assign_cleaned name v
     | None =>
         match method P (clean_camel name) with
         | Some hook =>
             v <- invoke (clean_camel name) hook ;;
             assign_cleaned name v
         | None => ret tt
         end
     end)
    (_cleanFields_catch name).

(** [BaseForm.prototype._cleanFields] *)
Definition _cleanFields (P : Proto) : M unit :=
  this <- get_this ;;
  for_each (_cleanFields_body P) (fields this).

(** [BaseForm.prototype._cleanForm] *)
Definition _cleanForm (P : Proto) : M unit :=
  try_catch
    (v <- invoke "clean" (clean P) ;;
     modify (set_cleanedData (Some v)))
    (fun e =>
       match e with
       | ValidationError messages => record_error NON_FIELD_ERRORS messages
       | Defect _ => throw e
       end).

(* ================================================================= *)
(** ** The change detector *)

(** [this._changedData.push(name)] *)
Definition push_changed (name : string) : M unit :=
  fun this =>
    match _changedData this with
    | Some l => Normal tt (set_changedData (Some (l ++ [name])) this)
    | None => Thrown TypeError this
    end.

(** The initial value [changedData] compares a field against. *)
Definition initial_for (this : FormInstance) (name : string) (field : Field.t) : Value :=
  let initialValue := getDefault (initial this) name (Field.initial field) in
  if Field.showHiddenInitial field
  then Widget.valueFromData (Field.hiddenWidget field) (data this) (files this)
                            (addInitialPrefix this name)
  else initialValue.

(** One turn of the loop of [changedData]. *)
Definition changedData_body (entry : string * Field.t) : M unit :=
  let (name, field) := entry in
  this <- get_this ;;
  let prefixedName := addPrefix this name in
  let dataValue := Widget.valueFromData (Field.widget field) (data this)
                                        (files this) prefixedName in
  let initialValue := initial_for this name field in
  modify (record (CalledHasChanged name)) ;;
  if Field._hasChanged field initialValue dataValue
  then push_changed name
  else ret tt.

(** [BaseForm.prototype.changedData] *)
Definition changedData : M (list string) :=
  this <- get_this ;;
  match _changedData this with
  | Some l => ret l
  | None =>
      modify (set_changedData (Some [])) ;;
      for_each changedData_body (fields this) ;;
      this <- get_this ;;
      match _changedData this with
      | Some l => ret l
      | None => throw TypeError
      end
  end.

(** [BaseForm.prototype.hasChanged] *)
Definition hasChanged : M bool :=
  l <- changedData ;;
  ret (0 <? List.length l)%nat.

(* ================================================================= *)
(** ** fullClean and the accessors *)

(** [if (this._errors.isPopulated()) delete this.cleanedData;] *)
Definition drop_cleaned_if_errors : M unit :=
  this <- get_this ;;
  match _errors this with
  | Some eo =>
      if ErrorObject.isPopulated eo
      then modify (set_cleanedData None)
      else ret tt
  | None => throw TypeError
  end.

(** The part of [fullClean] after the short circuit. *)
Definition fullClean_steps (P : Proto) : M unit :=
  _cleanFields P ;;
  _cleanForm P ;;
  invoke "_postClean" (_postClean P) ;;
  drop_cleaned_if_errors.

(** [BaseForm.prototype.fullClean] *)
Definition fullClean (P : Proto) : M unit :=
  modify (set_errors (Some ErrorObject.new)) ;;
  this <- get_this ;;
  if negb (isBound this) then ret tt
  else
    modify (set_cleanedData (Some (VObj Obj.empty))) ;;
    if emptyPermitted this
    then
      changed <- hasChanged ;;
      if negb changed then ret tt else fullClean_steps P
    else fullClean_steps P.

(** What [errors] hands back: the report, one key's errors ([undefined]
    when there are none), or [null]. *)
Inductive ErrorsResult : Type :=
| Report (eo : ErrorObject.t)
| ForName (errors : option ErrorList)
| NoReport.

(** [if (name)]: a missing argument and the empty string are falsy. *)
Definition truthy_name (name : option string) : option string :=
  match name with
  | Some EmptyString => None
  | other => other
  end.

(** [BaseForm.prototype.errors] *)
Definition errors (P : Proto) (name : option string) : M ErrorsResult :=
  this <- get_this ;;
  (match _errors this with
   | None => fullClean P
   | Some _ => ret tt
   end) ;;
  this <- get_this ;;
  match truthy_name name, _errors this with
  | Some n, Some eo => ret (ForName (ErrorObject.get eo n))
  | Some n, None => throw TypeError
  | None, Some eo => ret (Report eo)
  | None, None => ret NoReport
  end.

(** [BaseForm.prototype.isValid] *)
Definition isValid (P : Proto) : M bool :=
  this <- get_this ;;
  if negb (isBound this) then ret false
  else
    r <- errors P None ;;
    match r with
    | Report eo => ret (negb (ErrorObject.isPopulated eo))
    | _ => throw TypeError
    end.

(** [BaseForm.prototype.nonFieldErrors] *)
Definition nonFieldErrors (P : Proto) : M ErrorList :=
  r <- errors P (Some NON_FIELD_ERRORS) ;;
  match r with
  | ForName (Some l) => ret l
  | _ => ret []
  end.

(* ================================================================= *)
(** ** Bound fields *)

(** [s.indexOf(sub) != -1] *)
Fixpoint contains (sub s : string) : bool :=
  String.prefix sub s ||
  match s with
  | EmptyString => false
  | String _ rest => contains sub rest
  end.

Module BoundField.
(** What the constructor [BoundField(form, field, name)] stores, besides
    the reference to the form. *)
Record t : Type := {
  field : Field.t;
  name : string;
  htmlName : string;
  htmlInitialName : string;
  htmlInitialId : string;
  label : string;
  helpText : string
}.
End BoundField.

Section BoundFields.
(** [prettyName] (util.js) is missing; it derives a label from a field
    name, and nothing here depends on how. *)
Variable prettyName : string -> string.

(** [BoundField.prototype.autoId], from the form's [autoId] and the
    bound field's [htmlName]. *)
Definition BoundField_autoId (form : FormInstance) (htmlName : string) : string :=
  match autoId form with
  | None | Some EmptyString => EmptyString
  | Some autoId =>
      if contains "%(name)s" autoId
      then format autoId [("name", htmlName)]
      else htmlName
  end.

(** [function BoundField(form, field, name)] *)
Definition BoundField (form : FormInstance) (field : Field.t) (name : string)
  : BoundField.t :=
  let htmlName := addPrefix form name in
  {| BoundField.field := field;
     BoundField.name := name;
     BoundField.htmlName := htmlName;
     BoundField.htmlInitialName := addInitialPrefix form name;
     BoundField.htmlInitialId := addInitialPrefix form (BoundField_autoId form htmlName);
     BoundField.label :=
       match Field.label field with
       | Some l => l
       | None => prettyName name
       end;
     BoundField.helpText := Field.helpText field |}.

(** The message of the [Error] that [boundField] throws. *)
Definition no_such_field (name : string) : string :=
  String.append "Form does not have a '" (String.append name "' field.").

(** [BaseForm.prototype.boundField]; [BoundField] applied to the
    [undefined] that a missing field reads as is a [TypeError]. *)
Definition boundField (name : string) : M BoundField.t :=
  this <- get_this ;;
  if negb (Obj.hasOwnProperty (fields this) name)
  then throw (Defect (no_such_field name))
  else
    match Obj.get (fields this) name with
    | Some field => ret (BoundField this field name)
    | None => throw TypeError
    end.
End BoundFields.

(* ================================================================= *)
(** ** The schema composer *)

(** An entry of the [kwargs] of [Form]: a [Field], or anything else (a
    method or a datum for the new prototype). *)
Inductive KwValue : Type :=
| KwField (field : Field.t)
| KwOther.

(** A form constructor, as far as composition reads it:
    [prototype.baseFields], [None] when [undefined] (as for [BaseForm]). *)
Record Constructor : Type := {
  baseFields : option (Obj.t Field.t)
}.

Definition BaseForm_constructor : Constructor := {| baseFields := None |}.

(** The [[name, field]] pairs popped from [kwargs], in enumeration order. *)
Fixpoint declared_fields (kwargs : Obj.t KwValue) : list (string * Field.t) :=
  match kwargs with
  | [] => []
  | (name, KwField f) :: rest => (name, f) :: declared_fields rest
  | (_, KwOther) :: rest => declared_fields rest
  end.

Fixpoint insert_by_counter (x : string * Field.t) (l : list (string * Field.t))
  : list (string * Field.t) :=
  match l with
  | [] => [x]
  | y :: rest =>
      if (Field.creationCounter (snd x) <=? Field.creationCounter (snd y))%Z
      then x :: y :: rest
      else y :: insert_by_counter x rest
  end.

(** [fields.sort(function(a, b) { return a[1].creationCounter -
    b[1].creationCounter; })], as an insertion sort. *)
Definition sort_by_creationCounter (l : list (string * Field.t))
  : list (string * Field.t) :=
  fold_right insert_by_counter [] l.

(** The loop over the base forms, last to first, each one's fields put in
    front of what has been gathered. *)
Definition prepend_bases (bases : list Constructor) (fields : list (string * Field.t))
  : list (string * Field.t) :=
  fold_right
    (fun base acc =>
       match baseFields base with
       | Some bf => objectItems bf ++ acc
       | None => acc
       end)
    fields bases.

(** [Form(kwargs)], the part that builds [prototype.baseFields] of the new
    constructor from the base forms [kwargs.form] and the fields among the
    other entries. *)
Definition Form (bases : list Constructor) (kwargs : Obj.t KwValue) : Constructor :=
  let fields := sort_by_creationCounter (declared_fields kwargs) in
  let fields := prepend_bases bases fields in
  {| baseFields := Some (itemsToObject fields) |}.

(** The fields an instance of a constructor starts with. *)
Definition instantiate (c : Constructor) (kwargs : Kwargs) : FormInstance :=
  BaseForm (orEmpty (baseFields c)) kwargs.

(* ================================================================= *)
(** ** Sample fields and forms *)

Module Sample.
(** A widget that reads its value under its name, [null] when absent. *)
Definition TextInput : Widget.t :=
  {| Widget.valueFromData := fun data _ name => getDefault data name VNull;
     Widget.isHidden := false;
     Widget.needsMultipartForm := false |}.

Definition HiddenInput : Widget.t :=
  {| Widget.valueFromData := fun data _ name => getDefault data name VNull;
     Widget.isHidden := true;
     Widget.needsMultipartForm := false |}.

Definition isEmptyValue (v : Value) : bool :=
  match v with
  | VUndefined | VNull | VStr EmptyString => true
  | _ => false
  end.

Definition text_of (v : Value) : string :=
  match v with
  | VStr s => s
  | _ => EmptyString
  end.

Definition text_changed (initial data : Value) : bool :=
  negb (String.eqb (text_of initial) (text_of data)).

Definition required_message : list string := ["This field is required."].

Definition CharField (required : bool) (counter : Z) : Field.t :=
  {| Field.widget := TextInput;
     Field.hiddenWidget := HiddenInput;
     Field.initial := VNull;
     Field.showHiddenInitial := false;
     Field.isFileField := false;
     Field.clean := fun v _ =>
       if isEmptyValue v
       then if required then Raise (ValidationError required_message)
            else Return (VStr EmptyString)
       else Return v;
     Field._hasChanged := text_changed;
     Field.creationCounter := counter;
     Field.label := None;
     Field.helpText := EmptyString |}.

Fixpoint digits (acc : Z) (s : string) : option Z :=
  match s with
  | EmptyString => Some acc
  | String c rest =>
      let n := nat_of_ascii c in
      if (48 <=? n)%nat && (n <=? 57)%nat
      then digits (10 * acc + Z.of_nat (n - 48)) rest
      else None
  end.

Definition IntegerField (required : bool) (initial : Value) (counter : Z) : Field.t :=
  {| Field.widget := TextInput;
     Field.hiddenWidget := HiddenInput;
     Field.initial := initial;
     Field.showHiddenInitial := false;
     Field.isFileField := false;
     Field.clean := fun v _ =>
       if isEmptyValue v
       then if required then Raise (ValidationError required_message)
            else Return VNull
       else match digits 0 (text_of v) with
            | Some n => Return (VNum n)
            | None => Raise (ValidationError ["Enter a whole number."])
            end;
     Field._hasChanged := text_changed;
     Field.creationCounter := counter;
     Field.label := None;
     Field.helpText := EmptyString |}.

(** A field whose [clean] has a defect. *)
Definition BrokenField (counter : Z) : Field.t :=
  {| Field.widget := TextInput;
     Field.hiddenWidget := HiddenInput;
     Field.initial := VNull;
     Field.showHiddenInitial := false;
     Field.isFileField := false;
     Field.clean := fun _ _ => Raise (Defect "ReferenceError");
     Field._hasChanged := text_changed;
     Field.creationCounter := counter;
     Field.label := None;
     Field.helpText := EmptyString |}.

(** A text field that echoes its initial value in a hidden input. *)
Definition EchoField (counter : Z) : Field.t :=
  {| Field.widget := TextInput;
     Field.hiddenWidget := HiddenInput;
     Field.initial := VStr "ignored";
     Field.showHiddenInitial := true;
     Field.isFileField := false;
     Field.clean := fun v _ => Return v;
     Field._hasChanged := text_changed;
     Field.creationCounter := counter;
     Field.label := None;
     Field.helpText := EmptyString |}.

(** The schema [{name: required text, age: optional integer with
    initial 0}]. *)
Definition PersonForm : Constructor :=
  Form [BaseForm_constructor]
       [("age", KwField (IntegerField false (VNum 0) 2));
        ("name", KwField (CharField true 1))].

Definition bound (d : Obj.t Value) : Kwargs :=
  {| kw_data := Some d; kw_files := None; kw_autoId := Some "id_%(name)s";
     kw_prefix := None; kw_initial := None; kw_labelSuffix := ":";
     kw_emptyPermitted := false |}.

Definition bound_emptyPermitted (d : Obj.t Value) : Kwargs :=
  {| kw_data := Some d; kw_files := None; kw_autoId := Some "id_%(name)s";
     kw_prefix := None; kw_initial := None; kw_labelSuffix := ":";
     kw_emptyPermitted := true |}.

Definition ada : Obj.t Value := [("name", VStr "Ada"); ("age", VStr "7")].
Definition nameless : Obj.t Value := [("name", VStr ""); ("age", VStr "7")].

(** A prototype whose form-wide [clean] rejects every submission. *)
Definition rejecting : Proto :=
  {| clean := fun _ => Raise (ValidationError ["Rejected."]);
     _postClean := BaseForm_postClean;
     extra := fun _ => None |}.

(** A prototype with both hooks for the field [name]; [clean_name]
    returns nothing. *)
Definition hooked : Proto :=
  {| clean := BaseForm_clean;
     _postClean := BaseForm_postClean;
     extra := fun m =>
       if String.eqb m "clean_name" then Some (fun _ => Return VUndefined)
       else if String.eqb m "cleanName" then Some (fun _ => Return (VStr "camel"))
       else None |}.

(** A prototype with the camel-cased hook for the field [name] only; it
    returns nothing. *)
Definition camel_hooked : Proto :=
  {| clean := BaseForm_clean;
     _postClean := BaseForm_postClean;
     extra := fun m =>
       if String.eqb m "cleanName" then Some (fun _ => Return VUndefined)
       else None |}.

(** A prototype whose hook for the field [age] rejects every age. *)
Definition vetoing : Proto :=
  {| clean := BaseForm_clean;
     _postClean := BaseForm_postClean;
     extra := fun m =>
       if String.eqb m "clean_age"
       then Some (fun _ => Raise (ValidationError ["Too young."]))
       else None |}.

(** The parent [P] with fields [a], [b], redeclaring [b] and adding
    [c]. *)
Definition fa : Field.t := CharField true 1.
Definition fb : Field.t := CharField true 2.
Definition fb' : Field.t := IntegerField false VNull 3.
Definition fc : Field.t := CharField false 4.
Definition ada_form : FormInstance := instantiate PersonForm (bound ada).
Definition nameless_form : FormInstance := instantiate PersonForm (bound nameless).
Definition unbound_form : FormInstance := instantiate PersonForm default_kwargs.

(** A form whose field [nick] echoes its initial value: the hidden input
    says ["x"], the instance's initial map says ["y"]. *)
Definition echo_form : FormInstance :=
  BaseForm [("nick", EchoField 1); ("name", CharField true 2)]
    {| kw_data := Some [("nick", VStr "y"); ("initial-nick", VStr "x");
                        ("name", VStr "Ada")];
       kw_files := None; kw_autoId := Some "id_%(name)s"; kw_prefix := None;
       kw_initial := Some [("name", VStr "Ada"); ("nick", VStr "y")];
       kw_labelSuffix := ":"; kw_emptyPermitted := false |}.

Definition ParentP : Constructor :=
  Form [BaseForm_constructor] [("b", KwField fb); ("a", KwField fa)].
End Sample.

(* ================================================================= *)
(** ** Vocabulary of the statements *)

(** The properties of an instance that no method of forms.js assigns after
    construction. *)
Definition config (f : FormInstance) :=
  (isBound f, data f, files f, autoId f, prefix f, initial f, labelSuffix f,
   emptyPermitted f, fields f).

(** The fields whose [clean] was called, in call order. *)
Fixpoint field_cleans (t : list Event) : list string :=
  match t with
  | [] => []
  | CalledFieldClean name :: rest => name :: field_cleans rest
  | _ :: rest => field_cleans rest
  end.

(** The methods of the form that were called, in call order. *)
Fixpoint method_calls (t : list Event) : list string :=
  match t with
  | [] => []
  | CalledMethod m :: rest => m :: method_calls rest
  | _ :: rest => method_calls rest
  end.

(** The fields whose [_hasChanged] was called, in call order. *)
Fixpoint change_checks (t : list Event) : list string :=
  match t with
  | [] => []
  | CalledHasChanged name :: rest => name :: change_checks rest
  | _ :: rest => change_checks rest
  end.

(** No field's [clean], and no method of the form, throws anything but a
    [ValidationError]. *)
Definition no_defect (h : Hook) : Prop :=
  forall this d, h this <> Raise (Defect d).

Definition defect_free (P : Proto) (this : FormInstance) : Prop :=
  (forall name f d, In (name, f) (fields this) ->
                    field_clean this name f <> Raise (Defect d)) /\
  (forall m h, method P m = Some h -> no_defect h).

(** [_postClean] returns. *)
Definition returns (h : Hook) : Prop :=
  forall this, exists v, h this = Return v.

(** The names for which a predicate holds, as the spec words the change
    detector: the field's own predicate, asked about the initial value (from
    the hidden-initial channel when the field requests it, from the
    instance's initial map falling back to the field's own otherwise) and
    the submitted raw value. *)
Definition changed_names_spec (this : FormInstance) : list string :=
  map fst
    (filter
       (fun entry : string * Field.t =>
          let (name, field) := entry in
          let submitted :=
            Widget.valueFromData (Field.widget field) (data this) (files this)
                                 (addPrefix this name) in
          let initialValue :=
            if Field.showHiddenInitial field
            then Widget.valueFromData (Field.hiddenWidget field) (data this)
                   (files this) (String.append "initial-" (addPrefix this name))
            else match Obj.get (initial this) name with
                 | Some v => v
                 | None => Field.initial field
                 end in
          Field._hasChanged field initialValue submitted)
       (fields this)).



(** The accessors an instance offers to its readers. *)
Inductive Access : Type :=
| ReadErrors (name : option string)
| ReadIsValid
| ReadNonFieldErrors
| ReadChangedData
| ReadHasChanged
| CallFullClean.

Definition access (P : Proto) (a : Access) : M unit :=
  match a with
  | ReadErrors name => errors P name ;; ret tt
  | ReadIsValid => isValid P ;; ret tt
  | ReadNonFieldErrors => nonFieldErrors P ;; ret tt
  | ReadChangedData => changedData ;; ret tt
  | ReadHasChanged => hasChanged ;; ret tt
  | CallFullClean => fullClean P
  end.

(** What [changedData] asks a field: its [_hasChanged], about the initial
    value and the submitted one. *)
Definition field_changed (this : FormInstance) (name : string) (field : Field.t) : bool :=
  Field._hasChanged field (initial_for this name field)
    (Widget.valueFromData (Field.widget field) (data this) (files this)
                          (addPrefix this name)).

(** The instance once [fullClean] has installed an empty report and an
    empty [cleanedData]. *)
Definition fresh (this : FormInstance) : FormInstance :=
  set_cleanedData (Some (VObj Obj.empty)) (set_errors (Some ErrorObject.new) this).

(** The state in which [fullClean] starts cleaning the fields; [None] when
    it returns before that (the instance is unbound, or it may be empty and
    nothing has changed). *)
Definition cleaning_starts (this : FormInstance) : option FormInstance :=
  let fresh := fresh this in
  if negb (isBound this) then None
  else if emptyPermitted this
       then match hasChanged fresh with
            | Normal true this' => Some this'
            | _ => None
            end
       else Some fresh.

(** Every access but a direct call of [fullClean] is a read. *)
Definition is_read (a : Access) : bool :=
  match a with
  | CallFullClean => false
  | _ => true
  end.


(** Created no later than. *)
Definition created_before (x y : string * Field.t) : Prop :=
  (Field.creationCounter (snd x) <= Field.creationCounter (snd y))%Z.

(* ================================================================= *)
(** ** Lists of bound fields, and what a bound field reads *)

(** [v === true] *)
Definition isTrue (v : Value) : bool :=
  match v with
  | VBool true => true
  | _ => false
  end.

Section BoundFieldLists.
(** [prettyName] (util.js) is missing, as for [BoundField]. *)
Variable prettyName : string -> string.

(** The loop of [boundFields] over the own fields: a bound field for each
    field for which [test(field, name) === true]. *)
Fixpoint boundFields_loop (form : FormInstance) (test : Field.t -> string -> Value)
  (l : list (string * Field.t)) : list BoundField.t :=
  match l with
  | [] => []
  | (name, field) :: rest =>
      if isTrue (test field name)
      then BoundField prettyName form field name :: boundFields_loop form test rest
      else boundFields_loop form test rest
  end.

(** [test = test || function() { return true; }] *)
Definition orAlways (test : option (Field.t -> string -> Value))
  : Field.t -> string -> Value :=
  match test with
  | Some t => t
  | None => fun _ _ => VBool true
  end.

(** [BaseForm.prototype.boundFields] *)
Definition boundFields (test : option (Field.t -> string -> Value))
  (this : FormInstance) : list BoundField.t :=
  boundFields_loop this (orAlways test) (fields this).

(** [BaseForm.prototype.boundFieldsObj] *)
Definition boundFieldsObj (test : option (Field.t -> string -> Value))
  (this : FormInstance) : Obj.t BoundField.t :=
  fold_left
    (fun acc (entry : string * Field.t) =>
       let (name, field) := entry in
       if isTrue (orAlways test field name)
       then Obj.set acc name (BoundField prettyName this field name)
       else acc)
    (fields this) Obj.empty.

(** [BaseForm.prototype.hiddenFields] *)
Definition hiddenFields (this : FormInstance) : list BoundField.t :=
  boundFields (Some (fun field _ => VBool (Widget.isHidden (Field.widget field)))) this.

(** [BaseForm.prototype.visibleFields] *)
Definition visibleFields (this : FormInstance) : list BoundField.t :=
  boundFields
    (Some (fun field _ => VBool (negb (Widget.isHidden (Field.widget field))))) this.
End BoundFieldLists.

(** [BoundField.prototype.isHidden] *)
Definition BoundField_isHidden (bf : BoundField.t) : bool :=
  Widget.isHidden (Field.widget (BoundField.field bf)).

(** [BoundField.prototype.errors], on the form the bound field belongs to:
    [this.form.errors(this.name) || new this.form.errorConstructor()].  An
    error list and a report are objects, hence truthy; [undefined] and
    [null] give way to a new, empty list. *)
Definition BoundField_errors (P : Proto) (bf : BoundField.t)
  : M (ErrorList + ErrorObject.t) :=
  (r <- errors P (Some (BoundField.name bf)) ;;
   match r with
   | ForName (Some l) => ret (inl l)
   | ForName None => ret (inl [])
   | Report eo => ret (inr eo)
   | NoReport => ret (inl [])
   end)%method.

(** A field for which the instance has neither of the two hooks. *)
Definition hookless (P : Proto) (name : string) : Prop :=
  method P (clean_underscore name) = None /\ method P (clean_camel name) = None.

(** A name that is empty or starts with an ASCII character: the names for
    which [capitalize] is what JavaScript computes. *)
Definition ascii_initial (name : string) : bool :=
  match name with
  | EmptyString => true
  | String c _ => (nat_of_ascii c <? 128)%nat
  end.

(** The letter of [upper] that stands where [c] stands in [lower]; [c]
    itself when it does not occur there. *)
Fixpoint letter_above (lower upper : string) (c : ascii) : ascii :=
  match lower, upper with
  | String l lower', String u upper' =>
      if Ascii.eqb l c then u else letter_above lower' upper' c
  | _, _ => c
  end.

(** The upper-case form of a letter, read off the two alphabets; any other
    character is itself. *)
Definition upper_case_letter (c : ascii) : ascii :=
  letter_above "abcdefghijklmnopqrstuvwxyz" "ABCDEFGHIJKLMNOPQRSTUVWXYZ" c.

(** The name of the camel-cased hook as the spec words it: the fixed verb
    followed by the field's name with its first character upper-cased. *)
Definition camel_hook_spec (name : string) : string :=
  match name with
  | EmptyString => "clean"
  | String c rest => String.append "clean" (String (upper_case_letter c) rest)
  end.

(** The hook [_cleanFields] calls for a field, with the name it calls it
    by: [clean_<name>] when there is one, else [clean<Name>] when there is
    one. *)
Definition field_hook (P : Proto) (name : string) : option (string * Hook) :=
  match method P (clean_underscore name) with
  | Some h => Some (clean_underscore name, h)
  | None =>
      match method P (clean_camel name) with
      | Some h => Some (clean_camel name, h)
      | None => None
      end
  end.

(** No field of the instance has a hook (and the names are such that
    [capitalize] finds the hook that JavaScript would look for). *)
Definition no_field_hooks (P : Proto) (this : FormInstance) : Prop :=
  forall name, In name (Obj.keys (fields this)) ->
    ascii_initial name = true /\ hookless P name.

(** A form whose author added no cleaning method: [clean] and [_postClean]
    are [BaseForm]'s own, and no field has a hook.  For such a form
    [fullClean] calls nothing of the form's author. *)
Definition unhooked (P : Proto) (this : FormInstance) : Prop :=
  clean P = BaseForm_clean /\
  _postClean P = BaseForm_postClean /\
  no_field_hooks P this.

(** Whether every character is a decimal digit. *)
Fixpoint all_digits (s : string) : bool :=
  match s with
  | EmptyString => true
  | String c rest =>
      (48 <=? nat_of_ascii c)%nat && (nat_of_ascii c <=? 57)%nat && all_digits rest
  end.

(** A non-empty string of decimal digits.  Every array index (the decimal
    numeral of an integer below 2^32 - 1) is one. *)
Definition index_like (k : string) : bool :=
  match k with
  | EmptyString => false
  | _ => all_digits k
  end.

(** A property name for which [Obj.set] and [Obj.keys] are what an engine
    does, and under which the code can still reach [hasOwnProperty]: not
    index-like, not ["__proto__"] (assigning to it sets the prototype), not
    ["hasOwnProperty"]. *)
Definition ordinary_name (k : string) : bool :=
  negb (index_like k) && negb (String.eqb k "__proto__")
  && negb (String.eqb k "hasOwnProperty").

(** Every name of a list is ordinary. *)
Definition ordinary_names (names : list string) : Prop :=
  Forall (fun k => ordinary_name k = true) names.

(* ================================================================= *)
(** * Properties *)

(** ** Ordered objects *)

Section ObjFacts.
Context {V : Type}.
Implicit Types (o : Obj.t V) (k : string) (v : V).

Lemma get_set_same o k v : Obj.get (Obj.set o k v) k = Some v.
Proof.
  induction o as [|[k' v'] o IH]; cbn.
  - now rewrite String.eqb_refl.
  - destruct (String.eqb k' k) eqn:E; cbn; rewrite E; auto.
Qed.

Lemma get_set_other o k k' v : k <> k' -> Obj.get (Obj.set o k v) k' = Obj.get o k'.
Proof.
  intros Hne. apply String.eqb_neq in Hne.
  induction o as [|[k0 v0] o IH]; cbn.
  - now rewrite Hne.
  - destruct (String.eqb k0 k) eqn:E; cbn.
    + apply String.eqb_eq in E. subst k0. now rewrite Hne.
    + destruct (String.eqb k0 k'); auto.
Qed.

Lemma get_delete_same o k : Obj.get (Obj.delete o k) k = None.
Proof.
  induction o as [|[k' v'] o IH]; cbn; auto.
  destruct (String.eqb k' k) eqn:E; cbn; auto. now rewrite E.
Qed.

Lemma get_delete_other o k k' : k <> k' -> Obj.get (Obj.delete o k) k' = Obj.get o k'.
Proof.
  intros Hne. apply String.eqb_neq in Hne.
  induction o as [|[k0 v0] o IH]; cbn; auto.
  destruct (String.eqb k0 k) eqn:E; cbn.
  - apply String.eqb_eq in E. subst k0. now rewrite Hne.
  - destruct (String.eqb k0 k'); auto.
Qed.

Lemma get_None_not_key o k : Obj.get o k = None <-> ~ In k (Obj.keys o).
Proof.
  induction o as [|[k' v'] o IH]; cbn.
  - tauto.
  - destruct (String.eqb k' k) eqn:E.
    + apply String.eqb_eq in E. split; [discriminate | intros H; exfalso; apply H; now left].
    + apply String.eqb_neq in E. rewrite IH. tauto.
Qed.

Lemma get_Some_key o k v : Obj.get o k = Some v -> In k (Obj.keys o).
Proof.
  intros H. destruct (in_dec string_dec k (Obj.keys o)) as [|Hn]; auto.
  apply get_None_not_key in Hn. congruence.
Qed.

Lemma get_Some_In o k v : Obj.get o k = Some v -> In (k, v) o.
Proof.
  induction o as [|[k' v'] o IH]; cbn; [discriminate|].
  destruct (String.eqb k' k) eqn:E.
  - apply String.eqb_eq in E. intros [= ->]. subst. now left.
  - auto.
Qed.

Lemma In_get_Some o k v : Obj.wf o -> In (k, v) o -> Obj.get o k = Some v.
Proof.
  unfold Obj.wf. induction o as [|[k' v'] o IH]; cbn; [tauto|].
  intros Hnd [H|H].
  - inversion H; subst. now rewrite String.eqb_refl.
  - inversion Hnd as [|? ? Hnotin Hnd']; subst.
    destruct (String.eqb k' k) eqn:E; auto.
    apply String.eqb_eq in E. subst k'. exfalso. apply Hnotin.
    apply (in_map fst) in H. exact H.
Qed.

Lemma set_existing_keys o k v : In k (Obj.keys o) -> Obj.keys (Obj.set o k v) = Obj.keys o.
Proof.
  induction o as [|[k' v'] o IH]; cbn; [tauto|].
  intros H. destruct (String.eqb k' k) eqn:E; cbn; auto.
  apply String.eqb_neq in E. destruct H as [H|H]; [contradiction|].
  f_equal. now apply IH.
Qed.

Lemma set_new o k v : ~ In k (Obj.keys o) -> Obj.set o k v = o ++ [(k, v)].
Proof.
  induction o as [|[k' v'] o IH]; cbn; auto.
  intros H. destruct (String.eqb k' k) eqn:E.
  - apply String.eqb_eq in E. tauto.
  - rewrite IH; auto.
Qed.

Lemma set_keys o k v :
  Obj.keys (Obj.set o k v) =
  if in_dec string_dec k (Obj.keys o) then Obj.keys o else Obj.keys o ++ [k].
Proof.
  destruct (in_dec string_dec k (Obj.keys o)) as [H|H].
  - now apply set_existing_keys.
  - rewrite set_new by assumption. unfold Obj.keys. now rewrite map_app.
Qed.

End ObjFacts.

(** ** The loop of [_cleanFields] *)

Create HintDb method_ops.
#[local] Hint Unfold bind ret throw try_catch get_this modify lift invoke
  record_error assign_cleaned discard_cleaned _cleanFields_catch : method_ops.

Arguments field_clean : simpl never.
Arguments method : simpl never.
Arguments clean_underscore : simpl never.
Arguments clean_camel : simpl never.

Ltac break_match :=
  match goal with
  | |- context [match ?x with _ => _ end] =>
      lazymatch x with
      | context [match _ with _ => _ end] => fail
      | _ => destruct x eqn:?
      end
  end.

(** Runs one turn of the loop on a state whose report and cleaned data are
    known, splitting on what the outside code answers. *)
Ltac run_body name f s Herr Hcd :=
  unfold _cleanFields_body; autounfold with method_ops; cbn;
  change (field_clean (record (CalledFieldClean name) s) name f)
    with (field_clean s name f);
  destruct (field_clean s name f) as [?v|[?msgs|?d]] eqn:?Hfc;
  destruct s; cbn in Herr, Hcd; subst; cbn;
  repeat (break_match; cbn).

Lemma field_cleans_app t u :
  field_cleans (t ++ u) = field_cleans t ++ field_cleans u.
Proof.
  induction t as [|[] t IH]; cbn; auto. now rewrite IH.
Qed.

Lemma method_calls_app t u :
  method_calls (t ++ u) = method_calls t ++ method_calls u.
Proof.
  induction t as [|[] t IH]; cbn; auto. now rewrite IH.
Qed.

Lemma change_checks_app t u :
  change_checks (t ++ u) = change_checks t ++ change_checks u.
Proof.
  induction t as [|[] t IH]; cbn; auto. now rewrite IH.
Qed.

Lemma field_clean_config a b name f :
  config a = config b -> field_clean a name f = field_clean b name f.
Proof.
  unfold config, field_clean, addPrefix. intros H.
  injection H as Hb Hd Hf Ha Hp Hi Hl He Hfs.
  now rewrite Hd, Hf, Hp, Hi.
Qed.

Lemma body_summary P name f s eo cd :
  _errors s = Some eo -> cleanedData s = Some (VObj cd) ->
  let r := _cleanFields_body P (name, f) s in
  config (state_of r) = config s /\
  _changedData (state_of r) = _changedData s /\
  field_cleans (trace (state_of r)) = field_cleans (trace s) ++ [name] /\
  exists eo' cd',
    _errors (state_of r) = Some eo' /\
    cleanedData (state_of r) = Some (VObj cd') /\
    forall k, k <> name ->
      Obj.get eo' k = Obj.get eo k /\ Obj.get cd' k = Obj.get cd k.
Proof.
  intros Herr Hcd r. subst r.
  run_body name f s Herr Hcd.
  all: repeat split; auto.
  all: rewrite <- ?app_assoc, ?field_cleans_app; cbn; rewrite ?app_nil_r; auto.
  all: do 2 eexists; repeat split; try reflexivity.
  all: unfold ErrorObject.set;
    repeat first [ rewrite get_set_other by congruence
                 | rewrite get_delete_other by congruence ];
    auto.
Qed.

Lemma body_validation_error P name f s eo cd msgs :
  _errors s = Some eo -> cleanedData s = Some (VObj cd) ->
  field_clean s name f = Raise (ValidationError msgs) ->
  exists s' cd',
    _cleanFields_body P (name, f) s = Normal tt s' /\
    _errors s' = Some (ErrorObject.set eo name msgs) /\
    cleanedData s' = Some (VObj cd') /\
    (Obj.get cd name = None -> Obj.get cd' name = None).
Proof.
  intros Herr Hcd Hfc.
  unfold _cleanFields_body; autounfold with method_ops; cbn.
  change (field_clean (record (CalledFieldClean name) s) name f)
    with (field_clean s name f).
  rewrite Hfc. destruct s; cbn in Herr, Hcd; subst; cbn.
  repeat (break_match; cbn).
  all: do 2 eexists; repeat split; try reflexivity; auto.
  all: congruence.
Qed.

Lemma body_defect P name f s d :
  field_clean s name f = Raise (Defect d) ->
  _cleanFields_body P (name, f) s =
  Thrown (Defect d) (record (CalledFieldClean name) s).
Proof.
  intros H. unfold _cleanFields_body. autounfold with method_ops. cbn.
  change (field_clean (record (CalledFieldClean name) s) name f)
    with (field_clean s name f).
  now rewrite H.
Qed.

(** Whatever leaves a turn of the loop by a [throw] is a defect that the
    field's [clean] or a method of the form raised. *)
Lemma body_thrown P name f s eo cd e s' :
  _errors s = Some eo -> cleanedData s = Some (VObj cd) ->
  _cleanFields_body P (name, f) s = Thrown e s' ->
  isValidationError e = false /\
  _errors s' = Some eo /\
  (field_clean s name f = Raise e \/
   exists m h t, method P m = Some h /\ h t = Raise e).
Proof.
  intros Herr Hcd.
  run_body name f s Herr Hcd.
  all: intros [= <- <-]; cbn; repeat split; auto.
  all: right; do 3 eexists; split; eassumption.
Qed.

Lemma body_normal P name f s eo cd :
  _errors s = Some eo -> cleanedData s = Some (VObj cd) ->
  (forall d, field_clean s name f <> Raise (Defect d)) ->
  (forall m h, method P m = Some h -> no_defect h) ->
  exists s', _cleanFields_body P (name, f) s = Normal tt s'.
Proof.
  intros Herr Hcd Hf Hm. unfold no_defect in Hm.
  run_body name f s Herr Hcd.
  all: try (eexists; reflexivity).
  all: try (exfalso; eapply Hf; reflexivity).
  all: exfalso; eapply Hm; eassumption.
Qed.

Lemma cleanFields_loop P l : forall s eo cd,
  _errors s = Some eo -> cleanedData s = Some (VObj cd) -> NoDup (map fst l) ->
  let r := for_each (_cleanFields_body P) l s in
  config (state_of r) = config s /\
  _changedData (state_of r) = _changedData s /\
  exists eo' cd',
    _errors (state_of r) = Some eo' /\
    cleanedData (state_of r) = Some (VObj cd') /\
    (forall k, ~ In k (map fst l) ->
       Obj.get eo' k = Obj.get eo k /\ Obj.get cd' k = Obj.get cd k) /\
    (forall name f d, In (name, f) l ->
       field_clean s name f = Raise (Defect d) ->
       (exists e s', r = Thrown e s') /\ Obj.get eo' name = Obj.get eo name) /\
    match r with
    | Normal _ s' =>
        field_cleans (trace s') = field_cleans (trace s) ++ map fst l /\
        forall name f msgs, In (name, f) l ->
          field_clean s name f = Raise (ValidationError msgs) ->
          Obj.get eo' name = Some msgs /\
          (Obj.get cd name = None -> Obj.get cd' name = None)
    | Thrown e s' =>
        isValidationError e = false /\
        exists name f, In (name, f) l /\
          (field_clean s name f = Raise e \/
           exists m h t, method P m = Some h /\ h t = Raise e)
    end.
Proof.
  induction l as [|[n f] l IH]; intros s eo cd Herr Hcd Hnd.
  - cbn. repeat split; auto. exists eo, cd. repeat split; auto; try contradiction.
    now rewrite app_nil_r.
  - cbn [for_each map fst]. unfold bind.
    inversion Hnd as [|? ? Hnotin Hnd']; subst.
    destruct (body_summary P n f s eo cd Herr Hcd)
      as (Hc1 & Hch1 & Htr1 & eo1 & cd1 & He1 & Hcd1 & Hfr1).
    destruct (_cleanFields_body P (n, f) s) as [[] s1|e s1] eqn:Hb; cbn in Hc1, Hch1, Htr1, He1, Hcd1.
    + specialize (IH s1 eo1 cd1 He1 Hcd1 Hnd').
      cbv zeta in IH.
      destruct IH as (Hc & Hch & eo' & cd' & He' & Hcd' & Hfr & Hdef & Hres).
      split; [congruence|]. split; [congruence|].
      exists eo', cd'. split; [assumption|]. split; [assumption|].
      assert (Htail : forall name g, In (name, g) l -> name <> n).
      { intros name g Hin ->. apply Hnotin. apply (in_map fst) in Hin. exact Hin. }
      split; [|split].
      * intros k Hk. cbn in Hk.
        destruct (Hfr k) as [A B]; [tauto|].
        destruct (Hfr1 k) as [A1 B1]; [intros ->; tauto|].
        split; congruence.
      * intros name g d [Hin|Hin] Hfc.
        -- inversion Hin; subst. rewrite (body_defect _ _ _ _ _ Hfc) in Hb. discriminate.
        -- rewrite <- (field_clean_config s1 s name g Hc1) in Hfc.
           destruct (Hdef name g d Hin Hfc) as [Hthrown Hget].
           split; [assumption|].
           destruct (Hfr1 name (Htail _ _ Hin)) as [A1 _]. congruence.
      * destruct (for_each (_cleanFields_body P) l s1) as [[] s2|e s2] eqn:Hloop.
        -- destruct Hres as [Htr Hve]. split.
           ++ rewrite Htr, Htr1, <- app_assoc. reflexivity.
           ++ intros name g msgs [Hin|Hin] Hfc.
              ** inversion Hin; subst.
                 destruct (body_validation_error P name g s eo cd msgs Herr Hcd Hfc)
                   as (s1' & cd1' & Hb' & He1' & Hcd1' & Hnone).
                 rewrite Hb in Hb'. injection Hb' as <-.
                 destruct (Hfr name Hnotin) as [A B].
                 split.
                 --- rewrite A. rewrite He1 in He1'. injection He1' as ->.
                     apply get_set_same.
                 --- intros Hcdn. rewrite B.
                     rewrite Hcd1 in Hcd1'. injection Hcd1' as ->. auto.
              ** rewrite <- (field_clean_config s1 s name g Hc1) in Hfc.
                 destruct (Hve name g msgs Hin Hfc) as [A B].
                 split; [assumption|].
                 destruct (Hfr1 name (Htail _ _ Hin)) as [_ B1].
                 intros Hcdn. apply B. congruence.
        -- destruct Hres as [Hv (name & g & Hin & Hsrc)]. split; [assumption|].
           exists name, g. split; [now right|].
           rewrite (field_clean_config s1 s name g Hc1) in Hsrc. exact Hsrc.
    + destruct (body_thrown P n f s eo cd e s1 Herr Hcd Hb) as (Hv & He & Hsrc).
      cbn. split; [assumption|]. split; [assumption|].
      exists eo1, cd1. split; [assumption|]. split; [assumption|].
      split; [|split; [|split]].
      * intros k Hk. apply Hfr1. intros ->. apply Hk. now left.
      * intros name g d [Hin|Hin] Hfc.
        -- inversion Hin; subst. split; [eauto|]. congruence.
        -- split; [eauto|]. apply Hfr1. intros ->. apply Hnotin.
           apply (in_map fst) in Hin. exact Hin.
      * assumption.
      * exists n, f. split; [now left|assumption].
Qed.

(** The loop keeps a report and an object of cleaned data in place, whatever
    the fields are called, and lets nothing but a defect out. *)
Lemma cleanFields_loop_slots P l : forall s eo cd,
  _errors s = Some eo -> cleanedData s = Some (VObj cd) ->
  let r := for_each (_cleanFields_body P) l s in
  config (state_of r) = config s /\
  _changedData (state_of r) = _changedData s /\
  (exists eo' cd',
     _errors (state_of r) = Some eo' /\ cleanedData (state_of r) = Some (VObj cd')) /\
  forall e s', r = Thrown e s' ->
    isValidationError e = false /\
    exists name f, In (name, f) l /\
      (field_clean s name f = Raise e \/
       exists m h t, method P m = Some h /\ h t = Raise e).
Proof.
  induction l as [|[n f] l IH]; intros s eo cd Herr Hcd.
  - cbn. split; [reflexivity|]. split; [reflexivity|].
    split; [exists eo, cd; now split|discriminate].
  - cbn [for_each]. unfold bind.
    destruct (body_summary P n f s eo cd Herr Hcd)
      as (Hc1 & Hch1 & _ & eo1 & cd1 & He1 & Hcd1 & _).
    destruct (_cleanFields_body P (n, f) s) as [[] s1|e s1] eqn:Hb;
      cbn in Hc1, Hch1, He1, Hcd1.
    + destruct (IH s1 eo1 cd1 He1 Hcd1) as (Hc & Hch & Hslots & Hthrown).
      split; [congruence|]. split; [congruence|]. split; [assumption|].
      intros e s' Hr. destruct (Hthrown e s' Hr) as (Hv & name & g & Hin & Hsrc).
      split; [assumption|]. exists name, g. split; [now right|].
      now rewrite (field_clean_config s1 s name g Hc1) in Hsrc.
    + destruct (body_thrown P n f s eo cd e s1 Herr Hcd Hb) as (Hv & He & Hsrc).
      cbn. split; [assumption|]. split; [assumption|].
      split; [exists eo1, cd1; now split|].
      intros e' s' [= <- <-]. split; [assumption|].
      exists n, f. split; [now left|assumption].
Qed.

Lemma set_set {V : Type} (o : Obj.t V) k v w :
  Obj.set (Obj.set o k v) k w = Obj.set o k w.
Proof.
  induction o as [|[k' v'] o IH]; cbn.
  - now rewrite String.eqb_refl.
  - destruct (String.eqb k' k) eqn:E; cbn; rewrite E; [reflexivity|now rewrite IH].
Qed.

(** One turn of the loop for a field whose [clean] returns and that has a
    hook, by what the hook answers. *)
Lemma body_hooked P name f s eo cd v m h :
  _errors s = Some eo -> cleanedData s = Some (VObj cd) ->
  field_clean s name f = Return v ->
  field_hook P name = Some (m, h) ->
  let seen := record (CalledMethod m)
                (set_cleanedData (Some (VObj (Obj.set cd name v)))
                   (record (CalledFieldClean name) s)) in
  match h seen with
  | Return w =>
      exists s',
        _cleanFields_body P (name, f) s = Normal tt s' /\
        _errors s' = Some eo /\
        cleanedData s' = Some (VObj (Obj.set cd name w))
  | Raise (ValidationError msgs) =>
      exists s',
        _cleanFields_body P (name, f) s = Normal tt s' /\
        _errors s' = Some (ErrorObject.set eo name msgs) /\
        cleanedData s' =
          Some (VObj (if isDefined v then Obj.delete (Obj.set cd name v) name
                      else Obj.set cd name v))
  | Raise (Defect d) =>
      _cleanFields_body P (name, f) s = Thrown (Defect d) seen
  end.
Proof.
  intros Herr Hcd Hfc Hhook seen.
  assert (Hstart :
    _cleanFields_body P (name, f) s =
    try_catch
      (assign_cleaned name v ;;
       match field_hook P name with
       | Some (m, hook) => w <- invoke m hook ;; assign_cleaned name w
       | None => ret tt
       end)
      (_cleanFields_catch name) (record (CalledFieldClean name) s)).
  { unfold _cleanFields_body, try_catch, bind at 1 2 3, modify, get_this.
    change (field_clean (record (CalledFieldClean name) s) name f)
      with (field_clean s name f).
    rewrite Hfc. unfold field_hook.
    destruct (method P (clean_underscore name));
      [reflexivity|destruct (method P (clean_camel name)); reflexivity]. }
  rewrite Hstart, Hhook. clear Hstart.
  assert (Hseen : assign_cleaned name v (record (CalledFieldClean name) s) =
                  Normal tt (set_cleanedData (Some (VObj (Obj.set cd name v)))
                               (record (CalledFieldClean name) s))).
  { unfold assign_cleaned. cbn [cleanedData record]. now rewrite Hcd. }
  cbv beta iota delta [try_catch bind invoke modify get_this lift].
  rewrite Hseen. fold seen.
  destruct (h seen) as [w|[msgs|d]].
  - eexists. split; [reflexivity|]. subst seen. cbn.
    split; [exact Herr|]. now rewrite set_set.
  - unfold _cleanFields_catch, record_error, discard_cleaned, bind.
    subst seen. cbn. rewrite Herr. cbn. rewrite get_set_same.
    destruct (isDefined v); eexists; (split; [reflexivity|]); cbn; split; reflexivity.
  - reflexivity.
Qed.

(** What the loop leaves under the names it does not visit. *)
Lemma cleanFields_loop_frame P l : forall s eo cd,
  _errors s = Some eo -> cleanedData s = Some (VObj cd) ->
  let r := for_each (_cleanFields_body P) l s in
  exists eo' cd',
    _errors (state_of r) = Some eo' /\
    cleanedData (state_of r) = Some (VObj cd') /\
    forall k, ~ In k (map fst l) ->
      Obj.get eo' k = Obj.get eo k /\ Obj.get cd' k = Obj.get cd k.
Proof.
  induction l as [|[n f] l IH]; intros s eo cd Herr Hcd.
  - exists eo, cd. cbn. auto.
  - cbn [for_each map fst]. unfold bind.
    destruct (body_summary P n f s eo cd Herr Hcd)
      as (_ & _ & _ & eo1 & cd1 & He1 & Hcd1 & Hfr1).
    destruct (_cleanFields_body P (n, f) s) as [[] s1|e s1]; cbn in He1, Hcd1.
    + destruct (IH s1 eo1 cd1 He1 Hcd1) as (eo' & cd' & He' & Hcd' & Hfr).
      exists eo', cd'. split; [exact He'|]. split; [exact Hcd'|].
      intros k Hk. cbn in Hk.
      destruct (Hfr k) as [A B]; [tauto|].
      destruct (Hfr1 k) as [A1 B1]; [intros ->; tauto|].
      split; congruence.
    + exists eo1, cd1. cbn. split; [exact He1|]. split; [exact Hcd1|].
      intros k Hk. apply Hfr1. intros ->. apply Hk. now left.
Qed.

(** When the loop returns, a field whose [clean] returned and that has a
    hook is left as the hook's answer has it: there is the instance the hook
    was called on (the field's cleaned value stored in it), and according to
    what the hook answered there the field's entry is the hook's result, or
    the error is in the report and the entry deleted, unless the value
    stored was [undefined]. *)
Lemma cleanFields_loop_hooked P l : forall s eo cd s',
  _errors s = Some eo -> cleanedData s = Some (VObj cd) ->
  NoDup (map fst l) ->
  for_each (_cleanFields_body P) l s = Normal tt s' ->
  forall name f v m h,
    In (name, f) l -> field_clean s name f = Return v ->
    field_hook P name = Some (m, h) ->
    exists seen cds eo' cd',
      config seen = config s /\
      cleanedData seen = Some (VObj cds) /\ Obj.get cds name = Some v /\
      _errors s' = Some eo' /\ cleanedData s' = Some (VObj cd') /\
      match h seen with
      | Return w =>
          Obj.get eo' name = Obj.get eo name /\ Obj.get cd' name = Some w
      | Raise (ValidationError msgs) =>
          Obj.get eo' name = Some msgs /\
          Obj.get cd' name = if isDefined v then None else Some VUndefined
      | Raise (Defect _) => False
      end.
Proof.
  induction l as [|[n f] l IH];
    intros s eo cd s' Herr Hcd Hnd Hrun name g v m h Hin Hfc Hhook.
  - destruct Hin.
  - inversion Hnd as [|? ? Hnotin Hnd']; subst.
    cbn [for_each] in Hrun. unfold bind in Hrun.
    destruct Hin as [Hin|Hin].
    + inversion Hin; subst. clear Hin.
      pose proof (body_hooked P name g s eo cd v m h Herr Hcd Hfc Hhook) as Hbody.
      cbv zeta in Hbody.
      set (seen := record (CalledMethod m)
                     (set_cleanedData (Some (VObj (Obj.set cd name v)))
                        (record (CalledFieldClean name) s))) in *.
      exists seen, (Obj.set cd name v).
      destruct (h seen) as [w|[msgs|d]].
      * destruct Hbody as (s1 & Hb & He1 & Hcd1). rewrite Hb in Hrun.
        destruct (cleanFields_loop_frame P l s1 _ _ He1 Hcd1)
          as (eo' & cd' & He' & Hcd' & Hfr).
        rewrite Hrun in He', Hcd'. cbn in He', Hcd'.
        exists eo', cd'. split; [reflexivity|]. split; [reflexivity|].
        split; [apply get_set_same|]. split; [exact He'|]. split; [exact Hcd'|].
        destruct (Hfr name Hnotin) as [A B]. split; [exact A|].
        rewrite B. apply get_set_same.
      * destruct Hbody as (s1 & Hb & He1 & Hcd1). rewrite Hb in Hrun.
        destruct (cleanFields_loop_frame P l s1 _ _ He1 Hcd1)
          as (eo' & cd' & He' & Hcd' & Hfr).
        rewrite Hrun in He', Hcd'. cbn in He', Hcd'.
        exists eo', cd'. split; [reflexivity|]. split; [reflexivity|].
        split; [apply get_set_same|]. split; [exact He'|]. split; [exact Hcd'|].
        destruct (Hfr name Hnotin) as [A B]. split.
        -- rewrite A. apply get_set_same.
        -- rewrite B. destruct v; cbn [isDefined];
             first [apply get_delete_same|apply get_set_same].
      * rewrite Hbody in Hrun. discriminate.
    + destruct (body_summary P n f s eo cd Herr Hcd)
        as (Hc1 & _ & _ & eo1 & cd1 & He1 & Hcd1 & Hfr1).
      destruct (_cleanFields_body P (n, f) s) as [[] s1|e s1] eqn:Hb;
        [|discriminate].
      cbn in Hc1, He1, Hcd1.
      assert (Hne : name <> n).
      { intros ->. apply Hnotin. apply (in_map fst) in Hin. exact Hin. }
      rewrite <- (field_clean_config s1 s name g Hc1) in Hfc.
      destruct (IH s1 eo1 cd1 s' He1 Hcd1 Hnd' Hrun name g v m h Hin Hfc Hhook)
        as (seen & cds & eo' & cd' & Hc & Hcds & Hv & He' & Hcd' & Hcase).
      exists seen, cds, eo', cd'. split; [congruence|]. split; [exact Hcds|].
      split; [exact Hv|]. split; [exact He'|]. split; [exact Hcd'|].
      destruct (Hfr1 name Hne) as [A _].
      destruct (h seen) as [w|[msgs|d]]; [|exact Hcase|exact Hcase].
      destruct Hcase as [B C]. split; [congruence|exact C].
Qed.

(* ================================================================= *)
(** ** Per-field cleaning *)

(** C1.  [_cleanFields], run on an instance that has a report and a fresh
    [cleanedData] (as [fullClean] leaves them):
    - when it returns, [clean] has been called for every field, once and in
      declaration order; every field whose [clean] raised a
      [ValidationError] has its name as a key of the report, with the
      messages the error carried (non-empty when the error's are), and no
      entry in [cleanedData]; and for a field whose [clean] returned and
      whose hook then raised a [ValidationError], the messages are in the
      report under the field's name and the entry stored for the field is
      deleted again (it stays, holding [undefined], only when [undefined] is
      what the field's [clean] had returned);
    - what it throws is never a [ValidationError], and is what some field's
      [clean] or some method of the form raised;
    - when a field's [clean] raises anything else, [_cleanFields] throws and
      the report has nothing new under that field's name;
    - it returns whenever no field and no method raises a defect. *)
Theorem cleanFields_isolates_field_failures
  (P : Proto) (this : FormInstance) (eo : ErrorObject.t) :
  _errors this = Some eo ->
  cleanedData this = Some (VObj Obj.empty) ->
  Obj.wf (fields this) ->
  (forall this', _cleanFields P this = Normal tt this' ->
     field_cleans (trace this') =
       field_cleans (trace this) ++ Obj.keys (fields this) /\
     exists eo' cd',
       _errors this' = Some eo' /\
       cleanedData this' = Some (VObj cd') /\
       (forall name f msgs,
          Obj.get (fields this) name = Some f ->
          field_clean this name f = Raise (ValidationError msgs) ->
          exists l,
            ErrorObject.get eo' name = Some l /\ l = msgs /\
            (msgs <> [] -> l <> []) /\
            Obj.hasOwnProperty cd' name = false) /\
       (forall name f v m h,
          Obj.get (fields this) name = Some f ->
          ascii_initial name = true ->
          field_clean this name f = Return v ->
          field_hook P name = Some (m, h) ->
          exists seen cds,
            config seen = config this /\
            cleanedData seen = Some (VObj cds) /\
            Obj.get cds name = Some v /\
            match h seen with
            | Return w =>
                ErrorObject.get eo' name = ErrorObject.get eo name /\
                Obj.get cd' name = Some w
            | Raise (ValidationError msgs) =>
                ErrorObject.get eo' name = Some msgs /\
                Obj.get cd' name = if isDefined v then None else Some VUndefined
            | Raise (Defect _) => False
            end)) /\
  (forall e this', _cleanFields P this = Thrown e this' ->
     isValidationError e = false /\
     exists name f,
       Obj.get (fields this) name = Some f /\
       (field_clean this name f = Raise e \/
        exists m h t, method P m = Some h /\ h t = Raise e)) /\
  (forall name f d,
     Obj.get (fields this) name = Some f ->
     field_clean this name f = Raise (Defect d) ->
     exists e this' eo',
       _cleanFields P this = Thrown e this' /\
       isValidationError e = false /\
       _errors this' = Some eo' /\
       ErrorObject.get eo' name = ErrorObject.get eo name) /\
  (defect_free P this -> exists this', _cleanFields P this = Normal tt this').
Proof.
  intros Herr Hcd Hwf.
  pose proof (cleanFields_loop P (fields this) this eo Obj.empty Herr Hcd Hwf) as H.
  cbv zeta in H.
  change (for_each (_cleanFields_body P) (fields this) this)
    with (_cleanFields P this) in H.
  destruct H as (_ & _ & eo' & cd' & He' & Hcd' & _ & Hdef & Hres).
  split; [|split; [|split]].
  - intros this' Hrun. rewrite Hrun in Hres, He', Hcd'. cbn in He', Hcd'.
    destruct Hres as [Htr Hve]. split; [exact Htr|].
    exists eo', cd'. split; [exact He'|]. split; [exact Hcd'|]. split.
    + intros name f msgs Hget Hfc.
      destruct (Hve name f msgs (get_Some_In _ _ _ Hget) Hfc) as [A B].
      exists msgs. split; [exact A|]. split; [reflexivity|]. split; [auto|].
      unfold Obj.hasOwnProperty. now rewrite B.
    + intros name f v m h Hget _ Hfc Hhook.
      destruct (cleanFields_loop_hooked P (fields this) this eo Obj.empty this'
                  Herr Hcd Hwf Hrun name f v m h (get_Some_In _ _ _ Hget) Hfc Hhook)
        as (seen & cds & eo2 & cd2 & Hc & Hcds & Hv & He2 & Hcd2 & Hcase).
      rewrite He' in He2. injection He2 as <-.
      rewrite Hcd' in Hcd2. injection Hcd2 as <-.
      exists seen, cds. split; [exact Hc|]. split; [exact Hcds|].
      split; [exact Hv|exact Hcase].
  - intros e this' Hrun. rewrite Hrun in Hres.
    destruct Hres as (Hv & name & f & Hin & Hsrc). split; [exact Hv|].
    exists name, f. split; [now apply In_get_Some|exact Hsrc].
  - intros name f d Hget Hfc.
    destruct (Hdef name f d (get_Some_In _ _ _ Hget) Hfc) as [(e & s' & Hrun) A].
    rewrite Hrun in Hres, He'. cbn in He'.
    exists e, s', eo'. repeat split; auto. apply Hres.
  - intros [Hfields Hmethods].
    destruct (_cleanFields P this) as [[] s'|e s'] eqn:Hrun; [eauto|].
    destruct Hres as (Hv & name & f & Hin & Hsrc). exfalso.
    destruct e as [msgs|d]; [discriminate|].
    destruct Hsrc as [Hfc|(m & h & t & Hm & Hh)].
    + eapply Hfields; eassumption.
    + eapply Hmethods; eassumption.
Qed.

Lemma cleanFields_isolates_field_failures_witness :
  let this := fresh Sample.nameless_form in
  _errors this = Some ErrorObject.new /\
  cleanedData this = Some (VObj Obj.empty) /\
  Obj.wf (fields this) /\
  exists this' eo' cd',
    _cleanFields Sample.vetoing this = Normal tt this' /\
    field_cleans (trace this') = ["name"; "age"] /\
    _errors this' = Some eo' /\
    cleanedData this' = Some (VObj cd') /\
    ErrorObject.get eo' "name" = Some Sample.required_message /\
    Obj.hasOwnProperty cd' "name" = false /\
    field_clean this "age" (Sample.IntegerField false (VNum 0) 2) = Return (VNum 7) /\
    ErrorObject.get eo' "age" = Some ["Too young."] /\
    Obj.get cd' "age" = None.
Proof.
  intros this.
  assert (Hwf : Obj.wf (fields this)).
  { repeat constructor; cbn; intuition discriminate. }
  split; [reflexivity|]. split; [reflexivity|]. split; [exact Hwf|].
  destruct (cleanFields_isolates_field_failures Sample.vetoing this ErrorObject.new
              eq_refl eq_refl Hwf) as (Hnormal & _).
  assert (Hrun : _cleanFields Sample.vetoing this =
                 Normal tt (state_of (_cleanFields Sample.vetoing this)))
    by (vm_compute; reflexivity).
  destruct (Hnormal _ Hrun) as (Htr & eo' & cd' & He' & Hcd' & Hve & Hhook).
  eexists. exists eo', cd'. split; [exact Hrun|]. split; [exact Htr|].
  split; [exact He'|]. split; [exact Hcd'|].
  destruct (Hve "name" (Sample.CharField true 1) Sample.required_message
              eq_refl eq_refl) as (l & Hl & -> & _ & Hgone).
  split; [exact Hl|]. split; [exact Hgone|]. split; [reflexivity|].
  destruct (Hhook "age" (Sample.IntegerField false (VNum 0) 2) (VNum 7)
              "clean_age" (fun _ => Raise (ValidationError ["Too young."]))
              eq_refl eq_refl eq_refl eq_refl)
    as (seen & cds & _ & _ & _ & Hcase).
  exact Hcase.
Defined.

(* ================================================================= *)
(** ** The change detector *)

Lemma append_empty_r (s : string) : String.append s EmptyString = s.
Proof.
  induction s as [|c s IH]; cbn; [reflexivity|now rewrite IH].
Qed.

Lemma addPrefix_eq (this : FormInstance) (name : string) :
  addPrefix this name =
  match prefix this with
  | Some p => String.append p (String.append "-" name)
  | None => name
  end.
Proof.
  unfold addPrefix. destruct (prefix this) as [p|]; [|reflexivity].
  cbn. now rewrite append_empty_r.
Qed.

Lemma addInitialPrefix_eq (this : FormInstance) (name : string) :
  addInitialPrefix this name = String.append "initial-" (addPrefix this name).
Proof.
  unfold addInitialPrefix. cbn. now rewrite append_empty_r.
Qed.

Lemma field_changed_config a b name f :
  config a = config b -> field_changed a name f = field_changed b name f.
Proof.
  unfold config, field_changed, initial_for, addInitialPrefix, addPrefix. intros H.
  injection H as Hb Hd Hf Ha Hp Hi Hl He Hfs.
  now rewrite Hd, Hf, Hp, Hi.
Qed.

Lemma changedData_body_run name f s acc :
  _changedData s = Some acc ->
  exists s',
    changedData_body (name, f) s = Normal tt s' /\
    config s' = config s /\
    _errors s' = _errors s /\
    cleanedData s' = cleanedData s /\
    _changedData s' = Some (if field_changed s name f then acc ++ [name] else acc) /\
    trace s' = trace s ++ [CalledHasChanged name].
Proof.
  intros Hacc. unfold changedData_body, bind, get_this, modify, push_changed, ret.
  fold (field_changed s name f).
  destruct (field_changed s name f); cbn; rewrite ?Hacc;
    eexists; repeat split; eauto.
Qed.

Lemma changedData_loop l : forall s acc,
  _changedData s = Some acc ->
  exists s',
    for_each changedData_body l s = Normal tt s' /\
    config s' = config s /\
    _errors s' = _errors s /\
    cleanedData s' = cleanedData s /\
    _changedData s' =
      Some (acc ++ map fst (filter (fun e => field_changed s (fst e) (snd e)) l)) /\
    trace s' = trace s ++ map CalledHasChanged (map fst l).
Proof.
  induction l as [|[n f] l IH]; intros s acc Hacc.
  - exists s. cbn. rewrite !app_nil_r. repeat split; auto.
  - destruct (changedData_body_run n f s acc Hacc)
      as (s1 & Hrun & Hc1 & He1 & Hcd1 & Hch1 & Htr1).
    destruct (IH s1 _ Hch1) as (s' & Hloop & Hc & He & Hcd & Hch & Htr).
    exists s'. cbn [for_each]. unfold bind. rewrite Hrun.
    split; [exact Hloop|]. split; [congruence|]. split; [congruence|].
    split; [congruence|]. split.
    + rewrite Hch. f_equal. cbn [filter fst snd map].
      rewrite (filter_ext _ (fun e => field_changed s (fst e) (snd e)))
        by (intros [k g]; cbn; apply field_changed_config; exact Hc1).
      destruct (field_changed s n f); cbn; now rewrite <- ?app_assoc.
    + rewrite Htr, Htr1, <- app_assoc. reflexivity.
Qed.

(** The first call of [changedData] asks every field, in order, and stores
    the names of those that answer yes. *)
Lemma changedData_first s :
  _changedData s = None ->
  exists s',
    changedData s =
      Normal (map fst (filter (fun e => field_changed s (fst e) (snd e)) (fields s))) s' /\
    config s' = config s /\
    _errors s' = _errors s /\
    cleanedData s' = cleanedData s /\
    _changedData s' =
      Some (map fst (filter (fun e => field_changed s (fst e) (snd e)) (fields s))) /\
    trace s' = trace s ++ map CalledHasChanged (Obj.keys (fields s)).
Proof.
  intros Hnone. unfold changedData, bind, get_this, modify, ret. rewrite Hnone.
  destruct (changedData_loop (fields s) (set_changedData (Some []) s) [] eq_refl)
    as (s' & Hloop & Hc & He & Hcd & Hch & Htr).
  rewrite Hloop, Hch. cbn [app] in *.
  assert (Hf : filter (fun e => field_changed (set_changedData (Some []) s) (fst e) (snd e))
                 (fields s) =
               filter (fun e => field_changed s (fst e) (snd e)) (fields s)).
  { apply filter_ext. intros [k g]. apply field_changed_config. reflexivity. }
  rewrite Hf in *.
  exists s'. split; [reflexivity|]. split; [exact Hc|]. split; [exact He|].
  split; [exact Hcd|]. split; [exact Hch|exact Htr].
Qed.

Lemma changedData_memo s l :
  _changedData s = Some l -> changedData s = Normal l s.
Proof.
  intros H. unfold changedData, bind, get_this, ret. now rewrite H.
Qed.

(** [changedData] never throws, and touches nothing but its own cache and
    the trace. *)
Lemma changedData_frame s :
  exists l s',
    changedData s = Normal l s' /\
    config s' = config s /\
    _errors s' = _errors s /\
    cleanedData s' = cleanedData s /\
    _changedData s' = Some l /\
    field_cleans (trace s') = field_cleans (trace s) /\
    method_calls (trace s') = method_calls (trace s).
Proof.
  assert (Hfc : forall l, field_cleans (map CalledHasChanged l) = [])
    by (induction l; cbn; auto).
  assert (Hmc : forall l, method_calls (map CalledHasChanged l) = [])
    by (induction l; cbn; auto).
  destruct (_changedData s) as [l|] eqn:Hch.
  - exists l, s. rewrite (changedData_memo s l Hch). repeat split; auto.
  - destruct (changedData_first s Hch) as (s' & Hrun & Hc & He & Hcd & Hch' & Htr).
    eexists. exists s'. split; [exact Hrun|]. repeat split; auto.
    + rewrite Htr, field_cleans_app, Hfc. apply app_nil_r.
    + rewrite Htr, method_calls_app, Hmc. apply app_nil_r.
Qed.

Lemma changed_names_spec_eq s :
  changed_names_spec s =
  map fst (filter (fun e => field_changed s (fst e) (snd e)) (fields s)).
Proof.
  unfold changed_names_spec. f_equal. apply filter_ext. intros [name f].
  unfold field_changed, initial_for, getDefault. cbn [fst snd].
  now rewrite addInitialPrefix_eq.
Qed.

(* ================================================================= *)
(** ** Form-wide cleaning and [fullClean] *)

(** What [_cleanForm] does, by what the form-wide hook answers. *)
Lemma cleanForm_cases P s eo :
  _errors s = Some eo ->
  match clean P (record (CalledMethod "clean") s) with
  | Return v =>
      _cleanForm P s =
      Normal tt (set_cleanedData (Some v) (record (CalledMethod "clean") s))
  | Raise (ValidationError msgs) =>
      _cleanForm P s =
      Normal tt (set_errors (Some (ErrorObject.set eo NON_FIELD_ERRORS msgs))
                            (record (CalledMethod "clean") s))
  | Raise (Defect d) =>
      _cleanForm P s = Thrown (Defect d) (record (CalledMethod "clean") s)
  end.
Proof.
  intros Herr. unfold _cleanForm. autounfold with method_ops.
  destruct (clean P (record (CalledMethod "clean") s)) as [v|[msgs|d]]; cbn;
    rewrite ?Herr; reflexivity.
Qed.

Lemma postClean_cases P s :
  match _postClean P (record (CalledMethod "_postClean") s) with
  | Return v =>
      invoke "_postClean" (_postClean P) s =
      Normal v (record (CalledMethod "_postClean") s)
  | Raise e =>
      invoke "_postClean" (_postClean P) s =
      Thrown e (record (CalledMethod "_postClean") s)
  end.
Proof.
  autounfold with method_ops.
  destruct (_postClean P (record (CalledMethod "_postClean") s)); reflexivity.
Qed.

Lemma fullClean_steps_unfold P s :
  fullClean_steps P s =
  match _cleanFields P s with
  | Normal _ s1 =>
      match _cleanForm P s1 with
      | Normal _ s2 =>
          match invoke "_postClean" (_postClean P) s2 with
          | Normal _ s3 => drop_cleaned_if_errors s3
          | Thrown e t => Thrown e t
          end
      | Thrown e t => Thrown e t
      end
  | Thrown e t => Thrown e t
  end.
Proof. reflexivity. Qed.

Lemma isPopulated_set eo name l :
  ErrorObject.isPopulated (ErrorObject.set eo name l) = true.
Proof.
  unfold ErrorObject.set. destruct eo as [|[k l'] eo]; cbn; [reflexivity|].
  destruct (String.eqb k name); reflexivity.
Qed.

(** The steps after the short circuit, started with a report and an object
    of cleaned data: they keep a report in place, and when they return,
    [cleanedData] is there exactly when the report has no key. *)
Lemma fullClean_steps_summary P s eo cd :
  _errors s = Some eo -> cleanedData s = Some (VObj cd) ->
  let r := fullClean_steps P s in
  config (state_of r) = config s /\
  _changedData (state_of r) = _changedData s /\
  exists eo',
    _errors (state_of r) = Some eo' /\
    match r with
    | Normal _ s' => isSome (cleanedData s') = negb (ErrorObject.isPopulated eo')
    | Thrown _ _ => True
    end.
Proof.
  intros Herr Hcd r. subst r. rewrite fullClean_steps_unfold.
  destruct (cleanFields_loop_slots P (fields s) s eo cd Herr Hcd)
    as (Hc1 & Hch1 & (eo1 & cd1 & He1 & Hcd1) & _).
  change (for_each (_cleanFields_body P) (fields s) s) with (_cleanFields P s) in *.
  destruct (_cleanFields P s) as [[] s1|e s1]; cbn in Hc1, Hch1, He1, Hcd1.
  2: { cbn. split; [exact Hc1|]. split; [exact Hch1|]. exists eo1. now split. }
  pose proof (cleanForm_cases P s1 eo1 He1) as Hform.
  pose proof (postClean_cases P) as Hpost.
  destruct (clean P (record (CalledMethod "clean") s1)) as [v|[msgs|d]];
    rewrite Hform.
  3: { cbn. split; [exact Hc1|]. split; [exact Hch1|]. exists eo1. now split. }
  all: match goal with
    | |- context [invoke "_postClean" _ ?s2] =>
        specialize (Hpost s2);
        destruct (_postClean P (record (CalledMethod "_postClean") s2));
        rewrite Hpost
    end.
  all: unfold drop_cleaned_if_errors; autounfold with method_ops; cbn;
    rewrite ?He1, ?Hcd1; cbn.
  all: try (split; [exact Hc1|]; split; [exact Hch1|]; eexists; split;
            [reflexivity|exact I]).
  - destruct (ErrorObject.isPopulated eo1) eqn:Hpop; cbn;
      (split; [exact Hc1|]; split; [exact Hch1|]; exists eo1; split;
       [assumption|]); now rewrite Hpop.
  - rewrite isPopulated_set. cbn.
    split; [exact Hc1|]. split; [exact Hch1|].
    eexists. split; [reflexivity|]. now rewrite isPopulated_set.
Qed.

Lemma hasChanged_frame s :
  exists l s',
    hasChanged s = Normal (0 <? List.length l)%nat s' /\
    changedData s = Normal l s' /\
    config s' = config s /\
    _errors s' = _errors s /\
    cleanedData s' = cleanedData s /\
    _changedData s' = Some l /\
    field_cleans (trace s') = field_cleans (trace s) /\
    method_calls (trace s') = method_calls (trace s).
Proof.
  destruct (changedData_frame s) as (l & s' & Hrun & H).
  exists l, s'. split; [|split; [exact Hrun|exact H]].
  unfold hasChanged, bind, ret. now rewrite Hrun.
Qed.

Lemma fullClean_unbound P this :
  isBound this = false ->
  fullClean P this = Normal tt (set_errors (Some ErrorObject.new) this).
Proof.
  intros Hb. unfold fullClean, bind, modify, get_this, ret. cbn. now rewrite Hb.
Qed.

(** [fullClean] of a bound instance, by whether it gets to clean the
    fields. *)
Lemma fullClean_bound P this :
  isBound this = true ->
  match cleaning_starts this with
  | Some s0 =>
      fullClean P this = fullClean_steps P s0 /\
      _errors s0 = Some ErrorObject.new /\
      cleanedData s0 = Some (VObj Obj.empty) /\
      config s0 = config this /\
      field_cleans (trace s0) = field_cleans (trace this) /\
      method_calls (trace s0) = method_calls (trace this) /\
      (forall l, _changedData this = Some l -> _changedData s0 = Some l)
  | None =>
      emptyPermitted this = true /\
      exists s',
        hasChanged (fresh this) = Normal false s' /\
        fullClean P this = Normal tt s' /\
        _errors s' = Some ErrorObject.new /\
        cleanedData s' = Some (VObj Obj.empty) /\
        config s' = config this /\
        field_cleans (trace s') = field_cleans (trace this) /\
        method_calls (trace s') = method_calls (trace this) /\
        (forall l, _changedData this = Some l -> _changedData s' = Some l)
  end.
Proof.
  intros Hb. unfold cleaning_starts, fullClean, bind, modify, get_this, ret. cbn.
  rewrite Hb. cbn. fold (fresh this).
  destruct (emptyPermitted this) eqn:Hep.
  - destruct (hasChanged_frame (fresh this))
      as (l & s' & Hrun & Hcd' & Hc & He & Hcd & Hch & Hfc & Hmc).
    assert (Hkeep : forall l0, _changedData this = Some l0 -> _changedData s' = Some l0).
    { intros l0 Hl0.
      rewrite (changedData_memo (fresh this) l0 Hl0) in Hcd'.
      injection Hcd' as <- <-. exact Hl0. }
    rewrite Hrun. destruct (0 <? List.length l)%nat; cbn.
    + repeat split; assumption.
    + split; [reflexivity|]. exists s'. repeat split; assumption.
  - repeat split. intros l Hl. exact Hl.
Qed.

Lemma fullClean_steps_returns P s eo cd :
  _errors s = Some eo -> cleanedData s = Some (VObj cd) ->
  defect_free P s -> returns (_postClean P) ->
  exists s', fullClean_steps P s = Normal tt s'.
Proof.
  intros Herr Hcd [Hfields Hmethods] Hpost.
  pose proof (fullClean_steps_summary P s eo cd Herr Hcd) as Hsum.
  cbv zeta in Hsum. destruct Hsum as (_ & _ & eo' & He' & _).
  rewrite fullClean_steps_unfold in *.
  destruct (cleanFields_loop_slots P (fields s) s eo cd Herr Hcd)
    as (_ & _ & (eo1 & cd1 & He1 & _) & Hthrown).
  change (for_each (_cleanFields_body P) (fields s) s) with (_cleanFields P s) in *.
  destruct (_cleanFields P s) as [[] s1|e s1]; cbn in He1.
  2: { exfalso. destruct (Hthrown e s1 eq_refl) as (Hv & name & f & Hin & Hsrc).
       destruct e as [msgs|d]; [discriminate|].
       destruct Hsrc as [Hfc|(m & h & t & Hm & Hh)].
       - eapply Hfields; eassumption.
       - eapply Hmethods; eassumption. }
  pose proof (cleanForm_cases P s1 eo1 He1) as Hform.
  assert (Hclean : no_defect (clean P)) by (apply (Hmethods "clean"); reflexivity).
  destruct (clean P (record (CalledMethod "clean") s1)) as [v|[msgs|d]] eqn:Hc;
    [| |exfalso; eapply Hclean; eassumption].
  all: rewrite Hform in *.
  all: match goal with
    | |- context [invoke "_postClean" _ ?s2] =>
        pose proof (postClean_cases P s2) as Hp;
        destruct (Hpost (record (CalledMethod "_postClean") s2)) as [w Hw];
        rewrite Hw in Hp; rewrite Hp in *
    end.
  all: destruct (drop_cleaned_if_errors _) as [[] s'|e s'] eqn:Hdrop; [eauto|].
  all: exfalso; revert Hdrop; unfold drop_cleaned_if_errors;
    autounfold with method_ops; cbn; rewrite ?He1; cbn;
    rewrite ?isPopulated_set; try destruct (ErrorObject.isPopulated eo1);
    discriminate.
Qed.

(* ================================================================= *)
(** ** The contract of [fullClean] *)

(** C4.  For a bound instance, when [fullClean] has run, the instance has
    the [cleanedData] property exactly when the report has no key; with a
    key in the report the property is gone.  And [fullClean] does run to its
    end whenever no field and no method raises a defect and [_postClean]
    returns. *)
Theorem cleanedData_present_iff_report_empty (P : Proto) (this : FormInstance) :
  isBound this = true ->
  (forall this', fullClean P this = Normal tt this' ->
     exists eo,
       _errors this' = Some eo /\
       (isSome (cleanedData this') = true <-> ErrorObject.isPopulated eo = false) /\
       (ErrorObject.isPopulated eo = true -> cleanedData this' = None) /\
       (eo = [] -> exists v, cleanedData this' = Some v)) /\
  (defect_free P this -> returns (_postClean P) ->
   exists this', fullClean P this = Normal tt this').
Proof.
  intros Hb. pose proof (fullClean_bound P this Hb) as H.
  destruct (cleaning_starts this) as [s0|].
  - destruct H as (Hrun & He0 & Hcd0 & Hc0 & _). rewrite Hrun. split.
    + intros this' Hsteps.
      pose proof (fullClean_steps_summary P s0 _ _ He0 Hcd0) as Hsum.
      cbv zeta in Hsum. rewrite Hsteps in Hsum. cbn in Hsum.
      destruct Hsum as (_ & _ & eo & He & Hiff). exists eo.
      split; [exact He|].
      destruct (cleanedData this') as [v|], (ErrorObject.isPopulated eo) eqn:Hpop;
        cbn in Hiff; try discriminate.
      * repeat split; eauto; discriminate.
      * repeat split; auto; try discriminate. intros ->. discriminate Hpop.
    + intros [Hfields Hmethods] Hpost.
      apply (fullClean_steps_returns P s0 _ _ He0 Hcd0); [|exact Hpost].
      split; [|exact Hmethods].
      intros name f d Hin.
      rewrite (field_clean_config s0 this name f Hc0).
      apply Hfields. unfold config in Hc0. injection Hc0 as _ _ _ _ _ _ _ _ Hf.
      now rewrite <- Hf.
  - destruct H as (_ & s' & _ & Hrun & He & Hcd & _). rewrite Hrun. split.
    + intros this' [= <-]. exists ErrorObject.new. split; [exact He|].
      rewrite Hcd. cbn. repeat split; eauto; discriminate.
    + eauto.
Qed.

Lemma cleanedData_present_iff_report_empty_witness :
  isBound Sample.nameless_form = true /\
  exists this' eo,
    fullClean BaseForm_prototype Sample.nameless_form = Normal tt this' /\
    _errors this' = Some eo /\
    ErrorObject.isPopulated eo = true /\
    cleanedData this' = None.
Proof.
  split; [reflexivity|].
  destruct (cleanedData_present_iff_report_empty BaseForm_prototype
              Sample.nameless_form eq_refl) as [Hrun _].
  assert (Hnormal : fullClean BaseForm_prototype Sample.nameless_form =
                    Normal tt (state_of (fullClean BaseForm_prototype
                                           Sample.nameless_form)))
    by (vm_compute; reflexivity).
  destruct (Hrun _ Hnormal) as (eo & He & _ & Hpop & _).
  eexists. exists eo. split; [exact Hnormal|]. split; [exact He|].
  assert (Hp : ErrorObject.isPopulated eo = true).
  { vm_compute in He. injection He as <-. reflexivity. }
  split; [exact Hp|]. exact (Hpop Hp).
Defined.

(** C3.  In [fullClean] of a bound instance that gets past the short
    circuit and whose fields have been cleaned:
    - when the form-wide [clean] raises a [ValidationError], [fullClean]
      returns; the report is the one the fields left, with the error's
      messages under ["__all__"] and every other key as it was; and the
      [cleanedData] that was there when the hook was called is gone;
    - when [clean] raises anything else, [fullClean] throws it, and the
      report is the one the fields left. *)
Theorem cleanForm_error_goes_under_all
  (P : Proto) (this s0 s1 : FormInstance) :
  isBound this = true ->
  cleaning_starts this = Some s0 ->
  _cleanFields P s0 = Normal tt s1 ->
  (forall msgs,
     clean P (record (CalledMethod "clean") s1) = Raise (ValidationError msgs) ->
     returns (_postClean P) ->
     exists this' eo1 eo',
       fullClean P this = Normal tt this' /\
       _errors s1 = Some eo1 /\
       isSome (cleanedData s1) = true /\
       _errors this' = Some eo' /\
       eo' = ErrorObject.set eo1 "__all__" msgs /\
       ErrorObject.get eo' "__all__" = Some msgs /\
       (forall k, k <> "__all__" -> ErrorObject.get eo' k = ErrorObject.get eo1 k) /\
       cleanedData this' = None) /\
  (forall d,
     clean P (record (CalledMethod "clean") s1) = Raise (Defect d) ->
     exists this',
       fullClean P this = Thrown (Defect d) this' /\
       _errors this' = _errors s1).
Proof.
  intros Hb Hstart Hfields.
  pose proof (fullClean_bound P this Hb) as H. rewrite Hstart in H.
  destruct H as (Hrun & He0 & Hcd0 & _). rewrite Hrun, fullClean_steps_unfold, Hfields.
  destruct (cleanFields_loop_slots P (fields s0) s0 _ _ He0 Hcd0)
    as (_ & _ & (eo1 & cd1 & He1 & Hcd1) & _).
  change (for_each (_cleanFields_body P) (fields s0) s0) with (_cleanFields P s0) in *.
  rewrite Hfields in He1, Hcd1. cbn in He1, Hcd1.
  pose proof (cleanForm_cases P s1 eo1 He1) as Hform.
  split.
  - intros msgs Hclean Hpost. rewrite Hclean in Hform. rewrite Hform.
    match goal with
    | |- context [invoke "_postClean" _ ?s2] =>
        pose proof (postClean_cases P s2) as Hp;
        destruct (Hpost (record (CalledMethod "_postClean") s2)) as [w Hw];
        rewrite Hw in Hp; rewrite Hp
    end.
    unfold drop_cleaned_if_errors. autounfold with method_ops. cbn.
    rewrite isPopulated_set.
    eexists. exists eo1. eexists. split; [reflexivity|]. cbn.
    split; [exact He1|]. split; [now rewrite Hcd1|]. split; [reflexivity|].
    split; [reflexivity|]. split; [apply get_set_same|]. split; [|reflexivity].
    intros k Hk. apply get_set_other. intros Heq. apply Hk. symmetry. exact Heq.
  - intros d Hclean. rewrite Hclean in Hform. rewrite Hform.
    eexists. split; [reflexivity|]. reflexivity.
Qed.

Lemma cleanForm_error_goes_under_all_witness :
  isBound Sample.ada_form = true /\
  cleaning_starts Sample.ada_form = Some (fresh Sample.ada_form) /\
  exists s1 this',
    _cleanFields Sample.rejecting (fresh Sample.ada_form) = Normal tt s1 /\
    fullClean Sample.rejecting Sample.ada_form = Normal tt this' /\
    _errors this' = Some [("__all__", ["Rejected."])] /\
    cleanedData this' = None.
Proof.
  split; [reflexivity|]. split; [reflexivity|].
  assert (Hfields : _cleanFields Sample.rejecting (fresh Sample.ada_form) =
                    Normal tt (state_of (_cleanFields Sample.rejecting
                                           (fresh Sample.ada_form))))
    by (vm_compute; reflexivity).
  destruct (cleanForm_error_goes_under_all Sample.rejecting Sample.ada_form
              _ _ eq_refl eq_refl Hfields) as [Hve _].
  destruct (Hve ["Rejected."] eq_refl) as
      (this' & eo1 & eo' & Hrun & He1 & _ & He' & Heq & _ & _ & Hcd).
  { intros s. exists VUndefined. reflexivity. }
  eexists. exists this'. split; [exact Hfields|]. split; [exact Hrun|].
  split; [|exact Hcd].
  rewrite He', Heq. vm_compute in He1. injection He1 as <-. reflexivity.
Defined.

(** What [changedData] returns depends on the instance only through what
    the constructor stored and its own cache. *)
Lemma changedData_result_config a b l sa :
  config a = config b -> _changedData a = _changedData b ->
  changedData a = Normal l sa ->
  exists sb, changedData b = Normal l sb.
Proof.
  intros Hc Hch Hrun. destruct (_changedData a) as [l0|] eqn:Ha.
  - rewrite (changedData_memo a l0 Ha) in Hrun. injection Hrun as <- <-.
    exists b. apply changedData_memo. now symmetry.
  - destruct (changedData_first a Ha) as (sa' & Hra & _).
    destruct (changedData_first b (eq_sym Hch)) as (sb & Hrb & _).
    exists sb. rewrite Hrb. rewrite Hra in Hrun. injection Hrun as <- <-.
    f_equal. f_equal.
    assert (Hf : fields a = fields b).
    { unfold config in Hc. now injection Hc. }
    rewrite Hf. apply filter_ext. intros [k g]. cbn.
    apply field_changed_config. now symmetry.
Qed.

(** C5.  A bound instance that may be empty and for which [changedData]
    reports no changed field: [fullClean] returns with [cleanedData] the
    empty object and an empty report, having called no field's [clean] and
    no method of the form, whatever the fields' [clean] would answer; and
    [isValid], on an instance not validated before, returns [true]. *)
Theorem emptyPermitted_short_circuit (P : Proto) (this : FormInstance) :
  isBound this = true ->
  emptyPermitted this = true ->
  (exists s, changedData this = Normal [] s) ->
  exists this',
    fullClean P this = Normal tt this' /\
    cleanedData this' = Some (VObj Obj.empty) /\
    _errors this' = Some ErrorObject.new /\
    field_cleans (trace this') = field_cleans (trace this) /\
    method_calls (trace this') = method_calls (trace this) /\
    (_errors this = None -> isValid P this = Normal true this').
Proof.
  intros Hb Hep [s Hnone].
  pose proof (fullClean_bound P this Hb) as H.
  unfold cleaning_starts in H. rewrite Hb, Hep in H. cbn [negb] in H.
  destruct (hasChanged_frame (fresh this)) as (l & s' & Hrun & Hcd & _).
  destruct (changedData_result_config this (fresh this) [] s eq_refl eq_refl Hnone)
    as (sb & Hfresh).
  rewrite Hfresh in Hcd. injection Hcd as <- <-.
  change (0 <? List.length (@nil string))%nat with false in Hrun.
  rewrite Hrun in H. cbv beta iota in H.
  destruct H as (_ & s' & Hch & Hfull & He & Hcd & _ & Hfc & Hmc & _).
  exists s'. repeat split; try assumption.
  intros Hfirst. cbv beta iota delta [isValid errors bind get_this ret].
  rewrite Hb. cbv beta iota delta [negb]. rewrite Hfirst, Hfull.
  cbv beta iota. rewrite He. reflexivity.
Qed.

Lemma emptyPermitted_short_circuit_witness :
  let this := instantiate Sample.PersonForm (Sample.bound_emptyPermitted []) in
  isBound this = true /\
  emptyPermitted this = true /\
  (exists s, changedData this = Normal [] s) /\
  field_clean this "name" (Sample.CharField true 1) =
    Raise (ValidationError Sample.required_message) /\
  exists this',
    fullClean BaseForm_prototype this = Normal tt this' /\
    cleanedData this' = Some (VObj Obj.empty) /\
    isValid BaseForm_prototype this = Normal true this'.
Proof.
  intros this.
  assert (Hnone : exists s, changedData this = Normal [] s)
    by (eexists; vm_compute; reflexivity).
  split; [reflexivity|]. split; [reflexivity|]. split; [exact Hnone|].
  split; [reflexivity|].
  destruct (emptyPermitted_short_circuit BaseForm_prototype this
              eq_refl eq_refl Hnone)
    as (this' & Hrun & Hcd & _ & _ & _ & Hvalid).
  exists this'. split; [exact Hrun|]. split; [exact Hcd|]. exact (Hvalid eq_refl).
Defined.

(* ================================================================= *)
(** ** Unbound instances *)

(** What holds of an unbound instance at any time. *)
Lemma unbound_access P a s :
  isBound s = false -> cleanedData s = None ->
  (_errors s = None \/ _errors s = Some ErrorObject.new) ->
  exists s',
    access P a s = Normal tt s' /\
    isBound s' = false /\ cleanedData s' = None /\
    (_errors s' = None \/ _errors s' = Some ErrorObject.new) /\
    field_cleans (trace s') = field_cleans (trace s) /\
    method_calls (trace s') = method_calls (trace s).
Proof.
  intros Hb Hcd He.
  assert (Herrors : forall name, exists r,
             errors P name s = Normal r (set_errors (Some ErrorObject.new) s) \/
             (errors P name s = Normal r s /\ _errors s = Some ErrorObject.new)).
  { intros name. cbv beta iota delta [errors bind get_this ret].
    destruct He as [He|He]; rewrite He; cbv beta iota.
    - rewrite (fullClean_unbound P s Hb). cbv beta iota. cbn [_errors set_errors].
      destruct (truthy_name name); eexists; left; reflexivity.
    - rewrite He.
      destruct (truthy_name name); eexists; right; (split; reflexivity). }
  destruct a as [name| | | | |]; cbn [access]; unfold bind, ret.
  - destruct (Herrors name) as [r [Hr|[Hr He']]]; rewrite Hr; eexists;
      (split; [reflexivity|]); cbn; auto 6.
  - unfold isValid, bind, get_this, ret. rewrite Hb. cbn.
    eexists. split; [reflexivity|]. auto 6.
  - unfold nonFieldErrors, bind, ret.
    destruct (Herrors (Some NON_FIELD_ERRORS)) as [r [Hr|[Hr He']]]; rewrite Hr;
      destruct r as [|[]|]; eexists; (split; [reflexivity|]); cbn; auto 6.
  - destruct (changedData_frame s) as (l & s' & Hrun & Hc & He' & Hcd' & _ & Hfc & Hmc).
    rewrite Hrun. exists s'. split; [reflexivity|].
    unfold config in Hc. injection Hc as Hb' _.
    rewrite Hb', He', Hcd'. auto 6.
  - destruct (hasChanged_frame s) as (l & s' & Hrun & _ & Hc & He' & Hcd' & _ & Hfc & Hmc).
    rewrite Hrun. exists s'. split; [reflexivity|].
    unfold config in Hc. injection Hc as Hb' _.
    rewrite Hb', He', Hcd'. auto 6.
  - rewrite (fullClean_unbound P s Hb). eexists. split; [reflexivity|]. cbn. auto 6.
Qed.

Lemma unbound_accesses P l : forall s,
  isBound s = false -> cleanedData s = None ->
  (_errors s = None \/ _errors s = Some ErrorObject.new) ->
  exists s',
    for_each (access P) l s = Normal tt s' /\
    isBound s' = false /\ cleanedData s' = None /\
    (_errors s' = None \/ _errors s' = Some ErrorObject.new) /\
    field_cleans (trace s') = field_cleans (trace s) /\
    method_calls (trace s') = method_calls (trace s).
Proof.
  induction l as [|a l IH]; intros s Hb Hcd He.
  - exists s. cbn. auto 6.
  - destruct (unbound_access P a s Hb Hcd He) as (s1 & Hrun & Hb1 & Hcd1 & He1 & Hfc1 & Hmc1).
    destruct (IH s1 Hb1 Hcd1 He1) as (s' & Hloop & Hb' & Hcd' & He' & Hfc & Hmc).
    exists s'. cbn [for_each]. unfold bind. rewrite Hrun.
    split; [exact Hloop|]. split; [exact Hb'|]. split; [exact Hcd'|].
    split; [exact He'|]. split; congruence.
Qed.

(** C2.  An instance constructed with neither data nor files is unbound,
    and after any sequence of reads of its accessors (and calls of
    [fullClean]): no field's [clean] and no method of the form has been
    called, the instance has no [cleanedData] property, [isValid] returns
    [false], [fullClean] leaves a report without keys, and [errors] returns
    that report and still leaves no [cleanedData] and [isValid] false. *)
Theorem unbound_instance_reports_nothing
  (P : Proto) (baseFields : Obj.t Field.t) (kwargs : Kwargs)
  (accesses : list Access) :
  kw_data kwargs = None ->
  kw_files kwargs = None ->
  let this := BaseForm baseFields kwargs in
  isBound this = false /\
  exists s',
    for_each (access P) accesses this = Normal tt s' /\
    cleanedData s' = None /\
    field_cleans (trace s') = [] /\
    method_calls (trace s') = [] /\
    isValid P s' = Normal false s' /\
    (exists s3,
       fullClean P s' = Normal tt s3 /\
       _errors s3 = Some ErrorObject.new /\
       Obj.keys ErrorObject.new = [] /\
       cleanedData s3 = None) /\
    exists s'',
      errors P None s' = Normal (Report ErrorObject.new) s'' /\
      ErrorObject.isPopulated ErrorObject.new = false /\
      cleanedData s'' = None /\
      isValid P s'' = Normal false s''.
Proof.
  intros Hd Hf this.
  assert (Hb : isBound this = false) by (cbn; now rewrite Hd, Hf).
  split; [exact Hb|].
  destruct (unbound_accesses P accesses this Hb eq_refl (or_introl eq_refl))
    as (s' & Hrun & Hb' & Hcd' & He' & Hfc & Hmc).
  assert (Hvalid : forall s, isBound s = false -> isValid P s = Normal false s).
  { intros s Hs. cbv beta iota delta [isValid bind get_this ret]. now rewrite Hs. }
  exists s'. split; [exact Hrun|]. split; [exact Hcd'|]. split; [exact Hfc|].
  split; [exact Hmc|]. split; [now apply Hvalid|]. split.
  - eexists. split; [apply (fullClean_unbound P s' Hb')|]. cbn. auto.
  - cbv beta iota delta [errors bind get_this ret].
    destruct He' as [He'|He']; rewrite He'; cbv beta iota.
    + rewrite (fullClean_unbound P s' Hb'). cbv beta iota. cbn [_errors set_errors truthy_name].
      eexists. split; [reflexivity|]. split; [reflexivity|]. split; [exact Hcd'|].
      now apply Hvalid.
    + rewrite He'. cbn [truthy_name].
      eexists. split; [reflexivity|]. split; [reflexivity|]. split; [exact Hcd'|].
      now apply Hvalid.
Qed.

Lemma unbound_instance_reports_nothing_witness :
  kw_data default_kwargs = None /\
  kw_files default_kwargs = None /\
  exists s',
    for_each (access BaseForm_prototype) [ReadErrors None; ReadIsValid]
             Sample.unbound_form = Normal tt s' /\
    cleanedData s' = None /\
    isValid BaseForm_prototype s' = Normal false s'.
Proof.
  split; [reflexivity|]. split; [reflexivity|].
  destruct (unbound_instance_reports_nothing BaseForm_prototype
              (orEmpty (baseFields Sample.PersonForm)) default_kwargs
              [ReadErrors None; ReadIsValid] eq_refl eq_refl)
    as (_ & s' & Hrun & Hcd & _ & _ & Hvalid & _).
  exists s'. split; [exact Hrun|]. split; [exact Hcd|exact Hvalid].
Defined.

(* ================================================================= *)
(** ** Per-field hooks *)

(** [toUpperCase] is the upper-casing of letters. *)
Lemma toUpperCase_letter c : toUpperCase c = upper_case_letter c.
Proof.
  destruct c as [[] [] [] [] [] [] [] []]; reflexivity.
Qed.

(** The camel-cased name [_cleanFields] builds is the one the spec words. *)
Lemma clean_camel_spec name : clean_camel name = camel_hook_spec name.
Proof.
  unfold clean_camel, capitalize, camel_hook_spec.
  destruct name as [|c rest]; [reflexivity|]. now rewrite toUpperCase_letter.
Qed.

(** C6.  One turn of the loop of [_cleanFields], for a field whose [clean]
    returns [v]:
    - when the instance has a method ["clean_" + name], that method is the
      only one called, and what it returns (whatever it is, [undefined]
      included) is the field's entry in [cleanedData];
    - when it has none but has the method named ["clean"] followed by the
      field's name with its first character upper-cased, the same holds of
      that method;
    - when it has neither, the entry is [v] and no method is called.
    The last two are for a name that is empty or starts with an ASCII
    character. *)
Theorem custom_hook_result_replaces_cleaned_value
  (P : Proto) (this : FormInstance) (name : string) (f : Field.t)
  (cd : Obj.t Value) (v : Value) :
  cleanedData this = Some (VObj cd) ->
  field_clean this name f = Return v ->
  let seen := set_cleanedData (Some (VObj (Obj.set cd name v)))
                (record (CalledFieldClean name) this) in
  let exact := String.append "clean_" name in
  let camel := camel_hook_spec name in
  (forall h w,
     method P exact = Some h ->
     h (record (CalledMethod exact) seen) = Return w ->
     exists this' cd',
       _cleanFields_body P (name, f) this = Normal tt this' /\
       cleanedData this' = Some (VObj cd') /\
       Obj.get cd' name = Some w /\
       (forall k, k <> name -> Obj.get cd' k = Obj.get cd k) /\
       trace this' = trace this ++ [CalledFieldClean name; CalledMethod exact]) /\
  (forall h w,
     ascii_initial name = true ->
     method P exact = None ->
     method P camel = Some h ->
     h (record (CalledMethod camel) seen) = Return w ->
     exists this' cd',
       _cleanFields_body P (name, f) this = Normal tt this' /\
       cleanedData this' = Some (VObj cd') /\
       Obj.get cd' name = Some w /\
       (forall k, k <> name -> Obj.get cd' k = Obj.get cd k) /\
       trace this' = trace this ++ [CalledFieldClean name; CalledMethod camel]) /\
  (ascii_initial name = true ->
   method P exact = None ->
   method P camel = None ->
   exists this' cd',
     _cleanFields_body P (name, f) this = Normal tt this' /\
     cleanedData this' = Some (VObj cd') /\
     Obj.get cd' name = Some v /\
     (forall k, k <> name -> Obj.get cd' k = Obj.get cd k) /\
     trace this' = trace this ++ [CalledFieldClean name]).
Proof.
  intros Hcd Hfc seen exact camel.
  assert (Hcamel : camel = clean_camel name)
    by (symmetry; apply clean_camel_spec).
  clearbody camel. subst camel.
  assert (Hstart :
    _cleanFields_body P (name, f) this =
    try_catch
      (assign_cleaned name v ;;
       match method P exact with
       | Some hook => w <- invoke exact hook ;; assign_cleaned name w
       | None =>
           match method P (clean_camel name) with
           | Some hook => w <- invoke (clean_camel name) hook ;; assign_cleaned name w
           | None => ret tt
           end
       end)
      (_cleanFields_catch name) (record (CalledFieldClean name) this)).
  { unfold _cleanFields_body, try_catch, bind at 1 2 3, modify, get_this.
    change (field_clean (record (CalledFieldClean name) this) name f)
      with (field_clean this name f).
    rewrite Hfc. reflexivity. }
  rewrite Hstart. clear Hstart.
  assert (Hseen : assign_cleaned name v (record (CalledFieldClean name) this) =
                  Normal tt seen).
  { unfold assign_cleaned. cbn [cleanedData record]. now rewrite Hcd. }
  split; [|split].
  - intros h w Hm Hh. rewrite Hm.
    cbv beta iota delta [try_catch bind invoke modify get_this lift].
    rewrite Hseen, Hh.
    eexists. eexists. split; [reflexivity|]. cbn. split; [reflexivity|].
    split; [apply get_set_same|]. split.
    + intros k Hk. rewrite !get_set_other by congruence. reflexivity.
    + rewrite <- app_assoc. reflexivity.
  - intros h w _ Hn Hm Hh. rewrite Hn, Hm.
    cbv beta iota delta [try_catch bind invoke modify get_this lift].
    rewrite Hseen, Hh.
    eexists. eexists. split; [reflexivity|]. cbn. split; [reflexivity|].
    split; [apply get_set_same|]. split.
    + intros k Hk. rewrite !get_set_other by congruence. reflexivity.
    + rewrite <- app_assoc. reflexivity.
  - intros _ Hn Hm. rewrite Hn, Hm.
    cbv beta iota delta [try_catch bind]. rewrite Hseen.
    eexists. eexists. split; [reflexivity|]. cbn. split; [reflexivity|].
    split; [apply get_set_same|]. split; [|reflexivity].
    intros k Hk. rewrite get_set_other by congruence. reflexivity.
Qed.

Lemma custom_hook_result_replaces_cleaned_value_witness :
  let this := fresh Sample.ada_form in
  cleanedData this = Some (VObj Obj.empty) /\
  field_clean this "name" (Sample.CharField true 1) = Return (VStr "Ada") /\
  ascii_initial "name" = true /\
  method Sample.camel_hooked "clean_name" = None /\
  method Sample.camel_hooked "cleanName" <> None /\
  exists this' cd',
    _cleanFields_body Sample.camel_hooked ("name", Sample.CharField true 1) this =
      Normal tt this' /\
    cleanedData this' = Some (VObj cd') /\
    Obj.get cd' "name" = Some VUndefined /\
    trace this' = [CalledFieldClean "name"; CalledMethod "cleanName"].
Proof.
  intros this.
  split; [reflexivity|]. split; [reflexivity|]. split; [reflexivity|].
  split; [reflexivity|]. split; [discriminate|].
  destruct (custom_hook_result_replaces_cleaned_value Sample.camel_hooked this "name"
              (Sample.CharField true 1) Obj.empty (VStr "Ada") eq_refl eq_refl)
    as (_ & Hcamel & _).
  destruct (Hcamel (fun _ => Return VUndefined) VUndefined eq_refl eq_refl eq_refl
              eq_refl)
    as (this' & cd' & Hrun & Hcd & Hget & _ & Htr).
  exists this', cd'. split; [exact Hrun|]. split; [exact Hcd|].
  split; [exact Hget|exact Htr].
Defined.

(* ================================================================= *)
(** ** Change detection and memoization *)

Lemma change_checks_asked t l :
  change_checks (t ++ map CalledHasChanged l) = change_checks t ++ l.
Proof.
  rewrite change_checks_app. f_equal. induction l; cbn; congruence.
Qed.

(** C8.  The first call of [changedData] returns, in the order of the
    fields, the names of the fields whose [_hasChanged] answers yes for the
    initial value (from the hidden-initial channel, under the ["initial-"]
    name, when the field requests it; from the instance's initial map,
    falling back to the field's own initial, otherwise) and the submitted
    raw value; it stores that list, and asks each field once, in order. *)
Theorem changedData_lists_changed_fields (this : FormInstance) :
  _changedData this = None ->
  exists this',
    changedData this = Normal (changed_names_spec this) this' /\
    _changedData this' = Some (changed_names_spec this) /\
    change_checks (trace this') = change_checks (trace this) ++ Obj.keys (fields this).
Proof.
  intros Hnone.
  destruct (changedData_first this Hnone) as (s' & Hrun & _ & _ & _ & Hch & Htr).
  exists s'. rewrite changed_names_spec_eq.
  split; [exact Hrun|]. split; [exact Hch|].
  rewrite Htr. apply change_checks_asked.
Qed.

Lemma changedData_lists_changed_fields_witness :
  _changedData Sample.echo_form = None /\
  exists this',
    changedData Sample.echo_form = Normal ["nick"] this' /\
    change_checks (trace this') = ["nick"; "name"].
Proof.
  split; [reflexivity|].
  destruct (changedData_lists_changed_fields Sample.echo_form eq_refl)
    as (this' & Hrun & _ & Htr).
  exists this'. split; [exact Hrun|exact Htr].
Defined.

Lemma fullClean_leaves_report P s :
  exists eo, _errors (state_of (fullClean P s)) = Some eo.
Proof.
  destruct (isBound s) eqn:Hb.
  - pose proof (fullClean_bound P s Hb) as H.
    destruct (cleaning_starts s) as [s0|].
    + destruct H as (Hrun & He0 & Hcd0 & _). rewrite Hrun.
      destruct (fullClean_steps_summary P s0 _ _ He0 Hcd0) as (_ & _ & eo & He & _).
      eauto.
    + destruct H as (_ & s' & _ & Hrun & He & _). rewrite Hrun. eauto.
  - rewrite (fullClean_unbound P s Hb). cbn. eauto.
Qed.

Lemma fullClean_keeps_changedData P s l :
  _changedData s = Some l -> _changedData (state_of (fullClean P s)) = Some l.
Proof.
  intros Hl. destruct (isBound s) eqn:Hb.
  - pose proof (fullClean_bound P s Hb) as H.
    destruct (cleaning_starts s) as [s0|].
    + destruct H as (Hrun & He0 & Hcd0 & _ & _ & _ & Hkeep). rewrite Hrun.
      destruct (fullClean_steps_summary P s0 _ _ He0 Hcd0) as (_ & Hch & _).
      rewrite Hch. auto.
    + destruct H as (_ & s' & _ & Hrun & _ & _ & _ & _ & _ & Hkeep).
      rewrite Hrun. cbn. auto.
  - rewrite (fullClean_unbound P s Hb). exact Hl.
Qed.

(** [errors] with a report in place only reads it. *)
Lemma errors_memo P name s eo :
  _errors s = Some eo ->
  errors P name s =
  Normal (match truthy_name name with
          | Some n => ForName (ErrorObject.get eo n)
          | None => Report eo
          end) s.
Proof.
  intros He. cbv beta iota delta [errors bind get_this ret].
  rewrite He. cbv beta iota. rewrite He. now destruct (truthy_name name).
Qed.

(** The state [errors] leaves is the one it found, when it found a report,
    and the one [fullClean] leaves otherwise. *)
Lemma errors_state P name s :
  state_of (errors P name s) =
  match _errors s with
  | Some _ => s
  | None => state_of (fullClean P s)
  end.
Proof.
  destruct (_errors s) as [eo|] eqn:He.
  - now rewrite (errors_memo P name s eo He).
  - cbv beta iota delta [errors bind get_this ret]. rewrite He.
    destruct (fullClean_leaves_report P s) as [eo Heo].
    destruct (fullClean P s) as [[] s'|e s']; cbn in Heo |- *; [|reflexivity].
    rewrite Heo. now destruct (truthy_name name).
Qed.

Lemma errors_leaves_report P name s :
  exists eo, _errors (state_of (errors P name s)) = Some eo.
Proof.
  rewrite errors_state. destruct (_errors s) as [eo|] eqn:He; [eauto|].
  apply fullClean_leaves_report.
Qed.

Lemma read_keeps_report P a s eo :
  _errors s = Some eo -> is_read a = true ->
  exists s',
    access P a s = Normal tt s' /\
    _errors s' = Some eo /\
    cleanedData s' = cleanedData s /\
    field_cleans (trace s') = field_cleans (trace s) /\
    method_calls (trace s') = method_calls (trace s).
Proof.
  intros He Hread.
  destruct a as [name| | | | |]; try discriminate; cbn [access]; unfold bind, ret.
  - rewrite (errors_memo P name s eo He). eauto 6.
  - cbv beta iota delta [isValid bind get_this ret].
    destruct (isBound s); cbn [negb]; [|eauto 6].
    rewrite (errors_memo P None s eo He). cbn. eauto 6.
  - unfold nonFieldErrors, bind, ret.
    rewrite (errors_memo P (Some NON_FIELD_ERRORS) s eo He). cbn.
    destruct (ErrorObject.get eo NON_FIELD_ERRORS); eauto 6.
  - destruct (changedData_frame s) as (l & s' & Hrun & _ & He' & Hcd' & _ & Hfc & Hmc).
    rewrite Hrun. exists s'. rewrite He', He. auto 6.
  - destruct (hasChanged_frame s) as (l & s' & Hrun & _ & _ & He' & Hcd' & _ & Hfc & Hmc).
    rewrite Hrun. exists s'. rewrite He', He. auto 6.
Qed.

Lemma reads_keep_report P l : forall s eo,
  _errors s = Some eo -> forallb is_read l = true ->
  exists s',
    for_each (access P) l s = Normal tt s' /\
    _errors s' = Some eo /\
    cleanedData s' = cleanedData s /\
    field_cleans (trace s') = field_cleans (trace s) /\
    method_calls (trace s') = method_calls (trace s).
Proof.
  induction l as [|a l IH]; intros s eo He Hreads.
  - exists s. cbn. auto 6.
  - cbn in Hreads. apply andb_true_iff in Hreads. destruct Hreads as [Ha Hl].
    destruct (read_keeps_report P a s eo He Ha) as (s1 & Hrun & He1 & Hcd1 & Hfc1 & Hmc1).
    destruct (IH s1 eo He1 Hl) as (s' & Hloop & He' & Hcd' & Hfc & Hmc).
    exists s'. cbn [for_each]. unfold bind. rewrite Hrun.
    split; [exact Hloop|]. split; [exact He'|]. split; [congruence|].
    split; congruence.
Qed.

Lemma access_keeps_changedData P a s l :
  _changedData s = Some l -> _changedData (state_of (access P a s)) = Some l.
Proof.
  intros Hl.
  assert (Herr : forall name, _changedData (state_of (errors P name s)) = Some l).
  { intros name. rewrite errors_state.
    destruct (_errors s); [exact Hl|now apply fullClean_keeps_changedData]. }
  destruct a as [name| | | | |]; cbn [access]; unfold bind, ret.
  - specialize (Herr name). now destruct (errors P name s).
  - cbv beta iota delta [isValid bind get_this ret].
    destruct (isBound s); cbn [negb]; [|exact Hl].
    specialize (Herr None). destruct (errors P None s) as [[]|]; exact Herr.
  - unfold nonFieldErrors, bind, ret. specialize (Herr (Some NON_FIELD_ERRORS)).
    destruct (errors P (Some NON_FIELD_ERRORS) s) as [[|[]|]|]; exact Herr.
  - now rewrite (changedData_memo s l Hl).
  - unfold hasChanged, bind, ret. now rewrite (changedData_memo s l Hl).
  - now apply fullClean_keeps_changedData.
Qed.

Lemma accesses_keep_changedData P accesses : forall s l,
  _changedData s = Some l ->
  _changedData (state_of (for_each (access P) accesses s)) = Some l.
Proof.
  induction accesses as [|a accesses IH]; intros s l Hl; [exact Hl|].
  cbn [for_each]. unfold bind.
  pose proof (access_keeps_changedData P a s l Hl) as H.
  destruct (access P a s) as [[] s1|e s1]; cbn in H |- *; auto.
Qed.

(** C9.  Whatever the first read of [errors] did (even if it threw), the
    instance then has a report, and from then on [errors] returns from that
    report and leaves the instance as it is; any further reads of the
    accessors leave the report and [cleanedData] as they are and call no
    field's [clean] and no method of the form.  Likewise the list the first
    [changedData] returned is what every later [changedData] returns,
    whatever accesses come in between, without touching the instance. *)
Theorem errors_and_changedData_are_memoized
  (P : Proto) (this : FormInstance) (name : option string)
  (reads accesses : list Access) :
  (let s1 := state_of (errors P name this) in
   exists eo,
     _errors s1 = Some eo /\
     (forall name',
        errors P name' s1 =
        Normal (match truthy_name name' with
                | Some n => ForName (ErrorObject.get eo n)
                | None => Report eo
                end) s1) /\
     (forallb is_read reads = true ->
      exists s',
        for_each (access P) reads s1 = Normal tt s' /\
        _errors s' = Some eo /\
        cleanedData s' = cleanedData s1 /\
        field_cleans (trace s') = field_cleans (trace s1) /\
        method_calls (trace s') = method_calls (trace s1))) /\
  (let s2 := state_of (changedData this) in
   exists l,
     changedData this = Normal l s2 /\
     changedData s2 = Normal l s2 /\
     let s3 := state_of (for_each (access P) accesses s2) in
     changedData s3 = Normal l s3).
Proof.
  split.
  - intros s1. destruct (errors_leaves_report P name this) as [eo He].
    fold s1 in He. exists eo. split; [exact He|]. split.
    + intros name'. now apply errors_memo.
    + intros Hreads. now apply reads_keep_report.
  - intros s2. destruct (changedData_frame this) as (l & s' & Hrun & _ & _ & _ & Hch & _).
    assert (Hs : s2 = s') by (unfold s2; now rewrite Hrun). rewrite Hs.
    exists l. split; [exact Hrun|]. split; [now apply changedData_memo|].
    intros s3. apply changedData_memo. now apply accesses_keep_changedData.
Qed.

Lemma errors_and_changedData_are_memoized_witness :
  forallb is_read [ReadIsValid; ReadErrors (Some "name"); ReadHasChanged] = true /\
  exists s1 s',
    errors BaseForm_prototype None Sample.nameless_form =
      Normal (Report [("name", Sample.required_message)]) s1 /\
    for_each (access BaseForm_prototype)
             [ReadIsValid; ReadErrors (Some "name"); ReadHasChanged] s1 =
      Normal tt s' /\
    field_cleans (trace s') = ["name"; "age"].
Proof.
  split; [reflexivity|].
  destruct (errors_and_changedData_are_memoized BaseForm_prototype
              Sample.nameless_form None
              [ReadIsValid; ReadErrors (Some "name"); ReadHasChanged] [])
    as ((eo & He & _ & Hreads) & _).
  destruct (Hreads eq_refl) as (s' & Hrun & _ & _ & Hfc & _).
  eexists. exists s'. split; [vm_compute; reflexivity|].
  split; [exact Hrun|]. rewrite Hfc. vm_compute. reflexivity.
Defined.

(* ================================================================= *)
(** ** Bound fields *)

(** C10.  [boundField(name)] throws the [Error] "Form does not have a
    '<name>' field." when the instance's fields have no own property of that
    name; otherwise it returns the bound field built for that field and
    name; so whenever it returns, the name is one of the instance's fields.
    In no case does it change the instance. *)
Theorem boundField_only_for_own_fields
  (prettyName : string -> string) (this : FormInstance) (name : string) :
  (Obj.hasOwnProperty (fields this) name = false ->
   boundField prettyName name this =
   Thrown (Defect (String.append "Form does not have a '"
                     (String.append name "' field."))) this) /\
  (forall f, Obj.get (fields this) name = Some f ->
     boundField prettyName name this =
       Normal (BoundField prettyName this f name) this /\
     BoundField.name (BoundField prettyName this f name) = name /\
     BoundField.field (BoundField prettyName this f name) = f /\
     BoundField.htmlName (BoundField prettyName this f name) = addPrefix this name) /\
  (forall bf s, boundField prettyName name this = Normal bf s ->
     In name (Obj.keys (fields this)) /\
     Obj.get (fields this) name = Some (BoundField.field bf) /\
     BoundField.name bf = name /\
     s = this).
Proof.
  unfold boundField, Obj.hasOwnProperty, bind, get_this, ret, throw.
  destruct (Obj.get (fields this) name) as [f|] eqn:Hget; cbn.
  - split; [discriminate|]. split.
    + intros g [= <-]. repeat split.
    + intros bf s [= <- <-]. repeat split.
      eapply get_Some_key; eassumption.
  - split; [reflexivity|]. split; discriminate.
Qed.

Lemma boundField_only_for_own_fields_witness :
  Obj.hasOwnProperty (fields Sample.ada_form) "email" = false /\
  Obj.get (fields Sample.ada_form) "age" = Some (Sample.IntegerField false (VNum 0) 2) /\
  boundField (fun n => n) "email" Sample.ada_form =
    Thrown (Defect "Form does not have a 'email' field.") Sample.ada_form /\
  exists bf,
    boundField (fun n => n) "age" Sample.ada_form = Normal bf Sample.ada_form /\
    BoundField.htmlName bf = "age".
Proof.
  split; [reflexivity|]. split; [reflexivity|].
  destruct (boundField_only_for_own_fields (fun n => n) Sample.ada_form "email")
    as (Hmissing & _).
  destruct (boundField_only_for_own_fields (fun n => n) Sample.ada_form "age")
    as (_ & Hown & _).
  split; [exact (Hmissing eq_refl)|].
  destruct (Hown _ eq_refl) as (Hrun & _ & _ & Hhtml).
  eexists. split; [exact Hrun|exact Hhtml].
Defined.

(* ================================================================= *)
(** ** Schema composition *)



Section ItemsToObject.
Context {V : Type}.
Implicit Types (items : list (string * V)) (o : Obj.t V).



End ItemsToObject.

Lemma insert_by_counter_perm x l : Permutation (insert_by_counter x l) (x :: l).
Proof.
  induction l as [|y l IH]; cbn; [reflexivity|].
  destruct (Field.creationCounter (snd x) <=? Field.creationCounter (snd y))%Z;
    [reflexivity|].
  rewrite IH. apply perm_swap.
Qed.

Lemma sort_by_creationCounter_perm l : Permutation (sort_by_creationCounter l) l.
Proof.
  induction l as [|x l IH]; cbn; [reflexivity|].
  rewrite insert_by_counter_perm. now constructor.
Qed.

Lemma insert_by_counter_sorted x l :
  StronglySorted created_before l ->
  StronglySorted created_before (insert_by_counter x l).
Proof.
  induction 1 as [|y l Hsorted IH Hall]; cbn.
  - repeat constructor.
  - destruct (Field.creationCounter (snd x) <=? Field.creationCounter (snd y))%Z eqn:E.
    + apply Z.leb_le in E. constructor; [now constructor|].
      constructor; [exact E|].
      eapply Forall_impl; [|exact Hall].
      intros z Hz. unfold created_before in *. lia.
    + apply Z.leb_gt in E. constructor; [exact IH|].
      eapply Permutation_Forall; [symmetry; apply insert_by_counter_perm|].
      constructor; [unfold created_before; lia|exact Hall].
Qed.

Lemma sort_by_creationCounter_sorted l :
  StronglySorted created_before (sort_by_creationCounter l).
Proof.
  induction l as [|x l IH]; cbn; [constructor|].
  now apply insert_by_counter_sorted.
Qed.



(* ================================================================= *)
(** ** The scenarios of the specification, run *)

(** Sorting by creation counter puts [name] before [age], although the
    object literal lists [age] first. *)
Example PersonForm_fields :
  option_map Obj.keys (baseFields Sample.PersonForm) = Some ["name"; "age"].
Proof. reflexivity. Qed.

(** Data [{name: "", age: "7"}]: the report has the key [name], and
    [cleanedData] is absent. *)
Example nameless_is_invalid :
  exists this',
    isValid BaseForm_prototype Sample.nameless_form = Normal false this' /\
    _errors this' = Some [("name", ["This field is required."])] /\
    cleanedData this' = None.
Proof. eexists. split; [vm_compute; reflexivity|]. split; reflexivity. Qed.

(** Data [{name: "Ada", age: "7"}]: valid, with
    [cleanedData == {name: "Ada", age: 7}]. *)
Example ada_is_valid :
  exists this',
    isValid BaseForm_prototype Sample.ada_form = Normal true this' /\
    cleanedData this' = Some (VObj [("name", VStr "Ada"); ("age", VNum 7)]).
Proof. eexists. split; [vm_compute; reflexivity|]. reflexivity. Qed.

(** With the prefix ["p1"] the field [name] is read under ["p1-name"], and
    a value submitted under ["name"] is not seen. *)
Example prefixed_name :
  let this :=
    instantiate Sample.PersonForm
      {| kw_data := Some [("name", VStr "Ada"); ("p1-age", VStr "7")];
         kw_files := None; kw_autoId := Some "id_%(name)s";
         kw_prefix := Some "p1"; kw_initial := None; kw_labelSuffix := ":";
         kw_emptyPermitted := false |} in
  addPrefix this "name" = "p1-name" /\
  addInitialPrefix this "name" = "initial-p1-name" /\
  exists this',
    errors BaseForm_prototype None this =
      Normal (Report [("name", ["This field is required."])]) this'.
Proof.
  cbv zeta. split; [reflexivity|]. split; [reflexivity|].
  eexists. vm_compute. reflexivity.
Qed.

(** A defect in a field's [clean] leaves [fullClean] as it was raised, the
    report without the field's name. *)
Example defect_propagates :
  let this :=
    BaseForm [("name", Sample.CharField true 1); ("bad", Sample.BrokenField 2)]
             (Sample.bound Sample.nameless) in
  exists this',
    fullClean BaseForm_prototype this = Thrown (Defect "ReferenceError") this' /\
    _errors this' = Some [("name", ["This field is required."])].
Proof. cbv zeta. eexists. split; [vm_compute; reflexivity|]. reflexivity. Qed.

(** The camel-cased hook of a field called [""] is the form-wide
    [clean]. *)
Example camel_hook_of_the_empty_name :
  clean_camel "" = "clean" /\
  clean_camel "name" = "cleanName" /\
  clean_underscore "name" = "clean_name".
Proof. repeat split. Qed.

(* ================================================================= *)
(** * Further properties of forms.js *)

Lemma body_hookless_return P name f s cd v :
  cleanedData s = Some (VObj cd) ->
  field_clean s name f = Return v ->
  hookless P name ->
  _cleanFields_body P (name, f) s =
  Normal tt (set_cleanedData (Some (VObj (Obj.set cd name v)))
                             (record (CalledFieldClean name) s)).
Proof.
  intros Hcd Hfc [Hu Hc].
  unfold _cleanFields_body; autounfold with method_ops; cbn.
  change (field_clean (record (CalledFieldClean name) s) name f)
    with (field_clean s name f).
  rewrite Hfc. cbn. rewrite Hcd. cbn. rewrite Hu, Hc. reflexivity.
Qed.

(** [BaseForm]'s own [clean] returns. *)
Lemma BaseForm_clean_returns st e : BaseForm_clean st <> Raise e.
Proof.
  unfold BaseForm_clean. destruct (cleanedData st); discriminate.
Qed.

Lemma unhooked_field P this name f :
  unhooked P this -> In (name, f) (fields this) -> hookless P name.
Proof.
  intros (_ & _ & Hnone) Hin. apply Hnone. apply (in_map fst) in Hin. exact Hin.
Qed.

(** With every field's [clean] returning and no field having a hook, the
    loop returns, the report untouched, the fields' values appended to
    [cleanedData] in order. *)
Lemma cleanFields_loop_all_return P l : forall s eo cd,
  _errors s = Some eo -> cleanedData s = Some (VObj cd) ->
  NoDup (map fst l) ->
  (forall k, In k (map fst l) -> ~ In k (Obj.keys cd)) ->
  (forall name f, In (name, f) l ->
     hookless P name /\ exists v, field_clean s name f = Return v) ->
  exists s' cd',
    for_each (_cleanFields_body P) l s = Normal tt s' /\
    config s' = config s /\
    _errors s' = Some eo /\
    cleanedData s' = Some (VObj cd') /\
    method_calls (trace s') = method_calls (trace s) /\
    Obj.keys cd' = Obj.keys cd ++ map fst l /\
    (forall name f v, In (name, f) l ->
       field_clean s name f = Return v -> Obj.get cd' name = Some v).
Proof.
  induction l as [|[n f] l IH]; intros s eo cd Herr Hcd Hnd Hfresh Hclean.
  - exists s, cd. cbn. rewrite app_nil_r. repeat split; auto. contradiction.
  - inversion Hnd as [|? ? Hnotin Hnd']; subst.
    destruct (Hclean n f (or_introl eq_refl)) as [Hhook [v0 Hv0]].
    pose proof (body_hookless_return P n f s cd v0 Hcd Hv0 Hhook) as Hrun.
    set (s1 := set_cleanedData (Some (VObj (Obj.set cd n v0)))
                 (record (CalledFieldClean n) s)) in *.
    assert (Hc1 : config s1 = config s) by reflexivity.
    assert (Hn : ~ In n (Obj.keys cd)) by (apply Hfresh; now left).
    assert (Hkeys1 : Obj.keys (Obj.set cd n v0) = Obj.keys cd ++ [n]).
    { rewrite set_keys. destruct (in_dec string_dec n (Obj.keys cd)); tauto. }
    destruct (IH s1 eo (Obj.set cd n v0) Herr eq_refl Hnd') as
        (s' & cd' & Hloop & Hc & He & Hcd' & Hmc & Hkeys & Hval).
    + intros k Hk. rewrite Hkeys1. intros Hin. apply in_app_or in Hin.
      destruct Hin as [Hin|[<-|[]]].
      * apply (Hfresh k); [now right|exact Hin].
      * contradiction.
    + intros name g Hin. rewrite (field_clean_config s1 s name g Hc1).
      apply Hclean. now right.
    + exists s', cd'. cbn [for_each]. unfold bind. rewrite Hrun.
      split; [exact Hloop|]. split; [congruence|].
      split; [exact He|]. split; [exact Hcd'|]. split; [|split].
      * rewrite Hmc. subst s1. cbn. now rewrite method_calls_app, app_nil_r.
      * rewrite Hkeys, Hkeys1, <- app_assoc. reflexivity.
      * intros name g v [Hin|Hin] Hfc.
        -- inversion Hin; subst.
           destruct (cleanFields_loop_frame P l s1 eo (Obj.set cd name v0)
                       Herr eq_refl) as (eo2 & cd2 & _ & Hcd2 & Hfr).
           rewrite Hloop in Hcd2. cbn in Hcd2. rewrite Hcd' in Hcd2.
           injection Hcd2 as <-.
           destruct (Hfr name Hnotin) as [_ B]. rewrite B, get_set_same. congruence.
        -- apply (Hval name g v Hin).
           now rewrite (field_clean_config s1 s name g Hc1).
Qed.

(** X1.  A bound instance that gets past the short circuit, of a form whose
    author added no cleaning method, all of whose fields' [clean] return:
    [fullClean] returns with an empty report and without having called a
    method of the form's author other than [BaseForm]'s own [clean] and
    [_postClean]; [cleanedData] has exactly the names of the fields as keys,
    in declaration order, and under each the value the field's [clean]
    returned; and [isValid], on an instance not validated before, returns
    [true]. *)
Theorem fullClean_keeps_every_cleaned_field (P : Proto) (this : FormInstance) :
  isBound this = true ->
  cleaning_starts this <> None ->
  Obj.wf (fields this) ->
  unhooked P this ->
  (forall name f, In (name, f) (fields this) ->
                  exists v, field_clean this name f = Return v) ->
  exists this' cd,
    fullClean P this = Normal tt this' /\
    _errors this' = Some ErrorObject.new /\
    cleanedData this' = Some (VObj cd) /\
    Obj.keys cd = Obj.keys (fields this) /\
    (forall name f v,
       Obj.get (fields this) name = Some f ->
       field_clean this name f = Return v -> Obj.get cd name = Some v) /\
    method_calls (trace this') =
      method_calls (trace this) ++ ["clean"; "_postClean"] /\
    (_errors this = None -> isValid P this = Normal true this').
Proof.
  intros Hb Hstart Hwf Hplain Hclean.
  pose proof (fullClean_bound P this Hb) as H.
  destruct (cleaning_starts this) as [s0|]; [clear Hstart|contradiction].
  destruct H as (Hrun & He0 & Hcd0 & Hc0 & _ & Hmc0 & _).
  assert (Hf0 : fields s0 = fields this).
  { unfold config in Hc0. now injection Hc0. }
  destruct (cleanFields_loop_all_return P (fields s0) s0 _ _ He0 Hcd0)
    as (s1 & cd & Hloop & Hc1 & He1 & Hcd1 & Hmc1 & Hkeys & Hval).
  { rewrite Hf0. exact Hwf. }
  { intros k _ []. }
  { intros name f Hin. rewrite Hf0 in Hin. split.
    - exact (unhooked_field P this name f Hplain Hin).
    - rewrite (field_clean_config s0 this name f Hc0). now apply Hclean. }
  change (for_each (_cleanFields_body P) (fields s0) s0) with (_cleanFields P s0) in Hloop.
  destruct Hplain as (Hcl & Hpc & _).
  pose proof (cleanForm_cases P s1 _ He1) as Hform.
  rewrite Hcl in Hform. unfold BaseForm_clean at 1 in Hform.
  cbn [cleanedData record] in Hform. rewrite Hcd1 in Hform.
  pose proof (postClean_cases P
                (set_cleanedData (Some (VObj cd)) (record (CalledMethod "clean") s1)))
    as Hp.
  rewrite Hpc in Hp. unfold BaseForm_postClean at 1 in Hp. rewrite <- Hpc in Hp.
  assert (Hfull : fullClean P this =
                  Normal tt (record (CalledMethod "_postClean")
                     (set_cleanedData (Some (VObj cd))
                        (record (CalledMethod "clean") s1)))).
  { rewrite Hrun, fullClean_steps_unfold, Hloop, Hform, Hp.
    unfold drop_cleaned_if_errors. autounfold with method_ops. cbn.
    rewrite He1. reflexivity. }
  eexists. exists cd.
  split; [exact Hfull|]. cbn.
  split; [exact He1|]. split; [reflexivity|].
  split; [now rewrite Hkeys, Hf0|]. split; [|split].
  - intros name f v Hget Hfc. apply (Hval name f v).
    + rewrite Hf0. now apply get_Some_In.
    + now rewrite (field_clean_config s0 this name f Hc0).
  - rewrite !method_calls_app, Hmc1, Hmc0. cbn. now rewrite <- app_assoc.
  - intros Hfirst. cbv beta iota delta [isValid errors bind get_this ret].
    rewrite Hb. cbv beta iota delta [negb]. rewrite Hfirst, Hfull.
    cbv beta iota. cbn [_errors record set_cleanedData]. rewrite He1. reflexivity.
Qed.

Lemma fullClean_keeps_every_cleaned_field_witness :
  isBound Sample.ada_form = true /\
  cleaning_starts Sample.ada_form <> None /\
  Obj.wf (fields Sample.ada_form) /\
  unhooked BaseForm_prototype Sample.ada_form /\
  exists this',
    fullClean BaseForm_prototype Sample.ada_form = Normal tt this' /\
    cleanedData this' = Some (VObj [("name", VStr "Ada"); ("age", VNum 7)]) /\
    isValid BaseForm_prototype Sample.ada_form = Normal true this'.
Proof.
  assert (Hwf : Obj.wf (fields Sample.ada_form)).
  { repeat constructor; cbn; intuition discriminate. }
  assert (Hplain : unhooked BaseForm_prototype Sample.ada_form).
  { split; [reflexivity|]. split; [reflexivity|].
    intros name [<-|[<-|[]]]; repeat split. }
  split; [reflexivity|]. split; [discriminate|]. split; [exact Hwf|].
  split; [exact Hplain|].
  destruct (fullClean_keeps_every_cleaned_field BaseForm_prototype Sample.ada_form
              eq_refl) as (this' & cd & Hrun & _ & Hcd & Hkeys & Hval & _ & Hvalid).
  - discriminate.
  - exact Hwf.
  - exact Hplain.
  - intros name f [Hin|[Hin|[]]]; inversion Hin; subst; eexists; reflexivity.
  - exists this'. split; [exact Hrun|]. split; [|exact (Hvalid eq_refl)].
    rewrite Hcd. f_equal. f_equal.
    assert (Hname := Hval "name" _ (VStr "Ada") eq_refl eq_refl).
    assert (Hage := Hval "age" _ (VNum 7) eq_refl eq_refl).
    destruct cd as [|[k1 v1] [|[k2 v2] [|? ?]]]; try discriminate.
    cbn in Hkeys. injection Hkeys as -> ->. cbn in Hname, Hage. congruence.
Defined.

Lemma cleanFields_loop_hookless P l : forall s eo cd s',
  _errors s = Some eo -> cleanedData s = Some (VObj cd) ->
  NoDup (map fst l) ->
  for_each (_cleanFields_body P) l s = Normal tt s' ->
  forall name f v,
    In (name, f) l -> hookless P name -> field_clean s name f = Return v ->
    exists eo' cd',
      _errors s' = Some eo' /\ cleanedData s' = Some (VObj cd') /\
      Obj.get eo' name = Obj.get eo name /\ Obj.get cd' name = Some v.
Proof.
  induction l as [|[n f] l IH]; intros s eo cd s' Herr Hcd Hnd Hrun name g v Hin Hhook Hfc.
  - destruct Hin.
  - inversion Hnd as [|? ? Hnotin Hnd']; subst.
    cbn [for_each] in Hrun. unfold bind in Hrun.
    destruct (body_summary P n f s eo cd Herr Hcd)
      as (Hc1 & _ & _ & eo1 & cd1 & He1 & Hcd1 & Hfr1).
    destruct (_cleanFields_body P (n, f) s) as [[] s1|e s1] eqn:Hb;
      [|discriminate].
    cbn in Hc1, He1, Hcd1.
    destruct Hin as [Hin|Hin].
    + inversion Hin; subst.
      rewrite (body_hookless_return P name g s cd v Hcd Hfc Hhook) in Hb.
      injection Hb as <-.
      destruct (cleanFields_loop_frame P l
                  (set_cleanedData (Some (VObj (Obj.set cd name v)))
                                   (record (CalledFieldClean name) s))
                  eo (Obj.set cd name v) Herr eq_refl)
        as (eo' & cd' & He' & Hcd' & Hfr).
      rewrite Hrun in He', Hcd'. cbn in He', Hcd'.
      exists eo', cd'. split; [exact He'|]. split; [exact Hcd'|].
      destruct (Hfr name Hnotin) as [A B].
      split; [exact A|]. rewrite B. apply get_set_same.
    + assert (Hne : name <> n).
      { intros ->. apply Hnotin. apply (in_map fst) in Hin. exact Hin. }
      rewrite <- (field_clean_config s1 s name g Hc1) in Hfc.
      destruct (IH s1 eo1 cd1 s' He1 Hcd1 Hnd' Hrun name g v Hin Hhook Hfc)
        as (eo' & cd' & He' & Hcd' & A & B).
      exists eo', cd'. split; [exact He'|]. split; [exact Hcd'|].
      split; [|exact B]. rewrite A. apply Hfr1. exact Hne.
Qed.

(** X2.  When [_cleanFields], started with a report and a fresh
    [cleanedData] on an instance none of whose fields has a hook, returns:
    nothing changed in the report, and nothing is in [cleanedData], under a
    name that is not a field's; and every field is either in [cleanedData],
    with the value its [clean] returned, and then not newly in the report,
    or in the report, with the messages its [clean] raised, and then not in
    [cleanedData]. *)
Theorem cleanFields_sorts_hookless_fields
  (P : Proto) (this this' : FormInstance) (eo : ErrorObject.t) :
  _errors this = Some eo ->
  cleanedData this = Some (VObj Obj.empty) ->
  Obj.wf (fields this) ->
  no_field_hooks P this ->
  _cleanFields P this = Normal tt this' ->
  exists eo' cd',
    _errors this' = Some eo' /\
    cleanedData this' = Some (VObj cd') /\
    (forall k, ~ In k (Obj.keys (fields this)) ->
       Obj.get eo' k = Obj.get eo k /\ Obj.get cd' k = None) /\
    (forall name f, Obj.get (fields this) name = Some f ->
       match field_clean this name f with
       | Return v =>
           ErrorObject.get eo' name = ErrorObject.get eo name /\
           Obj.get cd' name = Some v
       | Raise (ValidationError msgs) =>
           ErrorObject.get eo' name = Some msgs /\ Obj.get cd' name = None
       | Raise (Defect _) => False
       end).
Proof.
  intros Herr Hcd Hwf Hnone Hrun.
  pose proof (cleanFields_loop P (fields this) this eo Obj.empty Herr Hcd Hwf) as H.
  cbv zeta in H.
  change (for_each (_cleanFields_body P) (fields this) this)
    with (_cleanFields P this) in H.
  rewrite Hrun in H. cbn in H.
  destruct H as (_ & _ & eo' & cd' & He' & Hcd' & Hfr & Hdef & _ & Hve).
  exists eo', cd'. split; [exact He'|]. split; [exact Hcd'|]. split; [exact Hfr|].
  intros name f Hget.
  pose proof (get_Some_In _ _ _ Hget) as Hin.
  destruct (Hnone name (get_Some_key _ _ _ Hget)) as [_ Hhook].
  destruct (field_clean this name f) as [v|[msgs|d]] eqn:Hfc.
  - destruct (cleanFields_loop_hookless P (fields this) this eo Obj.empty this'
                Herr Hcd Hwf Hrun name f v Hin Hhook Hfc)
      as (eo2 & cd2 & He2 & Hcd2 & A & B).
    rewrite He' in He2. injection He2 as <-.
    rewrite Hcd' in Hcd2. injection Hcd2 as <-. now split.
  - destruct (Hve name f msgs Hin Hfc) as [A B]. split; [exact A|now apply B].
  - destruct (Hdef name f d Hin Hfc) as [(e & s' & Hthrown) _]. discriminate.
Qed.

Lemma cleanFields_sorts_hookless_fields_witness :
  let this := fresh Sample.nameless_form in
  let this' := state_of (_cleanFields BaseForm_prototype this) in
  _errors this = Some ErrorObject.new /\
  cleanedData this = Some (VObj Obj.empty) /\
  Obj.wf (fields this) /\
  no_field_hooks BaseForm_prototype this /\
  _cleanFields BaseForm_prototype this = Normal tt this' /\
  exists eo' cd',
    _errors this' = Some eo' /\
    cleanedData this' = Some (VObj cd') /\
    (ErrorObject.get eo' "name" = Some Sample.required_message /\
     Obj.get cd' "name" = None) /\
    (ErrorObject.get eo' "age" = None /\ Obj.get cd' "age" = Some (VNum 7)).
Proof.
  intros this this'.
  assert (Hwf : Obj.wf (fields this)).
  { repeat constructor; cbn; intuition discriminate. }
  assert (Hnone : no_field_hooks BaseForm_prototype this).
  { intros name [<-|[<-|[]]]; repeat split. }
  assert (Hrun : _cleanFields BaseForm_prototype this = Normal tt this')
    by (vm_compute; reflexivity).
  split; [reflexivity|]. split; [reflexivity|]. split; [exact Hwf|].
  split; [exact Hnone|]. split; [exact Hrun|].
  destruct (cleanFields_sorts_hookless_fields BaseForm_prototype this this'
              ErrorObject.new eq_refl eq_refl Hwf Hnone Hrun)
    as (eo' & cd' & He' & Hcd' & _ & Hsort).
  exists eo', cd'. split; [exact He'|]. split; [exact Hcd'|]. split.
  - exact (Hsort "name" _ eq_refl).
  - exact (Hsort "age" _ eq_refl).
Defined.

Lemma fullClean_steps_report P s eo cd :
  _errors s = Some eo -> cleanedData s = Some (VObj cd) ->
  exists eo1,
    _errors (state_of (_cleanFields P s)) = Some eo1 /\
    (_errors (state_of (fullClean_steps P s)) = Some eo1 \/
     exists st msgs,
       clean P st = Raise (ValidationError msgs) /\
       _errors (state_of (fullClean_steps P s)) =
       Some (ErrorObject.set eo1 NON_FIELD_ERRORS msgs)).
Proof.
  intros Herr Hcd. rewrite fullClean_steps_unfold.
  destruct (cleanFields_loop_slots P (fields s) s eo cd Herr Hcd)
    as (_ & _ & (eo1 & cd1 & He1 & Hcd1) & _).
  change (for_each (_cleanFields_body P) (fields s) s) with (_cleanFields P s) in *.
  exists eo1. split; [exact He1|].
  destruct (_cleanFields P s) as [[] s1|e s1]; cbn in He1, Hcd1; [|now left].
  pose proof (cleanForm_cases P s1 eo1 He1) as Hform.
  pose proof (postClean_cases P) as Hpost.
  destruct (clean P (record (CalledMethod "clean") s1)) as [v|[msgs|d]] eqn:Hclean;
    rewrite Hform; [| |now left].
  all: match goal with
    | |- context [invoke "_postClean" _ ?s2] =>
        specialize (Hpost s2);
        destruct (_postClean P (record (CalledMethod "_postClean") s2));
        rewrite Hpost
    end.
  all: unfold drop_cleaned_if_errors; autounfold with method_ops; cbn;
    rewrite ?He1; cbn; rewrite ?isPopulated_set; cbn.
  - left. destruct (ErrorObject.isPopulated eo1); exact He1.
  - now left.
  - right. eauto.
  - right. eauto.
Qed.

(** The report one turn of the loop leaves, for a field without a hook. *)
Lemma body_hookless_report P name f s eo cd :
  _errors s = Some eo -> cleanedData s = Some (VObj cd) -> hookless P name ->
  _errors (state_of (_cleanFields_body P (name, f) s)) =
  Some match field_clean s name f with
       | Raise (ValidationError msgs) => ErrorObject.set eo name msgs
       | _ => eo
       end.
Proof.
  intros Herr Hcd Hhook.
  destruct (field_clean s name f) as [v|[msgs|d]] eqn:Hfc.
  - rewrite (body_hookless_return P name f s cd v Hcd Hfc Hhook). exact Herr.
  - destruct (body_validation_error P name f s eo cd msgs Herr Hcd Hfc)
      as (s' & cd' & Hb & He & _).
    rewrite Hb. exact He.
  - rewrite (body_defect P name f s d Hfc). exact Herr.
Qed.

(** With no field having a hook, whatever the loop adds to the report is
    what a field's [clean] raised, under that field's name. *)
Lemma cleanFields_loop_report P l : forall s eo cd,
  _errors s = Some eo -> cleanedData s = Some (VObj cd) ->
  (forall name f, In (name, f) l -> hookless P name) ->
  exists eo',
    _errors (state_of (for_each (_cleanFields_body P) l s)) = Some eo' /\
    forall k msgs, ErrorObject.get eo' k = Some msgs ->
      ErrorObject.get eo k = Some msgs \/
      exists f, In (k, f) l /\ field_clean s k f = Raise (ValidationError msgs).
Proof.
  induction l as [|[n f] l IH]; intros s eo cd Herr Hcd Hhooks.
  - exists eo. cbn. split; [exact Herr|]. intros k msgs Hget. now left.
  - cbn [for_each]. unfold bind.
    destruct (body_summary P n f s eo cd Herr Hcd)
      as (Hc1 & _ & _ & eo1 & cd1 & He1 & Hcd1 & _).
    pose proof (body_hookless_report P n f s eo cd Herr Hcd
                  (Hhooks n f (or_introl eq_refl))) as Hrep.
    rewrite He1 in Hrep. injection Hrep as Hrep.
    assert (Hfirst : forall k msgs, ErrorObject.get eo1 k = Some msgs ->
              ErrorObject.get eo k = Some msgs \/
              (k = n /\ field_clean s n f = Raise (ValidationError msgs))).
    { intros k msgs Hget. rewrite Hrep in Hget.
      destruct (field_clean s n f) as [v|[msgs0|d]]; [now left| |now left].
      destruct (string_dec n k) as [<-|Hne].
      - unfold ErrorObject.get, ErrorObject.set in Hget.
        rewrite get_set_same in Hget. injection Hget as ->. now right.
      - unfold ErrorObject.get, ErrorObject.set in Hget.
        rewrite get_set_other in Hget by exact Hne. now left. }
    destruct (_cleanFields_body P (n, f) s) as [[] s1|e s1];
      cbn in Hc1, He1, Hcd1.
    + destruct (IH s1 eo1 cd1 He1 Hcd1) as (eo' & He' & Hsrc).
      { intros name g Hin. apply (Hhooks name g). now right. }
      exists eo'. split; [exact He'|]. intros k msgs Hget.
      destruct (Hsrc k msgs Hget) as [Hold|(g & Hin & Hfc)].
      * destruct (Hfirst k msgs Hold) as [Hk|[-> Hfc]]; [now left|].
        right. exists f. split; [now left|exact Hfc].
      * right. exists g. split; [now right|].
        now rewrite <- (field_clean_config s1 s k g Hc1).
    + exists eo1. cbn. split; [exact He1|]. intros k msgs Hget.
      destruct (Hfirst k msgs Hget) as [Hk|[-> Hfc]]; [now left|].
      right. exists f. split; [now left|exact Hfc].
Qed.

(** For a form whose author added no cleaning method, the report
    [fullClean] leaves holds what the fields' [clean] raised and nothing
    else. *)
Lemma unhooked_report P this :
  unhooked P this ->
  exists eo,
    _errors (state_of (fullClean P this)) = Some eo /\
    forall k l, ErrorObject.get eo k = Some l ->
      isBound this = true /\
      exists f, In (k, f) (fields this) /\
                field_clean this k f = Raise (ValidationError l).
Proof.
  intros Hplain.
  destruct (isBound this) eqn:Hb.
  - pose proof (fullClean_bound P this Hb) as H.
    destruct (cleaning_starts this) as [s0|].
    + destruct H as (Hrun & He0 & Hcd0 & Hc0 & _). rewrite Hrun.
      assert (Hf0 : fields s0 = fields this).
      { unfold config in Hc0. now injection Hc0. }
      destruct (fullClean_steps_report P s0 _ _ He0 Hcd0) as (eo1 & He1 & Hcases).
      destruct (cleanFields_loop_report P (fields s0) s0 _ _ He0 Hcd0)
        as (eo1' & He1' & Hsrc).
      { intros name f Hin. rewrite Hf0 in Hin.
        exact (unhooked_field P this name f Hplain Hin). }
      change (for_each (_cleanFields_body P) (fields s0) s0)
        with (_cleanFields P s0) in He1'.
      rewrite He1 in He1'. injection He1' as <-.
      destruct Hcases as [He|(st & msgs & Hclean & _)].
      * exists eo1. split; [exact He|]. intros k l Hget. split; [reflexivity|].
        destruct (Hsrc k l Hget) as [Hnew|(f & Hin & Hfc)]; [discriminate|].
        exists f. split; [now rewrite <- Hf0|].
        now rewrite <- (field_clean_config s0 this k f Hc0).
      * destruct Hplain as (Hcl & _). rewrite Hcl in Hclean.
        now apply BaseForm_clean_returns in Hclean.
    + destruct H as (_ & s' & _ & Hrun & He & _). rewrite Hrun.
      exists ErrorObject.new. split; [exact He|]. intros k l Hget. discriminate.
  - rewrite (fullClean_unbound P this Hb). cbn.
    exists ErrorObject.new. split; [reflexivity|]. intros k l Hget. discriminate.
Qed.

(** X3.  For a form whose author added no cleaning method, however
    [fullClean] ends, the instance then has a report, and whatever the
    report holds under a key is the messages of a [ValidationError] that the
    [clean] of the field of that name raised; an unbound instance's report
    holds nothing. *)
Theorem report_holds_what_the_fields_raised (P : Proto) (this : FormInstance) :
  unhooked P this ->
  exists eo,
    _errors (state_of (fullClean P this)) = Some eo /\
    (forall k l, ErrorObject.get eo k = Some l ->
       exists f, In (k, f) (fields this) /\
                 field_clean this k f = Raise (ValidationError l)) /\
    (isBound this = false -> eo = ErrorObject.new).
Proof.
  intros Hplain.
  destruct (unhooked_report P this Hplain) as (eo & He & Hsrc).
  exists eo. split; [exact He|]. split.
  - intros k l Hget. now destruct (Hsrc k l Hget).
  - intros Hb. rewrite (fullClean_unbound P this Hb) in He. cbn in He. congruence.
Qed.

Lemma report_holds_what_the_fields_raised_witness :
  unhooked BaseForm_prototype Sample.nameless_form /\
  exists eo,
    _errors (state_of (fullClean BaseForm_prototype Sample.nameless_form)) = Some eo /\
    Obj.keys eo = ["name"] /\
    exists f, In ("name", f) (fields Sample.nameless_form) /\
              field_clean Sample.nameless_form "name" f =
                Raise (ValidationError Sample.required_message).
Proof.
  assert (Hplain : unhooked BaseForm_prototype Sample.nameless_form).
  { split; [reflexivity|]. split; [reflexivity|].
    intros name [<-|[<-|[]]]; repeat split. }
  split; [exact Hplain|].
  destruct (report_holds_what_the_fields_raised BaseForm_prototype
              Sample.nameless_form Hplain) as (eo & He & Hsrc & _).
  exists eo. split; [exact He|].
  assert (Heo : eo = [("name", Sample.required_message)]).
  { vm_compute in He. now injection He. }
  split; [now rewrite Heo|].
  apply (Hsrc "name" Sample.required_message). now rewrite Heo.
Defined.

(** X4.  For a form whose author added no cleaning method and that has no
    field called ["__all__"], [nonFieldErrors], on an instance not validated
    before, returns the empty list and leaves the instance as [fullClean]
    does; it throws only what [fullClean] throws. *)
Theorem nonFieldErrors_of_a_form_without_clean
  (P : Proto) (this : FormInstance) :
  _errors this = None ->
  unhooked P this ->
  ~ In "__all__" (Obj.keys (fields this)) ->
  match nonFieldErrors P this with
  | Normal l this' => l = [] /\ fullClean P this = Normal tt this'
  | Thrown e this' => fullClean P this = Thrown e this'
  end.
Proof.
  intros Hfirst Hplain Hnofield.
  destruct (unhooked_report P this Hplain) as (eo & He & Hsrc).
  cbv beta iota delta [nonFieldErrors errors bind get_this ret].
  rewrite Hfirst.
  destruct (fullClean P this) as [[] t|e t] eqn:Hfull; cbv beta iota;
    [|reflexivity].
  cbn in He. rewrite He. cbn [truthy_name NON_FIELD_ERRORS]. cbv beta iota.
  destruct (ErrorObject.get eo NON_FIELD_ERRORS) as [l|] eqn:Hget; cbv beta iota.
  - exfalso. destruct (Hsrc _ l Hget) as (_ & f & Hin & _).
    apply Hnofield. apply (in_map fst) in Hin. exact Hin.
  - split; reflexivity.
Qed.

Lemma nonFieldErrors_of_a_form_without_clean_witness :
  _errors Sample.nameless_form = None /\
  unhooked BaseForm_prototype Sample.nameless_form /\
  ~ In "__all__" (Obj.keys (fields Sample.nameless_form)) /\
  exists this',
    nonFieldErrors BaseForm_prototype Sample.nameless_form = Normal [] this' /\
    fullClean BaseForm_prototype Sample.nameless_form = Normal tt this'.
Proof.
  assert (Hplain : unhooked BaseForm_prototype Sample.nameless_form).
  { split; [reflexivity|]. split; [reflexivity|].
    intros name [<-|[<-|[]]]; repeat split. }
  assert (Hno : ~ In "__all__" (Obj.keys (fields Sample.nameless_form)))
    by (cbn; intuition discriminate).
  split; [reflexivity|]. split; [exact Hplain|]. split; [exact Hno|].
  pose proof (nonFieldErrors_of_a_form_without_clean BaseForm_prototype
                Sample.nameless_form eq_refl Hplain Hno) as H.
  destruct (nonFieldErrors BaseForm_prototype Sample.nameless_form)
    as [l this'|e this'] eqn:Hrun.
  - destruct H as [-> Hfull]. exists this'. split; [reflexivity|exact Hfull].
  - vm_compute in Hrun. discriminate.
Defined.

Lemma fullClean_bound_normal P this t :
  isBound this = true ->
  fullClean P this = Normal tt t ->
  exists eo,
    _errors t = Some eo /\
    isSome (cleanedData t) = negb (ErrorObject.isPopulated eo).
Proof.
  intros Hb Hrun. pose proof (fullClean_bound P this Hb) as H.
  destruct (cleaning_starts this) as [s0|].
  - destruct H as (Hsteps & He0 & Hcd0 & _). rewrite Hsteps in Hrun.
    pose proof (fullClean_steps_summary P s0 _ _ He0 Hcd0) as Hsum.
    cbv zeta in Hsum. rewrite Hrun in Hsum. cbn in Hsum.
    destruct Hsum as (_ & _ & eo & He & Hiff). eauto.
  - destruct H as (_ & s' & _ & Hshort & He & Hcd & _). rewrite Hshort in Hrun.
    injection Hrun as <-. exists ErrorObject.new. split; [exact He|].
    now rewrite Hcd.
Qed.

(** X5.  [isValid], on an instance not validated before: when it returns,
    it returns [true] exactly when the instance then has a [cleanedData]
    property, it returns [true] only for a bound instance, and it leaves an
    unbound instance untouched; when it throws, it throws what [fullClean]
    throws. *)
Theorem isValid_tells_whether_cleanedData_exists (P : Proto) (this : FormInstance) :
  _errors this = None ->
  cleanedData this = None ->
  match isValid P this with
  | Normal b this' =>
      (b = true <-> exists v, cleanedData this' = Some v) /\
      (b = true -> isBound this = true) /\
      (isBound this = false -> this' = this)
  | Thrown e this' =>
      isBound this = true /\ fullClean P this = Thrown e this'
  end.
Proof.
  intros Hfirst Hnone. cbv beta iota delta [isValid errors bind get_this ret].
  destruct (isBound this) eqn:Hb; cbv beta iota delta [negb].
  - rewrite Hfirst.
    destruct (fullClean P this) as [[] t|e t] eqn:Hrun; cbv beta iota; [|now split].
    destruct (fullClean_bound_normal P this t Hb Hrun) as (eo & He & Hiff).
    rewrite He. cbn [truthy_name]. cbv beta iota.
    split; [|split; [reflexivity|discriminate]].
    destruct (cleanedData t) as [v|], (ErrorObject.isPopulated eo);
      cbn in Hiff |- *; try discriminate.
    + split; eauto.
    + split; [discriminate|]. intros [v Hv]. discriminate.
  - rewrite Hnone. split; [|split; [discriminate|reflexivity]].
    split; [discriminate|]. intros [v Hv]. discriminate.
Qed.

Lemma isValid_tells_whether_cleanedData_exists_witness :
  _errors Sample.nameless_form = None /\
  cleanedData Sample.nameless_form = None /\
  exists this',
    isValid BaseForm_prototype Sample.nameless_form = Normal false this' /\
    cleanedData this' = None.
Proof.
  split; [reflexivity|]. split; [reflexivity|].
  pose proof (isValid_tells_whether_cleanedData_exists BaseForm_prototype
                Sample.nameless_form eq_refl eq_refl) as H.
  assert (Hrun : isValid BaseForm_prototype Sample.nameless_form =
                 Normal false (state_of (isValid BaseForm_prototype
                                           Sample.nameless_form)))
    by (vm_compute; reflexivity).
  rewrite Hrun in H. destruct H as (Hiff & _).
  eexists. split; [exact Hrun|].
  destruct (cleanedData (state_of (isValid BaseForm_prototype Sample.nameless_form)))
    as [v|] eqn:Hcd; [|reflexivity].
  assert (Hf : false = true) by (apply Hiff; eauto). discriminate.
Defined.

Section BoundFieldListFacts.
Variable prettyName : string -> string.

Lemma boundFields_loop_filter form test l :
  boundFields_loop prettyName form test l =
  map (fun e => BoundField prettyName form (snd e) (fst e))
      (filter (fun e => isTrue (test (snd e) (fst e))) l).
Proof.
  induction l as [|[n f] l IH]; cbn; [reflexivity|].
  destruct (isTrue (test f n)); cbn; now rewrite IH.
Qed.

Lemma boundFields_loop_by_flag form (flag : Field.t -> bool) l :
  boundFields_loop prettyName form (fun field _ => VBool (flag field)) l =
  filter (fun bf => flag (BoundField.field bf))
         (boundFields_loop prettyName form (fun _ _ => VBool true) l).
Proof.
  induction l as [|[n f] l IH]; cbn; [reflexivity|].
  destruct (flag f) eqn:E; cbn; rewrite ?E; now rewrite IH.
Qed.

Lemma filter_partition_perm {A : Type} (p : A -> bool) (l : list A) :
  Permutation (filter p l ++ filter (fun x => negb (p x)) l) l.
Proof.
  induction l as [|x l IH]; cbn; [constructor|].
  destruct (p x); cbn.
  - now constructor.
  - etransitivity; [symmetry; apply Permutation_middle|]. now constructor.
Qed.

(** X6.  [hiddenFields] and [visibleFields] are the hidden and the visible
    among the bound fields that [boundFields()] lists, each in the same
    order; [boundFields()] lists one bound field per field, in declaration
    order; so every field is in exactly one of the two lists.  A test that
    never answers exactly [true] selects nothing. *)
Theorem hidden_and_visible_fields_split_the_fields (this : FormInstance) :
  hiddenFields prettyName this =
    filter BoundField_isHidden (boundFields prettyName None this) /\
  visibleFields prettyName this =
    filter (fun bf => negb (BoundField_isHidden bf)) (boundFields prettyName None this) /\
  map BoundField.name (boundFields prettyName None this) = Obj.keys (fields this) /\
  Permutation (hiddenFields prettyName this ++ visibleFields prettyName this)
              (boundFields prettyName None this) /\
  (forall test : Field.t -> string -> Value,
     (forall f n, test f n <> VBool true) ->
     boundFields prettyName (Some test) this = []).
Proof.
  assert (Hh : hiddenFields prettyName this =
               filter BoundField_isHidden (boundFields prettyName None this)).
  { unfold hiddenFields, boundFields, orAlways.
    apply (boundFields_loop_by_flag this (fun f => Widget.isHidden (Field.widget f))). }
  assert (Hv : visibleFields prettyName this =
               filter (fun bf => negb (BoundField_isHidden bf))
                      (boundFields prettyName None this)).
  { unfold visibleFields, boundFields, orAlways.
    apply (boundFields_loop_by_flag this
             (fun f => negb (Widget.isHidden (Field.widget f)))). }
  split; [exact Hh|]. split; [exact Hv|]. split; [|split].
  - unfold boundFields, orAlways.
    induction (fields this) as [|[n f] l IH]; cbn; [reflexivity|].
    f_equal. exact IH.
  - rewrite Hh, Hv. apply filter_partition_perm.
  - intros test Htest. unfold boundFields, orAlways.
    induction (fields this) as [|[n f] l IH]; cbn; [reflexivity|].
    destruct (test f n) as [| |[|]| | |] eqn:E; cbn; try exact IH.
    exfalso. exact (Htest f n E).
Qed.

Lemma boundFieldsObj_loop l : forall this acc,
  NoDup (Obj.keys acc ++ map fst l) ->
  fold_left
    (fun acc (entry : string * Field.t) =>
       let (name, field) := entry in
       if isTrue (orAlways None field name)
       then Obj.set acc name (BoundField prettyName this field name)
       else acc)
    l acc =
  acc ++ map (fun e => (fst e, BoundField prettyName this (snd e) (fst e))) l.
Proof.
  induction l as [|[n f] l IH]; intros this acc Hnd; cbn [fold_left map fst snd].
  - now rewrite app_nil_r.
  - cbn [orAlways isTrue].
    assert (Hn : ~ In n (Obj.keys acc)).
    { intros Hin. apply NoDup_remove_2 in Hnd. apply Hnd.
      apply in_or_app. now left. }
    rewrite (set_new acc n _ Hn).
    transitivity ((acc ++ [(n, BoundField prettyName this f n)]) ++
                  map (fun e => (fst e, BoundField prettyName this (snd e) (fst e))) l).
    + apply IH. unfold Obj.keys in *. rewrite map_app, <- app_assoc. exact Hnd.
    + now rewrite <- app_assoc.
Qed.

Lemma get_map_bound this l name :
  Obj.get (map (fun e : string * Field.t =>
                  (fst e, BoundField prettyName this (snd e) (fst e))) l) name =
  match Obj.get l name with
  | Some f => Some (BoundField prettyName this f name)
  | None => None
  end.
Proof.
  induction l as [|[n f] l IH]; cbn; [reflexivity|].
  destruct (String.eqb n name) eqn:E; [|exact IH].
  apply String.eqb_eq in E. now subst.
Qed.

(** X7.  [boundField(name)] returns a bound field exactly when
    [boundFields()] lists it under that name, and exactly when
    [boundFieldsObj()] holds it under that name; [boundFieldsObj()] pairs
    each field name, in declaration order, with its bound field. *)
Theorem boundField_agrees_with_boundFields (this : FormInstance) (name : string) :
  Obj.wf (fields this) ->
  (forall bf,
     boundField prettyName name this = Normal bf this <->
     In bf (boundFields prettyName None this) /\ BoundField.name bf = name) /\
  boundFieldsObj prettyName None this =
    map (fun e => (fst e, BoundField prettyName this (snd e) (fst e))) (fields this) /\
  Obj.keys (boundFieldsObj prettyName None this) = Obj.keys (fields this) /\
  (forall bf,
     Obj.get (boundFieldsObj prettyName None this) name = Some bf <->
     boundField prettyName name this = Normal bf this).
Proof.
  intros Hwf.
  assert (Hbf : forall bf,
             boundField prettyName name this = Normal bf this <->
             exists f, Obj.get (fields this) name = Some f /\
                       bf = BoundField prettyName this f name).
  { intros bf. unfold boundField, Obj.hasOwnProperty, bind, get_this, ret, throw.
    destruct (Obj.get (fields this) name) as [f|]; cbn.
    - split.
      + intros [= <-]. eauto.
      + intros (g & [= <-] & ->). reflexivity.
    - split; [discriminate|]. intros (g & Hg & _). discriminate. }
  assert (Hobj : boundFieldsObj prettyName None this =
                 map (fun e => (fst e, BoundField prettyName this (snd e) (fst e)))
                     (fields this)).
  { unfold boundFieldsObj. now rewrite boundFieldsObj_loop. }
  split; [|split; [exact Hobj|split]].
  - intros bf. rewrite Hbf. unfold boundFields, orAlways.
    rewrite boundFields_loop_filter. cbn [isTrue].
    rewrite in_map_iff. split.
    + intros (f & Hget & ->). split; [|reflexivity].
      exists (name, f). split; [reflexivity|].
      apply filter_In. split; [now apply get_Some_In|reflexivity].
    + intros [((n & f) & <- & Hin) Hname]. cbn in Hname. subst n.
      apply filter_In in Hin. destruct Hin as [Hin _].
      exists f. split; [now apply In_get_Some|reflexivity].
  - rewrite Hobj. unfold Obj.keys. rewrite map_map. reflexivity.
  - intros bf. rewrite Hbf, Hobj, get_map_bound.
    destruct (Obj.get (fields this) name) as [f|].
    + split; [intros [= <-]; eauto|intros (g & [= <-] & ->); reflexivity].
    + split; [discriminate|intros (g & Hg & _); discriminate].
Qed.
End BoundFieldListFacts.

(** X8.  After [fullClean] of a bound instance has cleaned the fields and
    returned, for a form whose author added no cleaning method: the bound
    field of a field answers [errors()] with the messages its field's
    [clean] raised, and with an empty list when [clean] returned, without
    changing the instance. *)
Theorem bound_field_errors_are_its_fields_messages
  (prettyName : string -> string) (P : Proto) (this s0 this' : FormInstance)
  (name : string) (f : Field.t) :
  isBound this = true ->
  cleaning_starts this = Some s0 ->
  Obj.wf (fields this) ->
  unhooked P this ->
  fullClean P this = Normal tt this' ->
  Obj.get (fields this) name = Some f ->
  boundField prettyName name this' =
    Normal (BoundField prettyName this' f name) this' /\
  BoundField_errors P (BoundField prettyName this' f name) this' =
    Normal (inl match field_clean this name f with
                | Raise (ValidationError msgs) => msgs
                | _ => []
                end) this'.
Proof.
  intros Hb Hstart Hwf Hplain Hrun Hget.
  assert (Hhook : hookless P name).
  { apply (unhooked_field P this name f Hplain). now apply get_Some_In. }
  assert (Hne : name <> "").
  { intros ->. destruct Hhook as [_ Hcamel]. discriminate. }
  pose proof (fullClean_bound P this Hb) as H. rewrite Hstart in H.
  destruct H as (Hsteps & He0 & Hcd0 & Hc0 & _).
  assert (Hf0 : fields s0 = fields this).
  { unfold config in Hc0. now injection Hc0. }
  rewrite Hsteps in Hrun.
  destruct (fullClean_steps_summary P s0 _ _ He0 Hcd0) as (Hc' & _ & _).
  destruct (fullClean_steps_report P s0 _ _ He0 Hcd0) as (eo1 & He1 & Hcases).
  rewrite Hrun in Hc', Hcases. cbn in Hc', Hcases.
  assert (Hf' : fields this' = fields this).
  { rewrite <- Hf0. unfold config in Hc'. now injection Hc'. }
  destruct (_cleanFields P s0) as [[] s1|e s1] eqn:Hfields.
  2: { rewrite fullClean_steps_unfold, Hfields in Hrun. discriminate. }
  cbn in He1.
  assert (Hwf0 : Obj.wf (fields s0)) by now rewrite Hf0.
  assert (Hin : In (name, f) (fields s0))
    by (rewrite Hf0; now apply get_Some_In).
  pose proof (cleanFields_loop P (fields s0) s0 _ _ He0 Hcd0 Hwf0) as Hloop.
  cbv zeta in Hloop.
  change (for_each (_cleanFields_body P) (fields s0) s0)
    with (_cleanFields P s0) in Hloop.
  rewrite Hfields in Hloop. cbn in Hloop.
  destruct Hloop as (_ & _ & eo1' & cd1 & He1' & Hcd1 & _ & Hdef & _ & Hve).
  rewrite He1 in He1'. injection He1' as <-.
  assert (Hsort :
    match field_clean this name f with
    | Return _ => ErrorObject.get eo1 name = None
    | Raise (ValidationError msgs) => ErrorObject.get eo1 name = Some msgs
    | Raise (Defect _) => False
    end).
  { rewrite <- (field_clean_config s0 this name f Hc0).
    destruct (field_clean s0 name f) as [v|[msgs|d]] eqn:Hfc.
    - destruct (cleanFields_loop_hookless P (fields s0) s0 _ _ s1
                  He0 Hcd0 Hwf0 Hfields name f v Hin Hhook Hfc)
        as (eo2 & cd2 & He2 & _ & A & _).
      rewrite He1 in He2. injection He2 as <-. exact A.
    - now destruct (Hve name f msgs Hin Hfc).
    - destruct (Hdef name f d Hin Hfc) as [(e & s' & Hthrown) _]. discriminate. }
  assert (He : _errors this' = Some eo1).
  { destruct Hcases as [He|(st & msgs & Hclean & _)]; [exact He|].
    destruct Hplain as (Hcl & _). rewrite Hcl in Hclean.
    now apply BaseForm_clean_returns in Hclean. }
  split.
  - unfold boundField, Obj.hasOwnProperty, bind, get_this, ret, throw.
    now rewrite Hf', Hget.
  - unfold BoundField_errors, bind, ret. rewrite (errors_memo P _ this' eo1 He).
    cbn [BoundField.name BoundField].
    assert (Ht : truthy_name (Some name) = Some name).
    { destruct name; [contradiction|reflexivity]. }
    rewrite Ht.
    destruct (field_clean this name f) as [v|[msgs|d]].
    + rewrite Hsort. reflexivity.
    + rewrite Hsort. reflexivity.
    + destruct Hsort.
Qed.

Lemma bound_field_errors_are_its_fields_messages_witness :
  let this := Sample.nameless_form in
  let this' := state_of (fullClean BaseForm_prototype this) in
  isBound this = true /\
  cleaning_starts this = Some (fresh this) /\
  Obj.wf (fields this) /\
  unhooked BaseForm_prototype this /\
  fullClean BaseForm_prototype this = Normal tt this' /\
  BoundField_errors BaseForm_prototype
    (BoundField (fun n => n) this' (Sample.CharField true 1) "name") this' =
  Normal (inl Sample.required_message) this'.
Proof.
  intros this this'.
  assert (Hwf : Obj.wf (fields this)).
  { repeat constructor; cbn; intuition discriminate. }
  assert (Hplain : unhooked BaseForm_prototype this).
  { split; [reflexivity|]. split; [reflexivity|].
    intros name [<-|[<-|[]]]; repeat split. }
  assert (Hrun : fullClean BaseForm_prototype this = Normal tt this')
    by (vm_compute; reflexivity).
  split; [reflexivity|]. split; [reflexivity|]. split; [exact Hwf|].
  split; [exact Hplain|]. split; [exact Hrun|].
  apply (bound_field_errors_are_its_fields_messages (fun n => n) BaseForm_prototype
           this (fresh this) this' "name" (Sample.CharField true 1)
           eq_refl eq_refl Hwf Hplain Hrun eq_refl).
Defined.

(** What [fullClean] does to what [changedData] depends on. *)
Lemma fullClean_cache P this :
  let t := state_of (fullClean P this) in
  config t = config this /\
  (_changedData t = _changedData this \/
   exists l s, changedData this = Normal l s /\ _changedData t = Some l).
Proof.
  intros t. subst t.
  destruct (isBound this) eqn:Hb.
  2: { rewrite (fullClean_unbound P this Hb). cbn. split; [reflexivity|now left]. }
  assert (Hstart :
    match cleaning_starts this with
    | Some s0 =>
        fullClean P this = fullClean_steps P s0 /\
        _errors s0 = Some ErrorObject.new /\
        cleanedData s0 = Some (VObj Obj.empty) /\
        config s0 = config this /\
        (_changedData s0 = _changedData this \/
         exists l s, changedData this = Normal l s /\ _changedData s0 = Some l)
    | None =>
        exists s', fullClean P this = Normal tt s' /\
          config s' = config this /\
          (_changedData s' = _changedData this \/
           exists l s, changedData this = Normal l s /\ _changedData s' = Some l)
    end).
  { unfold cleaning_starts, fullClean, bind, modify, get_this, ret. cbn.
    rewrite Hb. cbn. fold (fresh this).
    destruct (emptyPermitted this).
    - destruct (hasChanged_frame (fresh this))
        as (l & s' & Hrun & Hcd' & Hc & He & Hcd & Hch & _).
      destruct (changedData_frame this) as (l0 & s0 & Hrun0 & _).
      destruct (changedData_result_config this (fresh this) l0 s0 eq_refl eq_refl Hrun0)
        as (sb & Hfresh).
      rewrite Hfresh in Hcd'. injection Hcd' as <- <-.
      rewrite Hrun. destruct (0 <? List.length l0)%nat; cbn.
      + repeat split; try assumption. right. eauto.
      + exists sb. repeat split; try assumption. right. eauto.
    - repeat split. now left. }
  destruct (cleaning_starts this) as [s0|].
  - destruct Hstart as (Hrun & He0 & Hcd0 & Hc0 & Hcache). rewrite Hrun.
    destruct (fullClean_steps_summary P s0 _ _ He0 Hcd0) as (Hc & Hch & _).
    split; [congruence|].
    destruct Hcache as [Hsame|(l & s & Hl & Hsome)].
    + left. congruence.
    + right. exists l, s. split; [exact Hl|congruence].
  - destruct Hstart as (s' & Hrun & Hc & Hcache). rewrite Hrun. cbn. now split.
Qed.

(** X9.  [changedData] returns the same list whether it is asked before
    or after [fullClean], [errors] or [isValid], however those end. *)
Theorem changedData_is_the_same_after_validation
  (P : Proto) (this : FormInstance) :
  exists l,
    (exists s, changedData this = Normal l s) /\
    (exists s, changedData (state_of (fullClean P this)) = Normal l s) /\
    (forall name, exists s,
        changedData (state_of (errors P name this)) = Normal l s) /\
    (exists s, changedData (state_of (isValid P this)) = Normal l s).
Proof.
  destruct (changedData_frame this) as (l & s & Hrun & _).
  assert (Hafter : exists s',
             changedData (state_of (fullClean P this)) = Normal l s').
  { destruct (fullClean_cache P this) as [Hc [Hsame|(l2 & s2 & Hl2 & Hsome)]].
    - apply (changedData_result_config this _ l s); [now symmetry|now symmetry|exact Hrun].
    - rewrite Hrun in Hl2. injection Hl2 as <- <-.
      eexists. apply changedData_memo. exact Hsome. }
  assert (Herrors : forall name, exists s',
             changedData (state_of (errors P name this)) = Normal l s').
  { intros name. rewrite errors_state. destruct (_errors this); eauto. }
  exists l. split; [eauto|]. split; [exact Hafter|]. split; [exact Herrors|].
  cbv beta iota delta [isValid bind get_this ret].
  destruct (isBound this); cbv beta iota delta [negb]; [|eauto].
  destruct (Herrors None) as [s' Hs'].
  destruct (errors P None this) as [[eo| |] t|e t]; cbn in Hs' |- *; eauto.
Qed.

Lemma sorted_by_counter_unique l1 : forall l2,
  StronglySorted created_before l1 ->
  StronglySorted created_before l2 ->
  Permutation l1 l2 ->
  NoDup (map (fun e : string * Field.t => Field.creationCounter (snd e)) l1) ->
  l1 = l2.
Proof.
  induction l1 as [|x l1 IH]; intros l2 Hs1 Hs2 Hperm Hnd.
  - apply Permutation_nil in Hperm. now subst.
  - destruct l2 as [|y l2].
    { symmetry in Hperm. apply Permutation_nil in Hperm. discriminate. }
    apply StronglySorted_inv in Hs1. destruct Hs1 as [Hs1 Hx].
    apply StronglySorted_inv in Hs2. destruct Hs2 as [Hs2 Hy].
    inversion Hnd as [|? ? Hnotin Hnd']; subst.
    assert (Hxy : x = y).
    { assert (Hin1 : In x (y :: l2))
        by (eapply Permutation_in; [exact Hperm|now left]).
      assert (Hin2 : In y (x :: l1))
        by (eapply Permutation_in; [symmetry; exact Hperm|now left]).
      destruct Hin1 as [Heq|Hin1]; [now symmetry|].
      destruct Hin2 as [Heq|Hin2]; [exact Heq|].
      exfalso. apply Hnotin.
      rewrite Forall_forall in Hx, Hy.
      specialize (Hx y Hin2). specialize (Hy x Hin1).
      unfold created_before in Hx, Hy.
      assert (Heq : Field.creationCounter (snd x) = Field.creationCounter (snd y))
        by lia.
      rewrite Heq.
      apply (in_map (fun e : string * Field.t => Field.creationCounter (snd e))) in Hin2.
      exact Hin2. }
    subst y. f_equal.
    apply IH; try assumption. eapply Permutation_cons_inv. exact Hperm.
Qed.

(** X11.  When the inline fields have pairwise different creation
    counters, the constructor [Form] builds is the same in whatever order
    the entries of [kwargs] are enumerated. *)
Theorem Form_ignores_the_enumeration_order
  (bases : list Constructor) (kwargs kwargs' : Obj.t KwValue) :
  Permutation (declared_fields kwargs) (declared_fields kwargs') ->
  NoDup (map (fun e : string * Field.t => Field.creationCounter (snd e))
             (declared_fields kwargs)) ->
  sort_by_creationCounter (declared_fields kwargs) =
    sort_by_creationCounter (declared_fields kwargs') /\
  Form bases kwargs = Form bases kwargs'.
Proof.
  intros Hperm Hnd.
  assert (Hsort : sort_by_creationCounter (declared_fields kwargs) =
                  sort_by_creationCounter (declared_fields kwargs')).
  { apply sorted_by_counter_unique.
    - apply sort_by_creationCounter_sorted.
    - apply sort_by_creationCounter_sorted.
    - rewrite !sort_by_creationCounter_perm. exact Hperm.
    - eapply Permutation_NoDup; [|exact Hnd].
      apply Permutation_map. symmetry. apply sort_by_creationCounter_perm. }
  split; [exact Hsort|]. unfold Form. now rewrite Hsort.
Qed.

Lemma Form_ignores_the_enumeration_order_witness :
  let kw := [("c", KwField Sample.fc); ("clean", KwOther); ("b", KwField Sample.fb')] in
  let kw' := [("b", KwField Sample.fb'); ("c", KwField Sample.fc); ("clean", KwOther)] in
  Permutation (declared_fields kw) (declared_fields kw') /\
  NoDup (map (fun e : string * Field.t => Field.creationCounter (snd e))
             (declared_fields kw)) /\
  Form [Sample.ParentP] kw = Form [Sample.ParentP] kw'.
Proof.
  intros kw kw'.
  assert (Hperm : Permutation (declared_fields kw) (declared_fields kw'))
    by apply perm_swap.
  assert (Hnd : NoDup (map (fun e : string * Field.t => Field.creationCounter (snd e))
                           (declared_fields kw))).
  { repeat constructor; cbn; intuition discriminate. }
  split; [exact Hperm|]. split; [exact Hnd|].
  apply (Form_ignores_the_enumeration_order [Sample.ParentP] kw kw' Hperm Hnd).
Defined.

Lemma fold_set_append {V : Type} (l : list (string * V)) : forall acc,
  NoDup (Obj.keys acc ++ map fst l) ->
  fold_left (fun o kv => Obj.set o (fst kv) (snd kv)) l acc = acc ++ l.
Proof.
  induction l as [|[k v] l IH]; intros acc Hnd; cbn [fold_left fst snd].
  - now rewrite app_nil_r.
  - assert (Hk : ~ In k (Obj.keys acc)).
    { intros Hin. apply NoDup_remove_2 in Hnd. apply Hnd.
      apply in_or_app. now left. }
    rewrite (set_new acc k v Hk), IH.
    + now rewrite <- app_assoc.
    + unfold Obj.keys in *. rewrite map_app, <- app_assoc. exact Hnd.
Qed.

Lemma itemsToObject_objectItems {V : Type} (o : Obj.t V) :
  Obj.wf o -> itemsToObject (objectItems o) = o.
Proof.
  intros Hwf. unfold itemsToObject, objectItems. now rewrite fold_set_append.
Qed.

(** X10.  For ordinary names: composing one parent with no inline fields
    gives the parent's fields back, and doing so again changes nothing;
    composing [BaseForm] with inline fields of distinct names gives those
    fields sorted by creation counter. *)
Theorem Form_without_new_fields_keeps_the_fields
  (P : Constructor) (bf : Obj.t Field.t) (kwargs : Obj.t KwValue) :
  declared_fields kwargs = [] ->
  baseFields P = Some bf ->
  Obj.wf bf ->
  ordinary_names (Obj.keys kwargs ++ Obj.keys bf) ->
  baseFields (Form [P] kwargs) = Some bf /\
  baseFields (Form [Form [P] kwargs] kwargs) = Some bf /\
  (forall kw0,
     NoDup (map fst (declared_fields kw0)) ->
     ordinary_names (Obj.keys kw0) ->
     baseFields (Form [BaseForm_constructor] kw0) =
       Some (sort_by_creationCounter (declared_fields kw0))).
Proof.
  intros Hnone HP Hwf _.
  assert (H1 : baseFields (Form [P] kwargs) = Some bf).
  { unfold Form, prepend_bases. cbn [fold_right baseFields].
    rewrite HP, Hnone. cbn [sort_by_creationCounter fold_right].
    rewrite app_nil_r. now rewrite itemsToObject_objectItems. }
  split; [exact H1|]. split.
  - unfold Form at 1. unfold prepend_bases. cbn [fold_right]. rewrite H1, Hnone.
    cbn [baseFields sort_by_creationCounter fold_right].
    rewrite app_nil_r. now rewrite itemsToObject_objectItems.
  - intros kw0 Hnd _. unfold Form, prepend_bases.
    cbn [fold_right baseFields BaseForm_constructor]. f_equal.
    apply (itemsToObject_objectItems (sort_by_creationCounter (declared_fields kw0))).
    unfold Obj.wf, Obj.keys.
    eapply Permutation_NoDup; [|exact Hnd].
    apply Permutation_map. symmetry. apply sort_by_creationCounter_perm.
Qed.

Lemma Form_without_new_fields_keeps_the_fields_witness :
  declared_fields [("clean", KwOther)] = [] /\
  baseFields Sample.ParentP = Some [("a", Sample.fa); ("b", Sample.fb)] /\
  Obj.wf [("a", Sample.fa); ("b", Sample.fb)] /\
  ordinary_names ["clean"; "a"; "b"] /\
  baseFields (Form [Sample.ParentP] [("clean", KwOther)]) =
    Some [("a", Sample.fa); ("b", Sample.fb)] /\
  baseFields (Form [BaseForm_constructor]
                [("b", KwField Sample.fb); ("a", KwField Sample.fa)]) =
    Some [("a", Sample.fa); ("b", Sample.fb)].
Proof.
  assert (Hwf : Obj.wf [("a", Sample.fa); ("b", Sample.fb)]).
  { repeat constructor; cbn; intuition discriminate. }
  assert (Hnames : ordinary_names ["clean"; "a"; "b"]) by (repeat constructor).
  split; [reflexivity|]. split; [reflexivity|]. split; [exact Hwf|].
  split; [exact Hnames|].
  destruct (Form_without_new_fields_keeps_the_fields Sample.ParentP _
              [("clean", KwOther)] eq_refl eq_refl Hwf Hnames) as (Hsame & _ & Hsorted).
  split; [exact Hsame|].
  rewrite (Hsorted [("b", KwField Sample.fb); ("a", KwField Sample.fa)]);
    [reflexivity| |repeat constructor].
  repeat constructor; cbn; intuition discriminate.
Defined.

Lemma append_length (a b : string) :
  String.length (String.append a b) = (String.length a + String.length b)%nat.
Proof.
  induction a as [|c a IH]; cbn; [reflexivity|now rewrite IH].
Qed.

Lemma append_cancel_l (p a b : string) :
  String.append p a = String.append p b -> a = b.
Proof.
  induction p as [|c p IH]; cbn; [auto|]. intros [= H]. auto.
Qed.

Lemma append_cancel_r (a : string) : forall b s,
  String.append a s = String.append b s -> a = b.
Proof.
  induction a as [|c a IH]; intros b s H.
  - destruct b as [|c' b]; [reflexivity|].
    apply (f_equal String.length) in H. cbn in H. rewrite append_length in H. lia.
  - destruct b as [|c' b].
    + apply (f_equal String.length) in H. cbn in H. rewrite append_length in H. lia.
    + cbn in H. injection H as -> H. f_equal. eapply IH. exact H.
Qed.

Lemma append_assoc (a b c : string) :
  String.append (String.append a b) c = String.append a (String.append b c).
Proof.
  induction a as [|x a IH]; cbn; [reflexivity|now rewrite IH].
Qed.

(** X12.  Within one instance [addPrefix] and [addInitialPrefix] give
    different names to different fields, and two instances with different
    prefixes give different names to the same field.  Names of different
    fields of instances with different prefixes can coincide (prefix [p],
    field [n-m], and prefix [p-n], field [m]), and without a prefix the
    initial name of [n] is the name of a field called [initial-n]. *)
Theorem prefixed_names_of_one_form_are_distinct (this : FormInstance) :
  (forall n m, addPrefix this n = addPrefix this m -> n = m) /\
  (forall n m, addInitialPrefix this n = addInitialPrefix this m -> n = m) /\
  (forall other p q n,
     prefix this = Some p -> prefix other = Some q ->
     addPrefix this n = addPrefix other n -> p = q) /\
  (forall other p n m,
     prefix this = Some p ->
     prefix other = Some (String.append p (String.append "-" n)) ->
     addPrefix this (String.append n (String.append "-" m)) = addPrefix other m) /\
  (forall n, prefix this = None ->
     addInitialPrefix this n = addPrefix this (String.append "initial-" n)).
Proof.
  assert (Hinj : forall n m, addPrefix this n = addPrefix this m -> n = m).
  { intros n m. rewrite !addPrefix_eq. destruct (prefix this) as [p|]; [|auto].
    intros H. apply append_cancel_l in H. now injection H. }
  split; [exact Hinj|]. split; [|split; [|split]].
  - intros n m. rewrite !addInitialPrefix_eq. intros H.
    apply append_cancel_l in H. now apply Hinj.
  - intros other p q n Hp Hq. rewrite !addPrefix_eq, Hp, Hq.
    apply append_cancel_r.
  - intros other p n m Hp Hq. rewrite !addPrefix_eq, Hp, Hq.
    rewrite append_assoc. cbn. reflexivity.
  - intros n Hnone. rewrite addInitialPrefix_eq, !addPrefix_eq, Hnone. reflexivity.
Qed.

Lemma fullClean_steps_thrown P s eo cd e t :
  _errors s = Some eo -> cleanedData s = Some (VObj cd) ->
  fullClean_steps P s = Thrown e t ->
  (exists st, _postClean P st = Raise e) \/
  (isValidationError e = false /\
   ((exists name f, In (name, f) (fields s) /\ field_clean s name f = Raise e) \/
    exists m h st, method P m = Some h /\ h st = Raise e)).
Proof.
  intros Herr Hcd. rewrite fullClean_steps_unfold.
  destruct (cleanFields_loop_slots P (fields s) s eo cd Herr Hcd)
    as (_ & _ & (eo1 & cd1 & He1 & _) & Hthrown).
  change (for_each (_cleanFields_body P) (fields s) s) with (_cleanFields P s) in *.
  destruct (_cleanFields P s) as [[] s1|e1 s1]; cbn in He1.
  2: { intros [= <- <-]. right.
       destruct (Hthrown e1 s1 eq_refl) as (Hv & name & f & Hin & [Hfc|Hm]).
       - split; [exact Hv|]. left. eauto.
       - split; [exact Hv|]. now right. }
  pose proof (cleanForm_cases P s1 eo1 He1) as Hform.
  pose proof (postClean_cases P) as Hpost.
  destruct (clean P (record (CalledMethod "clean") s1)) as [v|[msgs|d]] eqn:Hclean;
    rewrite Hform.
  3: { intros [= <- <-]. right. split; [reflexivity|]. right.
       exists "clean", (clean P). eauto. }
  all: match goal with
    | |- context [invoke "_postClean" _ ?s2] =>
        specialize (Hpost s2);
        destruct (_postClean P (record (CalledMethod "_postClean") s2)) eqn:Hraise;
        rewrite Hpost
    end.
  all: try (intros [= <- <-]; left; eauto).
  all: unfold drop_cleaned_if_errors; autounfold with method_ops; cbn;
    rewrite ?He1; cbn; rewrite ?isPopulated_set; cbn;
    try destruct (ErrorObject.isPopulated eo1); discriminate.
Qed.

(** X14.  [fullClean] throws only for a bound instance, and what it throws
    was raised by [_postClean], or is not a [ValidationError] and was raised
    by a field's [clean] or by a method of the form: a [ValidationError] of
    a field or of the form-wide [clean] never leaves [fullClean]. *)
Theorem fullClean_throws_only_what_was_raised
  (P : Proto) (this t : FormInstance) (e : Exn) :
  fullClean P this = Thrown e t ->
  isBound this = true /\
  ((exists st, _postClean P st = Raise e) \/
   (isValidationError e = false /\
    ((exists name f, In (name, f) (fields this) /\ field_clean this name f = Raise e) \/
     exists m h st, method P m = Some h /\ h st = Raise e))).
Proof.
  intros Hrun. destruct (isBound this) eqn:Hb.
  2: { rewrite (fullClean_unbound P this Hb) in Hrun. discriminate. }
  split; [reflexivity|].
  pose proof (fullClean_bound P this Hb) as H.
  destruct (cleaning_starts this) as [s0|].
  - destruct H as (Hsteps & He0 & Hcd0 & Hc0 & _). rewrite Hsteps in Hrun.
    destruct (fullClean_steps_thrown P s0 _ _ e t He0 Hcd0 Hrun)
      as [Hpost|(Hv & [(name & f & Hin & Hfc)|Hm])]; [now left| |].
    + right. split; [exact Hv|]. left. exists name, f. split.
      * unfold config in Hc0. injection Hc0 as _ _ _ _ _ _ _ _ Hf. now rewrite <- Hf.
      * now rewrite <- (field_clean_config s0 this name f Hc0).
    + right. split; [exact Hv|]. now right.
  - destruct H as (_ & s' & _ & Hshort & _). rewrite Hshort in Hrun. discriminate.
Qed.

Lemma fullClean_throws_only_what_was_raised_witness :
  let this :=
    BaseForm [("name", Sample.CharField true 1); ("bad", Sample.BrokenField 2)]
             (Sample.bound Sample.nameless) in
  exists t,
    fullClean BaseForm_prototype this = Thrown (Defect "ReferenceError") t /\
    isBound this = true.
Proof.
  intros this.
  assert (Hrun : fullClean BaseForm_prototype this =
                 Thrown (Defect "ReferenceError")
                        (state_of (fullClean BaseForm_prototype this)))
    by (vm_compute; reflexivity).
  eexists. split; [exact Hrun|].
  apply (fullClean_throws_only_what_was_raised BaseForm_prototype this _ _ Hrun).
Defined.

(** X15.  [BoundField.autoId] is empty when the form has no [autoId], the
    bound field's HTML name when [autoId] has no [%(name)s], and ["id_"]
    followed by the HTML name for the default [autoId]; with the default,
    the id of the hidden initial input is ["initial-"], the form's prefix,
    and the auto id (which carries the prefix again), and different fields
    of one instance get different ids. *)
Theorem auto_ids_follow_the_html_names
  (prettyName : string -> string) (this : FormInstance) :
  (autoId this = None \/ autoId this = Some "" ->
   forall h, BoundField_autoId this h = "") /\
  (forall template, autoId this = Some template -> template <> "" ->
   contains "%(name)s" template = false ->
   forall h, BoundField_autoId this h = h) /\
  (autoId this = Some "id_%(name)s" ->
   (forall h, BoundField_autoId this h = String.append "id_" h) /\
   (forall f name,
      BoundField.htmlInitialId (BoundField prettyName this f name) =
      String.append "initial-"
        (addPrefix this (String.append "id_" (addPrefix this name)))) /\
   (forall n m,
      BoundField_autoId this (addPrefix this n) =
      BoundField_autoId this (addPrefix this m) -> n = m)).
Proof.
  split; [|split].
  - intros [H|H] h; unfold BoundField_autoId; now rewrite H.
  - intros template H Hne Hno h. unfold BoundField_autoId. rewrite H, Hno.
    destruct template; [contradiction|reflexivity].
  - intros H.
    assert (Hid : forall h, BoundField_autoId this h = String.append "id_" h).
    { intros h. unfold BoundField_autoId. rewrite H. cbn. now rewrite append_empty_r. }
    split; [exact Hid|]. split.
    + intros f name. cbn [BoundField.htmlInitialId BoundField].
      now rewrite addInitialPrefix_eq, Hid.
    + intros n m. rewrite !Hid. intros Heq. apply append_cancel_l in Heq.
      revert Heq. rewrite !addPrefix_eq. destruct (prefix this) as [p|]; [|auto].
      intros Heq. apply append_cancel_l in Heq. now injection Heq.
Qed.

Lemma hidden_and_visible_fields_split_the_fields_witness :
  map BoundField.name (visibleFields (fun n => n) Sample.echo_form) = ["nick"; "name"] /\
  hiddenFields (fun n => n) Sample.echo_form = [] /\
  boundFields (fun n => n) (Some (fun _ _ => VNum 1)) Sample.echo_form = [].
Proof.
  destruct (hidden_and_visible_fields_split_the_fields (fun n => n) Sample.echo_form)
    as (Hh & Hv & _ & _ & Hstrict).
  split; [rewrite Hv; reflexivity|]. split; [rewrite Hh; reflexivity|].
  apply Hstrict. discriminate.
Defined.

Lemma boundField_agrees_with_boundFields_witness :
  Obj.wf (fields Sample.ada_form) /\
  Obj.keys (boundFieldsObj (fun n => n) None Sample.ada_form) = ["name"; "age"] /\
  exists bf,
    Obj.get (boundFieldsObj (fun n => n) None Sample.ada_form) "age" = Some bf /\
    boundField (fun n => n) "age" Sample.ada_form = Normal bf Sample.ada_form.
Proof.
  assert (Hwf : Obj.wf (fields Sample.ada_form)).
  { repeat constructor; cbn; intuition discriminate. }
  split; [exact Hwf|].
  destruct (boundField_agrees_with_boundFields (fun n => n) Sample.ada_form "age" Hwf)
    as (_ & _ & Hkeys & Hget).
  split; [exact Hkeys|].
  eexists. split; [vm_compute; reflexivity|]. apply Hget. vm_compute. reflexivity.
Defined.

Lemma prefixed_names_of_one_form_are_distinct_witness :
  let a := BaseForm [] {| kw_data := None; kw_files := None; kw_autoId := None;
                          kw_prefix := Some "a"; kw_initial := None;
                          kw_labelSuffix := ":"; kw_emptyPermitted := false |} in
  let ab := BaseForm [] {| kw_data := None; kw_files := None; kw_autoId := None;
                           kw_prefix := Some "a-b"; kw_initial := None;
                           kw_labelSuffix := ":"; kw_emptyPermitted := false |} in
  prefix a = Some "a" /\ prefix ab = Some "a-b" /\
  addPrefix a "b-c" = addPrefix ab "c" /\
  addPrefix a "b-c" = "a-b-c".
Proof.
  intros a ab.
  destruct (prefixed_names_of_one_form_are_distinct a) as (_ & _ & _ & Hclash & _).
  split; [reflexivity|]. split; [reflexivity|].
  split; [exact (Hclash ab "a" "b" "c" eq_refl eq_refl)|reflexivity].
Defined.

Lemma auto_ids_follow_the_html_names_witness :
  autoId Sample.ada_form = Some "id_%(name)s" /\
  BoundField_autoId Sample.ada_form "age" = "id_age" /\
  BoundField.htmlInitialId
    (BoundField (fun n => n) Sample.ada_form (Sample.CharField true 1) "name") =
  "initial-id_name".
Proof.
  destruct (auto_ids_follow_the_html_names (fun n => n) Sample.ada_form)
    as (_ & _ & Hdefault).
  destruct (Hdefault eq_refl) as (Hid & Hinitial & _).
  split; [reflexivity|]. split; [exact (Hid "age")|].
  exact (Hinitial (Sample.CharField true 1) "name").
Defined.
